(** * ArchAi drawing engine: a shallow embedding of [index.tsx]

    The drawing engine of the application is a set of closures over React
    state.  Each closure is embedded as a function on an explicit
    [AppState]; a state setter becomes a record update, [prompt] and the
    canvas rectangle become arguments, [Math.random] becomes an oracle
    carried by the state, and an uncaught [TypeError] becomes [None].

    JavaScript numbers are kept behind the interface [JSNumber], with two
    instances:
    - [float64], the IEEE 754 binary64 numbers the program really runs on
      (Rocq's primitive floats), used to run the code on concrete inputs
      and for every statement about guards, [NaN] and [Infinity];
    - [xreal], the real numbers extended with [Infinity], [-Infinity] and
      [NaN], where arithmetic on finite values is exact, used for the
      algebraic laws that hold only up to rounding on binary64. *)

From Stdlib Require Import Bool List ZArith Ascii String DecimalString Lia.
From Stdlib Require Import Floats.
From Stdlib Require Import Reals Lra.
From Stdlib Require DecimalNat.
Import ListNotations.

Set Implicit Arguments.

(* ================================================================= *)
(** ** JavaScript numbers *)

Declare Scope js_scope.
Delimit Scope js_scope with js.

(** The operations of the [number] type that the program uses.
    [cos_quarter] and [sin_quarter] are [Math.cos(Math.PI / 2)] and
    [Math.sin(Math.PI / 2)]; [rem] is the [%] operator. *)
Class JSNumber (N : Type) : Type := {
  of_Z : Z -> N;
  add : N -> N -> N;
  sub : N -> N -> N;
  mul : N -> N -> N;
  div : N -> N -> N;
  rem : N -> N -> N;
  opp : N -> N;
  Math_abs : N -> N;
  Math_sqrt : N -> N;
  ltb : N -> N -> bool;
  leb : N -> N -> bool;
  eqb : N -> N -> bool;
  Infinity : N;
  NaN : N;
  cos_quarter : N;
  sin_quarter : N
}.

Infix "+" := add : js_scope.
Infix "-" := sub : js_scope.
Infix "*" := mul : js_scope.
Infix "/" := div : js_scope.
Infix "%" := rem (at level 40, left associativity) : js_scope.
Notation "- x" := (opp x) : js_scope.
Infix "<" := ltb : js_scope.
Infix "<=" := leb : js_scope.
Notation "x > y" := (ltb y x) : js_scope.
Notation "x >= y" := (leb y x) : js_scope.
Infix "===" := eqb (at level 70, no associativity) : js_scope.
Notation "# z" := (of_Z z%Z) (at level 1, format "# z") : js_scope.

Section Numbers.
Context {N : Type} `{JSNumber N}.
Local Open Scope js_scope.

(** A decimal literal [m / 10^k]: both operands are exact and the
    division is correctly rounded, so this is the literal's value. *)
Definition decimal (m : Z) (k : nat) : N := #m / of_Z (10 ^ Z.of_nat k).

Definition isNaN (x : N) : bool := negb (x === x).
Definition isFinite (x : N) : bool :=
  negb (isNaN x) && negb (Math_abs x === Infinity).

(** [-0] is the zero whose reciprocal is negative. *)
Definition is_neg_zero (x : N) : bool := (x === #0) && (#1 / x < #0).
Definition is_pos_zero (x : N) : bool := (x === #0) && negb (#1 / x < #0).

(** ToBoolean on a number: [0], [-0] and [NaN] are falsy. *)
Definition truthy (x : N) : bool := negb ((x === #0) || isNaN x).

(** ToNumber on a possibly [undefined] property. *)
Definition toNumber (o : option N) : N :=
  match o with Some v => v | None => NaN end.

(** [Math.min(...)] as ECMAScript defines it: [NaN] if any argument
    is, else a fold from [+Infinity] that prefers [-0] to [+0]. *)
Definition Math_min (l : list N) : N :=
  if existsb isNaN l then NaN
  else fold_left
         (fun lowest number =>
            let lowest :=
              if is_neg_zero number && is_pos_zero lowest then number
              else lowest in
            if number < lowest then number else lowest)
         l Infinity.

Definition Math_max (l : list N) : N :=
  if existsb isNaN l then NaN
  else fold_left
         (fun highest number =>
            let highest :=
              if is_pos_zero number && is_neg_zero highest then number
              else highest in
            if number > highest then number else highest)
         l (- Infinity).

(** [Math.pow(v, 2)] and [v ** 2]. *)
Definition sq (v : N) : N := v * v.
End Numbers.

(* ----------------------------------------------------------------- *)
(** *** binary64 *)

Module Float64.
Open Scope float_scope.

(** The integer [z] rounded to the nearest binary64 (ties to even). *)
Definition of_Z (z : Z) : float :=
  SF2Prim (binary_normalize prec emax z 0 false).

(** A finite non-zero binary64 as a signed integer mantissa and an
    exponent, [m * 2^e]. *)
Definition to_scaled (x : float) : option (Z * Z) :=
  match Prim2SF x with
  | S754_finite s m e => Some (if s then Z.neg m else Z.pos m, e)
  | _ => None
  end.

(** The [%] operator: the remainder of the truncating division,
    computed exactly, with the sign of the dividend. *)
Definition rem (x y : float) : float :=
  if is_nan x || is_nan y || is_infinity x || is_zero y then nan
  else if is_infinity y || is_zero x then x
  else match to_scaled x, to_scaled y with
       | Some (mx, ex), Some (my, ey) =>
           let e := Z.min ex ey in
           let r := Z.rem (mx * 2 ^ (ex - e)) (my * 2 ^ (ey - e)) in
           if (r =? 0)%Z then (if x <? 0 then neg_zero else zero)
           else SF2Prim (binary_normalize prec emax r e false)
       | _, _ => nan
       end.
End Float64.

#[export] Instance float64 : JSNumber float := {
  of_Z := Float64.of_Z;
  add := PrimFloat.add;
  sub := PrimFloat.sub;
  mul := PrimFloat.mul;
  div := PrimFloat.div;
  rem := Float64.rem;
  opp := PrimFloat.opp;
  Math_abs := PrimFloat.abs;
  Math_sqrt := PrimFloat.sqrt;
  ltb := PrimFloat.ltb;
  leb := PrimFloat.leb;
  eqb := PrimFloat.eqb;
  Infinity := PrimFloat.infinity;
  NaN := PrimFloat.nan;
  cos_quarter := 0x1.1a62633145c07p-54%float;
  sin_quarter := 1%float
}.

(* ----------------------------------------------------------------- *)
(** *** Exact numbers *)

(** The reals with the three special values of a JavaScript number.
    Finite arithmetic is exact; there is a single zero. *)
Inductive xreal : Type :=
| Fin (r : R)
| PInf
| NInf
| XNaN.

Module XReal.
Open Scope R_scope.

Definition Rltb (a b : R) : bool := if Rlt_dec a b then true else false.
Definition Rleb (a b : R) : bool := if Rle_dec a b then true else false.
Definition Reqb (a b : R) : bool := if Req_dec_T a b then true else false.

(** The infinity with the sign of [a], or [NaN] when [a] is zero. *)
Definition signed_inf (a : R) : xreal :=
  if Rlt_dec 0 a then PInf else if Rlt_dec a 0 then NInf else XNaN.

Definition opp (x : xreal) : xreal :=
  match x with
  | Fin a => Fin (- a)
  | PInf => NInf
  | NInf => PInf
  | XNaN => XNaN
  end.

Definition add (x y : xreal) : xreal :=
  match x, y with
  | XNaN, _ | _, XNaN => XNaN
  | Fin a, Fin b => Fin (a + b)
  | PInf, NInf | NInf, PInf => XNaN
  | PInf, _ | _, PInf => PInf
  | NInf, _ | _, NInf => NInf
  end.

Definition sub (x y : xreal) : xreal := add x (opp y).

Definition mul (x y : xreal) : xreal :=
  match x, y with
  | XNaN, _ | _, XNaN => XNaN
  | Fin a, Fin b => Fin (a * b)
  | Fin a, PInf | PInf, Fin a => signed_inf a
  | Fin a, NInf | NInf, Fin a => signed_inf (- a)
  | PInf, PInf | NInf, NInf => PInf
  | PInf, NInf | NInf, PInf => NInf
  end.

Definition div (x y : xreal) : xreal :=
  match x, y with
  | XNaN, _ | _, XNaN => XNaN
  | Fin a, Fin b => if Req_dec_T b 0 then signed_inf a else Fin (a / b)
  | Fin _, (PInf | NInf) => Fin 0
  | PInf, Fin b => if Rlt_dec b 0 then NInf else PInf
  | NInf, Fin b => if Rlt_dec b 0 then PInf else NInf
  | (PInf | NInf), (PInf | NInf) => XNaN
  end.

(** The integer part of [q], rounded toward zero. *)
Definition trunc (q : R) : Z :=
  if Rle_dec 0 q then Int_part q else (- Int_part (- q))%Z.

Definition rem (x y : xreal) : xreal :=
  match x, y with
  | XNaN, _ | _, XNaN => XNaN
  | (PInf | NInf), _ => XNaN
  | Fin a, (PInf | NInf) => Fin a
  | Fin a, Fin b =>
      if Req_dec_T b 0 then XNaN else Fin (a - b * IZR (trunc (a / b)))
  end.

Definition abs (x : xreal) : xreal :=
  match x with
  | Fin a => Fin (Rabs a)
  | PInf | NInf => PInf
  | XNaN => XNaN
  end.

Definition sqrt (x : xreal) : xreal :=
  match x with
  | Fin a => if Rlt_dec a 0 then XNaN else Fin (R_sqrt.sqrt a)
  | PInf => PInf
  | NInf | XNaN => XNaN
  end.

Definition ltb (x y : xreal) : bool :=
  match x, y with
  | XNaN, _ | _, XNaN => false
  | Fin a, Fin b => Rltb a b
  | NInf, (Fin _ | PInf) | Fin _, PInf => true
  | _, _ => false
  end.

Definition leb (x y : xreal) : bool :=
  match x, y with
  | XNaN, _ | _, XNaN => false
  | Fin a, Fin b => Rleb a b
  | NInf, _ | _, PInf => true
  | _, _ => false
  end.

Definition eqb (x y : xreal) : bool :=
  match x, y with
  | Fin a, Fin b => Reqb a b
  | PInf, PInf | NInf, NInf => true
  | _, _ => false
  end.
End XReal.

#[export] Instance exact_number : JSNumber xreal := {
  of_Z := fun z => Fin (IZR z);
  add := XReal.add;
  sub := XReal.sub;
  mul := XReal.mul;
  div := XReal.div;
  rem := XReal.rem;
  opp := XReal.opp;
  Math_abs := XReal.abs;
  Math_sqrt := XReal.sqrt;
  ltb := XReal.ltb;
  leb := XReal.leb;
  eqb := XReal.eqb;
  Infinity := PInf;
  NaN := XNaN;
  cos_quarter := Fin (cos (PI / 2));
  sin_quarter := Fin (sin (PI / 2))
}.
(* ================================================================= *)
(** ** Data model *)

Inductive ToolType : Set :=
| SELECT | WALL | DOOR | WINDOW | TEXT | CIRCLE | RECT | DIMENSION
| POLYLINE | ARC | INSERT_BLOCK | LEADER | TABLE | CENTERMARK.

Definition ToolType_eqb (a b : ToolType) : bool :=
  match a, b with
  | SELECT, SELECT | WALL, WALL | DOOR, DOOR | WINDOW, WINDOW
  | TEXT, TEXT | CIRCLE, CIRCLE | RECT, RECT | DIMENSION, DIMENSION
  | POLYLINE, POLYLINE | ARC, ARC | INSERT_BLOCK, INSERT_BLOCK
  | LEADER, LEADER | TABLE, TABLE | CENTERMARK, CENTERMARK => true
  | _, _ => false
  end.

(** Left-to-right application, for chains of property assignments. *)
Notation "e |> f" := (f e) (at level 50, left associativity, only parsing).

Section Model.
Context {N : Type} `{JSNumber N}.
Local Open Scope js_scope.

Record Point : Type := { x : N; y : N }.

(** [Entity] is an object with optional properties ([[key: string]:
    any]); each property the engine reads or writes is a field, [None]
    for [undefined].  A property that is present is assumed to hold a
    value of its declared type. *)
Record Entity : Type := {
  e_id : option string;
  e_type : option string;
  e_selected : option bool;
  e_action : option string;
  e_start : option Point;
  e_end : option Point;
  e_center : option Point;
  e_insertPoint : option Point;
  e_p1 : option Point;
  e_p2 : option Point;
  e_p3 : option Point;
  e_points : option (list Point);
  e_x : option N;
  e_y : option N;
  e_width : option N;
  e_height : option N;
  e_radius : option N;
  e_thickness : option N;
  e_rotation : option N;
  e_size : option N;
  e_rows : option N;
  e_cols : option N;
  e_rowHeight : option N;
  e_colWidth : option N;
  e_fontSize : option N;
  e_scale : option N;
  e_content : option string;
  e_text : option string;
  e_blockName : option string
}.

(** The object with no property. *)
Definition no_entity : Entity :=
  {| e_id := None; e_type := None; e_selected := None; e_action := None;
     e_start := None; e_end := None; e_center := None; e_insertPoint := None;
     e_p1 := None; e_p2 := None; e_p3 := None; e_points := None; e_x := None;
     e_y := None; e_width := None; e_height := None; e_radius := None;
     e_thickness := None; e_rotation := None; e_size := None; e_rows := None;
     e_cols := None; e_rowHeight := None; e_colWidth := None;
     e_fontSize := None; e_scale := None; e_content := None; e_text := None;
     e_blockName := None |}.

(** Property assignment, [e.f = v] ([None] deletes the property). *)
Definition set_id (v : option string) (e : Entity) : Entity :=
  {| e_id := v; e_type := e_type e; e_selected := e_selected e;
     e_action := e_action e; e_start := e_start e; e_end := e_end e;
     e_center := e_center e; e_insertPoint := e_insertPoint e; e_p1 := e_p1 e;
     e_p2 := e_p2 e; e_p3 := e_p3 e; e_points := e_points e; e_x := e_x e;
     e_y := e_y e; e_width := e_width e; e_height := e_height e;
     e_radius := e_radius e; e_thickness := e_thickness e;
     e_rotation := e_rotation e; e_size := e_size e; e_rows := e_rows e;
     e_cols := e_cols e; e_rowHeight := e_rowHeight e;
     e_colWidth := e_colWidth e; e_fontSize := e_fontSize e;
     e_scale := e_scale e; e_content := e_content e; e_text := e_text e;
     e_blockName := e_blockName e |}.
Definition set_type (v : option string) (e : Entity) : Entity :=
  {| e_id := e_id e; e_type := v; e_selected := e_selected e;
     e_action := e_action e; e_start := e_start e; e_end := e_end e;
     e_center := e_center e; e_insertPoint := e_insertPoint e; e_p1 := e_p1 e;
     e_p2 := e_p2 e; e_p3 := e_p3 e; e_points := e_points e; e_x := e_x e;
     e_y := e_y e; e_width := e_width e; e_height := e_height e;
     e_radius := e_radius e; e_thickness := e_thickness e;
     e_rotation := e_rotation e; e_size := e_size e; e_rows := e_rows e;
     e_cols := e_cols e; e_rowHeight := e_rowHeight e;
     e_colWidth := e_colWidth e; e_fontSize := e_fontSize e;
     e_scale := e_scale e; e_content := e_content e; e_text := e_text e;
     e_blockName := e_blockName e |}.
Definition set_selected (v : option bool) (e : Entity) : Entity :=
  {| e_id := e_id e; e_type := e_type e; e_selected := v;
     e_action := e_action e; e_start := e_start e; e_end := e_end e;
     e_center := e_center e; e_insertPoint := e_insertPoint e; e_p1 := e_p1 e;
     e_p2 := e_p2 e; e_p3 := e_p3 e; e_points := e_points e; e_x := e_x e;
     e_y := e_y e; e_width := e_width e; e_height := e_height e;
     e_radius := e_radius e; e_thickness := e_thickness e;
     e_rotation := e_rotation e; e_size := e_size e; e_rows := e_rows e;
     e_cols := e_cols e; e_rowHeight := e_rowHeight e;
     e_colWidth := e_colWidth e; e_fontSize := e_fontSize e;
     e_scale := e_scale e; e_content := e_content e; e_text := e_text e;
     e_blockName := e_blockName e |}.
Definition set_action (v : option string) (e : Entity) : Entity :=
  {| e_id := e_id e; e_type := e_type e; e_selected := e_selected e;
     e_action := v; e_start := e_start e; e_end := e_end e;
     e_center := e_center e; e_insertPoint := e_insertPoint e; e_p1 := e_p1 e;
     e_p2 := e_p2 e; e_p3 := e_p3 e; e_points := e_points e; e_x := e_x e;
     e_y := e_y e; e_width := e_width e; e_height := e_height e;
     e_radius := e_radius e; e_thickness := e_thickness e;
     e_rotation := e_rotation e; e_size := e_size e; e_rows := e_rows e;
     e_cols := e_cols e; e_rowHeight := e_rowHeight e;
     e_colWidth := e_colWidth e; e_fontSize := e_fontSize e;
     e_scale := e_scale e; e_content := e_content e; e_text := e_text e;
     e_blockName := e_blockName e |}.
Definition set_start (v : option Point) (e : Entity) : Entity :=
  {| e_id := e_id e; e_type := e_type e; e_selected := e_selected e;
     e_action := e_action e; e_start := v; e_end := e_end e;
     e_center := e_center e; e_insertPoint := e_insertPoint e; e_p1 := e_p1 e;
     e_p2 := e_p2 e; e_p3 := e_p3 e; e_points := e_points e; e_x := e_x e;
     e_y := e_y e; e_width := e_width e; e_height := e_height e;
     e_radius := e_radius e; e_thickness := e_thickness e;
     e_rotation := e_rotation e; e_size := e_size e; e_rows := e_rows e;
     e_cols := e_cols e; e_rowHeight := e_rowHeight e;
     e_colWidth := e_colWidth e; e_fontSize := e_fontSize e;
     e_scale := e_scale e; e_content := e_content e; e_text := e_text e;
     e_blockName := e_blockName e |}.
Definition set_end (v : option Point) (e : Entity) : Entity :=
  {| e_id := e_id e; e_type := e_type e; e_selected := e_selected e;
     e_action := e_action e; e_start := e_start e; e_end := v;
     e_center := e_center e; e_insertPoint := e_insertPoint e; e_p1 := e_p1 e;
     e_p2 := e_p2 e; e_p3 := e_p3 e; e_points := e_points e; e_x := e_x e;
     e_y := e_y e; e_width := e_width e; e_height := e_height e;
     e_radius := e_radius e; e_thickness := e_thickness e;
     e_rotation := e_rotation e; e_size := e_size e; e_rows := e_rows e;
     e_cols := e_cols e; e_rowHeight := e_rowHeight e;
     e_colWidth := e_colWidth e; e_fontSize := e_fontSize e;
     e_scale := e_scale e; e_content := e_content e; e_text := e_text e;
     e_blockName := e_blockName e |}.
Definition set_center (v : option Point) (e : Entity) : Entity :=
  {| e_id := e_id e; e_type := e_type e; e_selected := e_selected e;
     e_action := e_action e; e_start := e_start e; e_end := e_end e;
     e_center := v; e_insertPoint := e_insertPoint e; e_p1 := e_p1 e;
     e_p2 := e_p2 e; e_p3 := e_p3 e; e_points := e_points e; e_x := e_x e;
     e_y := e_y e; e_width := e_width e; e_height := e_height e;
     e_radius := e_radius e; e_thickness := e_thickness e;
     e_rotation := e_rotation e; e_size := e_size e; e_rows := e_rows e;
     e_cols := e_cols e; e_rowHeight := e_rowHeight e;
     e_colWidth := e_colWidth e; e_fontSize := e_fontSize e;
     e_scale := e_scale e; e_content := e_content e; e_text := e_text e;
     e_blockName := e_blockName e |}.
Definition set_insertPoint (v : option Point) (e : Entity) : Entity :=
  {| e_id := e_id e; e_type := e_type e; e_selected := e_selected e;
     e_action := e_action e; e_start := e_start e; e_end := e_end e;
     e_center := e_center e; e_insertPoint := v; e_p1 := e_p1 e;
     e_p2 := e_p2 e; e_p3 := e_p3 e; e_points := e_points e; e_x := e_x e;
     e_y := e_y e; e_width := e_width e; e_height := e_height e;
     e_radius := e_radius e; e_thickness := e_thickness e;
     e_rotation := e_rotation e; e_size := e_size e; e_rows := e_rows e;
     e_cols := e_cols e; e_rowHeight := e_rowHeight e;
     e_colWidth := e_colWidth e; e_fontSize := e_fontSize e;
     e_scale := e_scale e; e_content := e_content e; e_text := e_text e;
     e_blockName := e_blockName e |}.
Definition set_p1 (v : option Point) (e : Entity) : Entity :=
  {| e_id := e_id e; e_type := e_type e; e_selected := e_selected e;
     e_action := e_action e; e_start := e_start e; e_end := e_end e;
     e_center := e_center e; e_insertPoint := e_insertPoint e; e_p1 := v;
     e_p2 := e_p2 e; e_p3 := e_p3 e; e_points := e_points e; e_x := e_x e;
     e_y := e_y e; e_width := e_width e; e_height := e_height e;
     e_radius := e_radius e; e_thickness := e_thickness e;
     e_rotation := e_rotation e; e_size := e_size e; e_rows := e_rows e;
     e_cols := e_cols e; e_rowHeight := e_rowHeight e;
     e_colWidth := e_colWidth e; e_fontSize := e_fontSize e;
     e_scale := e_scale e; e_content := e_content e; e_text := e_text e;
     e_blockName := e_blockName e |}.
Definition set_p2 (v : option Point) (e : Entity) : Entity :=
  {| e_id := e_id e; e_type := e_type e; e_selected := e_selected e;
     e_action := e_action e; e_start := e_start e; e_end := e_end e;
     e_center := e_center e; e_insertPoint := e_insertPoint e; e_p1 := e_p1 e;
     e_p2 := v; e_p3 := e_p3 e; e_points := e_points e; e_x := e_x e;
     e_y := e_y e; e_width := e_width e; e_height := e_height e;
     e_radius := e_radius e; e_thickness := e_thickness e;
     e_rotation := e_rotation e; e_size := e_size e; e_rows := e_rows e;
     e_cols := e_cols e; e_rowHeight := e_rowHeight e;
     e_colWidth := e_colWidth e; e_fontSize := e_fontSize e;
     e_scale := e_scale e; e_content := e_content e; e_text := e_text e;
     e_blockName := e_blockName e |}.
Definition set_p3 (v : option Point) (e : Entity) : Entity :=
  {| e_id := e_id e; e_type := e_type e; e_selected := e_selected e;
     e_action := e_action e; e_start := e_start e; e_end := e_end e;
     e_center := e_center e; e_insertPoint := e_insertPoint e; e_p1 := e_p1 e;
     e_p2 := e_p2 e; e_p3 := v; e_points := e_points e; e_x := e_x e;
     e_y := e_y e; e_width := e_width e; e_height := e_height e;
     e_radius := e_radius e; e_thickness := e_thickness e;
     e_rotation := e_rotation e; e_size := e_size e; e_rows := e_rows e;
     e_cols := e_cols e; e_rowHeight := e_rowHeight e;
     e_colWidth := e_colWidth e; e_fontSize := e_fontSize e;
     e_scale := e_scale e; e_content := e_content e; e_text := e_text e;
     e_blockName := e_blockName e |}.
Definition set_points (v : option (list Point)) (e : Entity) : Entity :=
  {| e_id := e_id e; e_type := e_type e; e_selected := e_selected e;
     e_action := e_action e; e_start := e_start e; e_end := e_end e;
     e_center := e_center e; e_insertPoint := e_insertPoint e; e_p1 := e_p1 e;
     e_p2 := e_p2 e; e_p3 := e_p3 e; e_points := v; e_x := e_x e;
     e_y := e_y e; e_width := e_width e; e_height := e_height e;
     e_radius := e_radius e; e_thickness := e_thickness e;
     e_rotation := e_rotation e; e_size := e_size e; e_rows := e_rows e;
     e_cols := e_cols e; e_rowHeight := e_rowHeight e;
     e_colWidth := e_colWidth e; e_fontSize := e_fontSize e;
     e_scale := e_scale e; e_content := e_content e; e_text := e_text e;
     e_blockName := e_blockName e |}.
Definition set_x (v : option N) (e : Entity) : Entity :=
  {| e_id := e_id e; e_type := e_type e; e_selected := e_selected e;
     e_action := e_action e; e_start := e_start e; e_end := e_end e;
     e_center := e_center e; e_insertPoint := e_insertPoint e; e_p1 := e_p1 e;
     e_p2 := e_p2 e; e_p3 := e_p3 e; e_points := e_points e; e_x := v;
     e_y := e_y e; e_width := e_width e; e_height := e_height e;
     e_radius := e_radius e; e_thickness := e_thickness e;
     e_rotation := e_rotation e; e_size := e_size e; e_rows := e_rows e;
     e_cols := e_cols e; e_rowHeight := e_rowHeight e;
     e_colWidth := e_colWidth e; e_fontSize := e_fontSize e;
     e_scale := e_scale e; e_content := e_content e; e_text := e_text e;
     e_blockName := e_blockName e |}.
Definition set_y (v : option N) (e : Entity) : Entity :=
  {| e_id := e_id e; e_type := e_type e; e_selected := e_selected e;
     e_action := e_action e; e_start := e_start e; e_end := e_end e;
     e_center := e_center e; e_insertPoint := e_insertPoint e; e_p1 := e_p1 e;
     e_p2 := e_p2 e; e_p3 := e_p3 e; e_points := e_points e; e_x := e_x e;
     e_y := v; e_width := e_width e; e_height := e_height e;
     e_radius := e_radius e; e_thickness := e_thickness e;
     e_rotation := e_rotation e; e_size := e_size e; e_rows := e_rows e;
     e_cols := e_cols e; e_rowHeight := e_rowHeight e;
     e_colWidth := e_colWidth e; e_fontSize := e_fontSize e;
     e_scale := e_scale e; e_content := e_content e; e_text := e_text e;
     e_blockName := e_blockName e |}.
Definition set_width (v : option N) (e : Entity) : Entity :=
  {| e_id := e_id e; e_type := e_type e; e_selected := e_selected e;
     e_action := e_action e; e_start := e_start e; e_end := e_end e;
     e_center := e_center e; e_insertPoint := e_insertPoint e; e_p1 := e_p1 e;
     e_p2 := e_p2 e; e_p3 := e_p3 e; e_points := e_points e; e_x := e_x e;
     e_y := e_y e; e_width := v; e_height := e_height e;
     e_radius := e_radius e; e_thickness := e_thickness e;
     e_rotation := e_rotation e; e_size := e_size e; e_rows := e_rows e;
     e_cols := e_cols e; e_rowHeight := e_rowHeight e;
     e_colWidth := e_colWidth e; e_fontSize := e_fontSize e;
     e_scale := e_scale e; e_content := e_content e; e_text := e_text e;
     e_blockName := e_blockName e |}.
Definition set_height (v : option N) (e : Entity) : Entity :=
  {| e_id := e_id e; e_type := e_type e; e_selected := e_selected e;
     e_action := e_action e; e_start := e_start e; e_end := e_end e;
     e_center := e_center e; e_insertPoint := e_insertPoint e; e_p1 := e_p1 e;
     e_p2 := e_p2 e; e_p3 := e_p3 e; e_points := e_points e; e_x := e_x e;
     e_y := e_y e; e_width := e_width e; e_height := v;
     e_radius := e_radius e; e_thickness := e_thickness e;
     e_rotation := e_rotation e; e_size := e_size e; e_rows := e_rows e;
     e_cols := e_cols e; e_rowHeight := e_rowHeight e;
     e_colWidth := e_colWidth e; e_fontSize := e_fontSize e;
     e_scale := e_scale e; e_content := e_content e; e_text := e_text e;
     e_blockName := e_blockName e |}.
Definition set_radius (v : option N) (e : Entity) : Entity :=
  {| e_id := e_id e; e_type := e_type e; e_selected := e_selected e;
     e_action := e_action e; e_start := e_start e; e_end := e_end e;
     e_center := e_center e; e_insertPoint := e_insertPoint e; e_p1 := e_p1 e;
     e_p2 := e_p2 e; e_p3 := e_p3 e; e_points := e_points e; e_x := e_x e;
     e_y := e_y e; e_width := e_width e; e_height := e_height e;
     e_radius := v; e_thickness := e_thickness e; e_rotation := e_rotation e;
     e_size := e_size e; e_rows := e_rows e; e_cols := e_cols e;
     e_rowHeight := e_rowHeight e; e_colWidth := e_colWidth e;
     e_fontSize := e_fontSize e; e_scale := e_scale e;
     e_content := e_content e; e_text := e_text e;
     e_blockName := e_blockName e |}.
Definition set_thickness (v : option N) (e : Entity) : Entity :=
  {| e_id := e_id e; e_type := e_type e; e_selected := e_selected e;
     e_action := e_action e; e_start := e_start e; e_end := e_end e;
     e_center := e_center e; e_insertPoint := e_insertPoint e; e_p1 := e_p1 e;
     e_p2 := e_p2 e; e_p3 := e_p3 e; e_points := e_points e; e_x := e_x e;
     e_y := e_y e; e_width := e_width e; e_height := e_height e;
     e_radius := e_radius e; e_thickness := v; e_rotation := e_rotation e;
     e_size := e_size e; e_rows := e_rows e; e_cols := e_cols e;
     e_rowHeight := e_rowHeight e; e_colWidth := e_colWidth e;
     e_fontSize := e_fontSize e; e_scale := e_scale e;
     e_content := e_content e; e_text := e_text e;
     e_blockName := e_blockName e |}.
Definition set_rotation (v : option N) (e : Entity) : Entity :=
  {| e_id := e_id e; e_type := e_type e; e_selected := e_selected e;
     e_action := e_action e; e_start := e_start e; e_end := e_end e;
     e_center := e_center e; e_insertPoint := e_insertPoint e; e_p1 := e_p1 e;
     e_p2 := e_p2 e; e_p3 := e_p3 e; e_points := e_points e; e_x := e_x e;
     e_y := e_y e; e_width := e_width e; e_height := e_height e;
     e_radius := e_radius e; e_thickness := e_thickness e; e_rotation := v;
     e_size := e_size e; e_rows := e_rows e; e_cols := e_cols e;
     e_rowHeight := e_rowHeight e; e_colWidth := e_colWidth e;
     e_fontSize := e_fontSize e; e_scale := e_scale e;
     e_content := e_content e; e_text := e_text e;
     e_blockName := e_blockName e |}.
Definition set_size (v : option N) (e : Entity) : Entity :=
  {| e_id := e_id e; e_type := e_type e; e_selected := e_selected e;
     e_action := e_action e; e_start := e_start e; e_end := e_end e;
     e_center := e_center e; e_insertPoint := e_insertPoint e; e_p1 := e_p1 e;
     e_p2 := e_p2 e; e_p3 := e_p3 e; e_points := e_points e; e_x := e_x e;
     e_y := e_y e; e_width := e_width e; e_height := e_height e;
     e_radius := e_radius e; e_thickness := e_thickness e;
     e_rotation := e_rotation e; e_size := v; e_rows := e_rows e;
     e_cols := e_cols e; e_rowHeight := e_rowHeight e;
     e_colWidth := e_colWidth e; e_fontSize := e_fontSize e;
     e_scale := e_scale e; e_content := e_content e; e_text := e_text e;
     e_blockName := e_blockName e |}.
Definition set_rows (v : option N) (e : Entity) : Entity :=
  {| e_id := e_id e; e_type := e_type e; e_selected := e_selected e;
     e_action := e_action e; e_start := e_start e; e_end := e_end e;
     e_center := e_center e; e_insertPoint := e_insertPoint e; e_p1 := e_p1 e;
     e_p2 := e_p2 e; e_p3 := e_p3 e; e_points := e_points e; e_x := e_x e;
     e_y := e_y e; e_width := e_width e; e_height := e_height e;
     e_radius := e_radius e; e_thickness := e_thickness e;
     e_rotation := e_rotation e; e_size := e_size e; e_rows := v;
     e_cols := e_cols e; e_rowHeight := e_rowHeight e;
     e_colWidth := e_colWidth e; e_fontSize := e_fontSize e;
     e_scale := e_scale e; e_content := e_content e; e_text := e_text e;
     e_blockName := e_blockName e |}.
Definition set_cols (v : option N) (e : Entity) : Entity :=
  {| e_id := e_id e; e_type := e_type e; e_selected := e_selected e;
     e_action := e_action e; e_start := e_start e; e_end := e_end e;
     e_center := e_center e; e_insertPoint := e_insertPoint e; e_p1 := e_p1 e;
     e_p2 := e_p2 e; e_p3 := e_p3 e; e_points := e_points e; e_x := e_x e;
     e_y := e_y e; e_width := e_width e; e_height := e_height e;
     e_radius := e_radius e; e_thickness := e_thickness e;
     e_rotation := e_rotation e; e_size := e_size e; e_rows := e_rows e;
     e_cols := v; e_rowHeight := e_rowHeight e; e_colWidth := e_colWidth e;
     e_fontSize := e_fontSize e; e_scale := e_scale e;
     e_content := e_content e; e_text := e_text e;
     e_blockName := e_blockName e |}.
Definition set_rowHeight (v : option N) (e : Entity) : Entity :=
  {| e_id := e_id e; e_type := e_type e; e_selected := e_selected e;
     e_action := e_action e; e_start := e_start e; e_end := e_end e;
     e_center := e_center e; e_insertPoint := e_insertPoint e; e_p1 := e_p1 e;
     e_p2 := e_p2 e; e_p3 := e_p3 e; e_points := e_points e; e_x := e_x e;
     e_y := e_y e; e_width := e_width e; e_height := e_height e;
     e_radius := e_radius e; e_thickness := e_thickness e;
     e_rotation := e_rotation e; e_size := e_size e; e_rows := e_rows e;
     e_cols := e_cols e; e_rowHeight := v; e_colWidth := e_colWidth e;
     e_fontSize := e_fontSize e; e_scale := e_scale e;
     e_content := e_content e; e_text := e_text e;
     e_blockName := e_blockName e |}.
Definition set_colWidth (v : option N) (e : Entity) : Entity :=
  {| e_id := e_id e; e_type := e_type e; e_selected := e_selected e;
     e_action := e_action e; e_start := e_start e; e_end := e_end e;
     e_center := e_center e; e_insertPoint := e_insertPoint e; e_p1 := e_p1 e;
     e_p2 := e_p2 e; e_p3 := e_p3 e; e_points := e_points e; e_x := e_x e;
     e_y := e_y e; e_width := e_width e; e_height := e_height e;
     e_radius := e_radius e; e_thickness := e_thickness e;
     e_rotation := e_rotation e; e_size := e_size e; e_rows := e_rows e;
     e_cols := e_cols e; e_rowHeight := e_rowHeight e; e_colWidth := v;
     e_fontSize := e_fontSize e; e_scale := e_scale e;
     e_content := e_content e; e_text := e_text e;
     e_blockName := e_blockName e |}.
Definition set_fontSize (v : option N) (e : Entity) : Entity :=
  {| e_id := e_id e; e_type := e_type e; e_selected := e_selected e;
     e_action := e_action e; e_start := e_start e; e_end := e_end e;
     e_center := e_center e; e_insertPoint := e_insertPoint e; e_p1 := e_p1 e;
     e_p2 := e_p2 e; e_p3 := e_p3 e; e_points := e_points e; e_x := e_x e;
     e_y := e_y e; e_width := e_width e; e_height := e_height e;
     e_radius := e_radius e; e_thickness := e_thickness e;
     e_rotation := e_rotation e; e_size := e_size e; e_rows := e_rows e;
     e_cols := e_cols e; e_rowHeight := e_rowHeight e;
     e_colWidth := e_colWidth e; e_fontSize := v; e_scale := e_scale e;
     e_content := e_content e; e_text := e_text e;
     e_blockName := e_blockName e |}.
Definition set_scale (v : option N) (e : Entity) : Entity :=
  {| e_id := e_id e; e_type := e_type e; e_selected := e_selected e;
     e_action := e_action e; e_start := e_start e; e_end := e_end e;
     e_center := e_center e; e_insertPoint := e_insertPoint e; e_p1 := e_p1 e;
     e_p2 := e_p2 e; e_p3 := e_p3 e; e_points := e_points e; e_x := e_x e;
     e_y := e_y e; e_width := e_width e; e_height := e_height e;
     e_radius := e_radius e; e_thickness := e_thickness e;
     e_rotation := e_rotation e; e_size := e_size e; e_rows := e_rows e;
     e_cols := e_cols e; e_rowHeight := e_rowHeight e;
     e_colWidth := e_colWidth e; e_fontSize := e_fontSize e; e_scale := v;
     e_content := e_content e; e_text := e_text e;
     e_blockName := e_blockName e |}.
Definition set_content (v : option string) (e : Entity) : Entity :=
  {| e_id := e_id e; e_type := e_type e; e_selected := e_selected e;
     e_action := e_action e; e_start := e_start e; e_end := e_end e;
     e_center := e_center e; e_insertPoint := e_insertPoint e; e_p1 := e_p1 e;
     e_p2 := e_p2 e; e_p3 := e_p3 e; e_points := e_points e; e_x := e_x e;
     e_y := e_y e; e_width := e_width e; e_height := e_height e;
     e_radius := e_radius e; e_thickness := e_thickness e;
     e_rotation := e_rotation e; e_size := e_size e; e_rows := e_rows e;
     e_cols := e_cols e; e_rowHeight := e_rowHeight e;
     e_colWidth := e_colWidth e; e_fontSize := e_fontSize e;
     e_scale := e_scale e; e_content := v; e_text := e_text e;
     e_blockName := e_blockName e |}.
Definition set_text (v : option string) (e : Entity) : Entity :=
  {| e_id := e_id e; e_type := e_type e; e_selected := e_selected e;
     e_action := e_action e; e_start := e_start e; e_end := e_end e;
     e_center := e_center e; e_insertPoint := e_insertPoint e; e_p1 := e_p1 e;
     e_p2 := e_p2 e; e_p3 := e_p3 e; e_points := e_points e; e_x := e_x e;
     e_y := e_y e; e_width := e_width e; e_height := e_height e;
     e_radius := e_radius e; e_thickness := e_thickness e;
     e_rotation := e_rotation e; e_size := e_size e; e_rows := e_rows e;
     e_cols := e_cols e; e_rowHeight := e_rowHeight e;
     e_colWidth := e_colWidth e; e_fontSize := e_fontSize e;
     e_scale := e_scale e; e_content := e_content e; e_text := v;
     e_blockName := e_blockName e |}.
Definition set_blockName (v : option string) (e : Entity) : Entity :=
  {| e_id := e_id e; e_type := e_type e; e_selected := e_selected e;
     e_action := e_action e; e_start := e_start e; e_end := e_end e;
     e_center := e_center e; e_insertPoint := e_insertPoint e; e_p1 := e_p1 e;
     e_p2 := e_p2 e; e_p3 := e_p3 e; e_points := e_points e; e_x := e_x e;
     e_y := e_y e; e_width := e_width e; e_height := e_height e;
     e_radius := e_radius e; e_thickness := e_thickness e;
     e_rotation := e_rotation e; e_size := e_size e; e_rows := e_rows e;
     e_cols := e_cols e; e_rowHeight := e_rowHeight e;
     e_colWidth := e_colWidth e; e_fontSize := e_fontSize e;
     e_scale := e_scale e; e_content := e_content e; e_text := e_text e;
     e_blockName := v |}.

(** Object spread, [{...e, ...act}]: the properties of [act] win. *)
Definition over {A} (a b : option A) : option A :=
  match a with Some _ => a | None => b end.

Definition spread (e act : Entity) : Entity :=
  {| e_id := over (e_id act) (e_id e); e_type := over (e_type act) (e_type e);
     e_selected := over (e_selected act) (e_selected e);
     e_action := over (e_action act) (e_action e);
     e_start := over (e_start act) (e_start e);
     e_end := over (e_end act) (e_end e);
     e_center := over (e_center act) (e_center e);
     e_insertPoint := over (e_insertPoint act) (e_insertPoint e);
     e_p1 := over (e_p1 act) (e_p1 e); e_p2 := over (e_p2 act) (e_p2 e);
     e_p3 := over (e_p3 act) (e_p3 e);
     e_points := over (e_points act) (e_points e);
     e_x := over (e_x act) (e_x e); e_y := over (e_y act) (e_y e);
     e_width := over (e_width act) (e_width e);
     e_height := over (e_height act) (e_height e);
     e_radius := over (e_radius act) (e_radius e);
     e_thickness := over (e_thickness act) (e_thickness e);
     e_rotation := over (e_rotation act) (e_rotation e);
     e_size := over (e_size act) (e_size e);
     e_rows := over (e_rows act) (e_rows e);
     e_cols := over (e_cols act) (e_cols e);
     e_rowHeight := over (e_rowHeight act) (e_rowHeight e);
     e_colWidth := over (e_colWidth act) (e_colWidth e);
     e_fontSize := over (e_fontSize act) (e_fontSize e);
     e_scale := over (e_scale act) (e_scale e);
     e_content := over (e_content act) (e_content e);
     e_text := over (e_text act) (e_text e);
     e_blockName := over (e_blockName act) (e_blockName e) |}.

Record ViewState : Type := { v_x : N; v_y : N; v_zoom : N }.

Record BlockDefinition : Type := {
  b_name : string;
  b_entities : list Entity;
  b_basePoint : Point
}.

(** The state of the [App] component that the engine uses.  [random]
    lists the identifiers [generateId] obtains from [Math.random], and
    [drawn] counts those already taken. *)
Record AppState : Type := {
  entities : list Entity;
  blockDefs : list (string * BlockDefinition);
  activeBlockName : option string;
  view : ViewState;
  activeTool : ToolType;
  isDragging : bool;
  dragStart : option Point;
  drawingStart : option Point;
  tempPoints : list Point;
  mousePos : Point;
  random : nat -> string;
  drawn : nat
}.

Definition setEntities (v : list Entity) (s : AppState) : AppState :=
  {| entities := v; blockDefs := blockDefs s;
     activeBlockName := activeBlockName s; view := view s;
     activeTool := activeTool s; isDragging := isDragging s;
     dragStart := dragStart s; drawingStart := drawingStart s;
     tempPoints := tempPoints s; mousePos := mousePos s; random := random s;
     drawn := drawn s |}.
Definition setBlockDefs (v : list (string * BlockDefinition)) (s : AppState) : AppState :=
  {| entities := entities s; blockDefs := v;
     activeBlockName := activeBlockName s; view := view s;
     activeTool := activeTool s; isDragging := isDragging s;
     dragStart := dragStart s; drawingStart := drawingStart s;
     tempPoints := tempPoints s; mousePos := mousePos s; random := random s;
     drawn := drawn s |}.
Definition setActiveBlockName (v : option string) (s : AppState) : AppState :=
  {| entities := entities s; blockDefs := blockDefs s; activeBlockName := v;
     view := view s; activeTool := activeTool s; isDragging := isDragging s;
     dragStart := dragStart s; drawingStart := drawingStart s;
     tempPoints := tempPoints s; mousePos := mousePos s; random := random s;
     drawn := drawn s |}.
Definition setView (v : ViewState) (s : AppState) : AppState :=
  {| entities := entities s; blockDefs := blockDefs s;
     activeBlockName := activeBlockName s; view := v;
     activeTool := activeTool s; isDragging := isDragging s;
     dragStart := dragStart s; drawingStart := drawingStart s;
     tempPoints := tempPoints s; mousePos := mousePos s; random := random s;
     drawn := drawn s |}.
Definition setActiveTool (v : ToolType) (s : AppState) : AppState :=
  {| entities := entities s; blockDefs := blockDefs s;
     activeBlockName := activeBlockName s; view := view s; activeTool := v;
     isDragging := isDragging s; dragStart := dragStart s;
     drawingStart := drawingStart s; tempPoints := tempPoints s;
     mousePos := mousePos s; random := random s; drawn := drawn s |}.
Definition setIsDragging (v : bool) (s : AppState) : AppState :=
  {| entities := entities s; blockDefs := blockDefs s;
     activeBlockName := activeBlockName s; view := view s;
     activeTool := activeTool s; isDragging := v; dragStart := dragStart s;
     drawingStart := drawingStart s; tempPoints := tempPoints s;
     mousePos := mousePos s; random := random s; drawn := drawn s |}.
Definition setDragStart (v : option Point) (s : AppState) : AppState :=
  {| entities := entities s; blockDefs := blockDefs s;
     activeBlockName := activeBlockName s; view := view s;
     activeTool := activeTool s; isDragging := isDragging s; dragStart := v;
     drawingStart := drawingStart s; tempPoints := tempPoints s;
     mousePos := mousePos s; random := random s; drawn := drawn s |}.
Definition setDrawingStart (v : option Point) (s : AppState) : AppState :=
  {| entities := entities s; blockDefs := blockDefs s;
     activeBlockName := activeBlockName s; view := view s;
     activeTool := activeTool s; isDragging := isDragging s;
     dragStart := dragStart s; drawingStart := v; tempPoints := tempPoints s;
     mousePos := mousePos s; random := random s; drawn := drawn s |}.
Definition setTempPoints (v : list Point) (s : AppState) : AppState :=
  {| entities := entities s; blockDefs := blockDefs s;
     activeBlockName := activeBlockName s; view := view s;
     activeTool := activeTool s; isDragging := isDragging s;
     dragStart := dragStart s; drawingStart := drawingStart s;
     tempPoints := v; mousePos := mousePos s; random := random s;
     drawn := drawn s |}.
Definition setMousePos (v : Point) (s : AppState) : AppState :=
  {| entities := entities s; blockDefs := blockDefs s;
     activeBlockName := activeBlockName s; view := view s;
     activeTool := activeTool s; isDragging := isDragging s;
     dragStart := dragStart s; drawingStart := drawingStart s;
     tempPoints := tempPoints s; mousePos := v; random := random s;
     drawn := drawn s |}.
Definition set_drawn (v : nat) (s : AppState) : AppState :=
  {| entities := entities s; blockDefs := blockDefs s;
     activeBlockName := activeBlockName s; view := view s;
     activeTool := activeTool s; isDragging := isDragging s;
     dragStart := dragStart s; drawingStart := drawingStart s;
     tempPoints := tempPoints s; mousePos := mousePos s; random := random s;
     drawn := v |}.

(** [Math.random().toString(36).substr(2, 9)]: the next identifier. *)
Definition generateId (s : AppState) : string * AppState :=
  (random s (drawn s), set_drawn (S (drawn s)) s).

(* --------------------------------------------------------------- *)
(** *** Helper functions *)

Definition dist (p1 p2 : Point) : N :=
  Math_sqrt (sq (x p2 - x p1) + sq (y p2 - y p1)).

Definition screenToWorld (screen : Point) (view : ViewState) : Point :=
  {| x := (x screen - v_x view) / v_zoom view;
     y := (y screen - v_y view) / v_zoom view |}.

(** The commands of an SVG path, which [getArcPath] prints with a
    template string; the empty list stands for the empty string. *)
Inductive PathCmd : Type :=
| MoveTo (px py : N)
| LineTo (px py : N)
| ArcTo (rx ry xrot large sweep px py : N).

Definition path_numbers (c : PathCmd) : list N :=
  match c with
  | MoveTo a b | LineTo a b => [a; b]
  | ArcTo a b c d e f g => [a; b; c; d; e; f; g]
  end.

(** The determinant [D] that [getArcPath] and the CENTERMARK tool
    both compute from the three defining points. *)
Definition arcD (p1 p2 p3 : Point) : N :=
  let x1 := x p1 in let y1 := y p1 in
  let x2 := x p2 in let y2 := y p2 in
  let x3 := x p3 in let y3 := y p3 in
  #2 * (x1 * (y2 - y3) + x2 * (y3 - y1) + x3 * (y1 - y2)).

Definition getArcPath (p1 p2 p3 : option Point) : list PathCmd :=
  match p1, p2, p3 with
  | Some p1, Some p2, Some p3 =>
      let x1 := x p1 in let y1 := y p1 in
      let x2 := x p2 in let y2 := y p2 in
      let x3 := x p3 in let y3 := y p3 in
      let D := arcD p1 p2 p3 in
      if Math_abs D < decimal 1 3 then [MoveTo x1 y1; LineTo x3 y3]
      else
        let Ux := ((x1 * x1 + y1 * y1) * (y2 - y3)
                   + (x2 * x2 + y2 * y2) * (y3 - y1)
                   + (x3 * x3 + y3 * y3) * (y1 - y2)) / D in
        let Uy := ((x1 * x1 + y1 * y1) * (x3 - x2)
                   + (x2 * x2 + y2 * y2) * (x1 - x3)
                   + (x3 * x3 + y3 * y3) * (x2 - x1)) / D in
        let radius := Math_sqrt (sq (x1 - Ux) + sq (y1 - Uy)) in
        let cp := (x2 - x1) * (y3 - y1) - (y2 - y1) * (x3 - x1) in
        let sweep := if cp > #0 then #0 else #1 in
        [MoveTo x1 y1; ArcTo radius radius #0 #0 sweep x3 y3]
  | _, _, _ => []
  end.

(* --------------------------------------------------------------- *)
(** *** JavaScript helpers *)

(** [JSON.parse(JSON.stringify(e))].  A number survives the round
    trip unless it is [-0], which comes back as [0], or is not finite,
    which comes back as [null]; [null] is not a value of the model, so
    the clone of an entity is its model only when its numbers are
    finite. *)
Definition jsonNumber (v : N) : N := if is_neg_zero v then #0 else v.
Definition jsonPoint (p : Point) : Point :=
  {| x := jsonNumber (x p); y := jsonNumber (y p) |}.
Definition jsonClone (e : Entity) : Entity :=
  {| e_id := e_id e; e_type := e_type e; e_selected := e_selected e;
     e_action := e_action e; e_start := option_map jsonPoint (e_start e);
     e_end := option_map jsonPoint (e_end e);
     e_center := option_map jsonPoint (e_center e);
     e_insertPoint := option_map jsonPoint (e_insertPoint e);
     e_p1 := option_map jsonPoint (e_p1 e);
     e_p2 := option_map jsonPoint (e_p2 e);
     e_p3 := option_map jsonPoint (e_p3 e);
     e_points := option_map (map jsonPoint) (e_points e);
     e_x := option_map jsonNumber (e_x e);
     e_y := option_map jsonNumber (e_y e);
     e_width := option_map jsonNumber (e_width e);
     e_height := option_map jsonNumber (e_height e);
     e_radius := option_map jsonNumber (e_radius e);
     e_thickness := option_map jsonNumber (e_thickness e);
     e_rotation := option_map jsonNumber (e_rotation e);
     e_size := option_map jsonNumber (e_size e);
     e_rows := option_map jsonNumber (e_rows e);
     e_cols := option_map jsonNumber (e_cols e);
     e_rowHeight := option_map jsonNumber (e_rowHeight e);
     e_colWidth := option_map jsonNumber (e_colWidth e);
     e_fontSize := option_map jsonNumber (e_fontSize e);
     e_scale := option_map jsonNumber (e_scale e); e_content := e_content e;
     e_text := e_text e; e_blockName := e_blockName e |}.

(** [e.selected] as a condition. *)
Definition is_selected (e : Entity) : bool :=
  match e_selected e with Some true => true | _ => false end.

(** [a === b] on possibly [undefined] strings. *)
Definition same (a b : option string) : bool :=
  match a, b with
  | Some u, Some v => String.eqb u v
  | None, None => true
  | _, _ => false
  end.

(** [e.type === t]. *)
Definition is_a (e : Entity) (t : string) : bool := same (e_type e) (Some t).

(** [a || b] on numbers, [a] possibly [undefined]. *)
Definition or_else (a : option N) (b : N) : N :=
  match a with
  | Some v => if truthy v then v else b
  | None => b
  end.

(** [!o] on an object and on a number, possibly [undefined]. *)
Definition absent {A} (o : option A) : bool :=
  match o with Some _ => false | None => true end.
Definition falsy (o : option N) : bool :=
  match o with Some v => negb (truthy v) | None => true end.

(** A string as a condition: [null] and the empty string are falsy. *)
Definition nonempty (o : option string) : option string :=
  match o with
  | Some EmptyString | None => None
  | Some t => Some t
  end.

(** [Array.prototype.find] with a predicate that may throw. *)
Fixpoint find_throwing (f : Entity -> option bool) (l : list Entity)
  : option (option Entity) :=
  match l with
  | [] => Some None
  | e :: l' =>
      match f e with
      | None => None
      | Some true => Some (Some e)
      | Some false => find_throwing f l'
      end
  end.

(** [Array.prototype.map] with a function that may throw. *)
Fixpoint map_throwing {A B} (f : A -> option B) (l : list A)
  : option (list B) :=
  match l with
  | [] => Some []
  | a :: l' =>
      match f a with
      | None => None
      | Some b => option_map (cons b) (map_throwing f l')
      end
  end.

(** The same, for a function that also draws identifiers. *)
Fixpoint map_drawing {A B} (f : A -> string -> option B) (l : list A)
  (s : AppState) : option (list B * AppState) :=
  match l with
  | [] => Some ([], s)
  | a :: l' =>
      let (i, s) := generateId s in
      match f a i with
      | None => None
      | Some b =>
          match map_drawing f l' s with
          | None => None
          | Some (bs, s) => Some (b :: bs, s)
          end
      end
  end.

(* --------------------------------------------------------------- *)
(** *** Bounding boxes *)

Record Bounds : Type := { minX : N; maxX : N; minY : N; maxY : N }.

Definition no_bounds : Bounds :=
  {| minX := Infinity; maxX := - Infinity;
     minY := Infinity; maxY := - Infinity |}.

(** The closure [check(x, y)] that every bounding-box loop declares. *)
Definition check (px py : N) (b : Bounds) : Bounds :=
  {| minX := if px < minX b then px else minX b;
     maxX := if px > maxX b then px else maxX b;
     minY := if py < minY b then py else minY b;
     maxY := if py > maxY b then py else maxY b |}.

Definition check_points (ps : list Point) (b : Bounds) : Bounds :=
  fold_left (fun b p => check (x p) (y p) b) ps b.

(** The callback of the loop of [createBlock]: start, center, points,
    then [x]/[y]. *)
Definition blockCheck (b : Bounds) (e : Entity) : Bounds :=
  let b := match e_start e with
           | Some p => check (x p) (y p) b
           | None => b
           end in
  let b := match e_center e with
           | Some p => check (x p) (y p) b
           | None => b
           end in
  let b := match e_points e with
           | Some ps => check_points ps b
           | None => b
           end in
  match e_x e with
  | Some ex => check ex (toNumber (e_y e)) b
  | None => b
  end.

Definition blockBounds (selected : list Entity) : Bounds :=
  fold_left blockCheck selected no_bounds.

(** The callback of the loop that [zoomExtents] and [rotateSelected]
    both have: start and end (the start again when there is no end),
    center, [x]/[y], then points. *)
Definition extentCheck (b : Bounds) (e : Entity) : Bounds :=
  let b := match e_start e with
           | Some p =>
               let q := match e_end e with Some q => q | None => p end in
               b |> check (x p) (y p) |> check (x q) (y q)
           | None => b
           end in
  let b := match e_center e with
           | Some p => check (x p) (y p) b
           | None => b
           end in
  let b := match e_x e with
           | Some ex => check ex (toNumber (e_y e)) b
           | None => b
           end in
  match e_points e with
  | Some ps => check_points ps b
  | None => b
  end.

Definition extentBounds (es : list Entity) : Bounds :=
  fold_left extentCheck es no_bounds.

(* --------------------------------------------------------------- *)
(** *** Block authoring *)

(** [blockDefs] is a plain object used as a map from names. *)
Fixpoint own_property (defs : list (string * BlockDefinition)) (name : string)
  : option BlockDefinition :=
  match defs with
  | [] => None
  | (k, d) :: defs' =>
      if String.eqb k name then Some d else own_property defs' name
  end.

(** The properties a plain object inherits from [Object.prototype]:
    reading one of them from [blockDefs] yields a truthy value. *)
Definition Object_prototype : list string :=
  ["constructor"; "hasOwnProperty"; "isPrototypeOf";
   "propertyIsEnumerable"; "toLocaleString"; "toString"; "valueOf";
   "__defineGetter__"; "__defineSetter__"; "__lookupGetter__";
   "__lookupSetter__"; "__proto__"]%string.

(** [blockDefs[name]] as a condition. *)
Definition has_block (defs : list (string * BlockDefinition)) (name : string)
  : bool :=
  match own_property defs name with
  | Some _ => true
  | None => existsb (String.eqb name) Object_prototype
  end.

(** [{ ...prev, [name]: d }]. *)
Fixpoint put_block (name : string) (d : BlockDefinition)
  (defs : list (string * BlockDefinition)) : list (string * BlockDefinition) :=
  match defs with
  | [] => [(name, d)]
  | (k, d') :: defs' =>
      if String.eqb k name then (k, d) :: defs'
      else (k, d') :: put_block name d defs'
  end.

Definition shift (v base : N) : N := v - base.

Definition shiftPoint (base p : Point) : Point :=
  {| x := shift (x p) (x base); y := shift (y p) (y base) |}.

(** The body of [selected.map] in [createBlock]; [None] when [p2] or
    [p3] is read from an entity that has [p1] but lacks them. *)
Definition normalizeEntity (basePoint : Point) (ent : Entity)
  : option Entity :=
  let clone := jsonClone ent |> set_id None |> set_selected None in
  let clone := match e_start clone with
               | Some p => set_start (Some (shiftPoint basePoint p)) clone
               | None => clone
               end in
  let clone := match e_end clone with
               | Some p => set_end (Some (shiftPoint basePoint p)) clone
               | None => clone
               end in
  let clone := match e_center clone with
               | Some p => set_center (Some (shiftPoint basePoint p)) clone
               | None => clone
               end in
  let clone := match e_points clone with
               | Some ps =>
                   set_points (Some (map (shiftPoint basePoint) ps)) clone
               | None => clone
               end in
  let clone := match e_x clone with
               | Some cx =>
                   clone
                   |> set_x (Some (shift cx (x basePoint)))
                   |> set_y (Some (shift (toNumber (e_y clone)) (y basePoint)))
               | None => clone
               end in
  match e_p1 clone with
  | Some q1 =>
      match e_p2 clone, e_p3 clone with
      | Some q2, Some q3 =>
          Some (clone
                |> set_p1 (Some (shiftPoint basePoint q1))
                |> set_p2 (Some (shiftPoint basePoint q2))
                |> set_p3 (Some (shiftPoint basePoint q3)))
      | _, _ => None
      end
  | None => Some clone
  end.

(** [createBlock], given the answer to its [prompt] ([None] when the
    dialog is cancelled).  The result is the next state and the
    message of the [alert], if one is shown. *)
Definition createBlock (answer : option string) (s : AppState)
  : option (AppState * option string) :=
  let selected := filter is_selected (entities s) in
  if (List.length selected =? 0)%nat
  then Some (s, Some "Select objects to create a block."%string)
  else
    match nonempty answer with
    | None => Some (s, None)
    | Some name =>
        if has_block (blockDefs s) name
        then Some (s, Some "Block name already exists."%string)
        else
          let b := blockBounds selected in
          let basePoint := {| x := (minX b + maxX b) / #2;
                              y := (minY b + maxY b) / #2 |} in
          let basePoint := if negb (isFinite (x basePoint))
                           then {| x := #0; y := #0 |}
                           else basePoint in
          match map_throwing (normalizeEntity basePoint) selected with
          | None => None
          | Some normalizedEntities =>
              let s :=
                setBlockDefs
                  (put_block name
                     {| b_name := name;
                        b_entities := normalizedEntities;
                        b_basePoint := basePoint |}
                     (blockDefs s)) s in
              let (i, s) := generateId s in
              let newInstance :=
                no_entity
                |> set_id (Some i)
                |> set_type (Some "insert"%string)
                |> set_blockName (Some name)
                |> set_insertPoint (Some basePoint)
                |> set_scale (Some #1)
                |> set_rotation (Some #0)
                |> set_selected (Some true) in
              Some (setEntities
                      (filter (fun e => negb (is_selected e)) (entities s)
                       ++ [newInstance]) s,
                    None)
          end
    end.

(* --------------------------------------------------------------- *)
(** *** View *)

(** The part of [getBoundingClientRect()] that the engine reads. *)
Record DOMRect : Type := { left : N; top : N; r_width : N; r_height : N }.

Definition zoomExtents (rect : DOMRect) (s : AppState) : AppState :=
  if (List.length (entities s) =? 0)%nat
  then setView {| v_x := #0; v_y := #0; v_zoom := #1 |} s
  else
    let b := extentBounds (entities s) in
    if negb (isFinite (minX b)) then s
    else
      let padding := #50 in
      let w := maxX b - minX b in
      let h := maxY b - minY b in
      let scaleX := (r_width rect - padding * #2) / w in
      let scaleY := (r_height rect - padding * #2) / h in
      let zoom := Math_min [scaleX; scaleY; #5] in
      let cx := (minX b + maxX b) / #2 in
      let cy := (minY b + maxY b) / #2 in
      setView {| v_x := r_width rect / #2 - cx * zoom;
                 v_y := r_height rect / #2 - cy * zoom;
                 v_zoom := zoom |} s.

(* --------------------------------------------------------------- *)
(** *** The action batch of the command interpreter *)

(** [String.prototype.toLowerCase], on the ASCII letters. *)
Definition lower_ascii (c : ascii) : ascii :=
  let n := nat_of_ascii c in
  if ((65 <=? n) && (n <=? 90))%nat then ascii_of_nat (n + 32) else c.

Fixpoint toLowerCase (t : string) : string :=
  match t with
  | EmptyString => EmptyString
  | String c t' => String (lower_ascii c) (toLowerCase t')
  end.

(** One turn of [responseData.actions.forEach] in [callAI].  An
    action is an object like an entity, with an [action] property. *)
Definition applyAction (s : AppState) (act : Entity) : AppState :=
  let action := option_map toLowerCase (e_action act) in
  let type := option_map toLowerCase (e_type act) in
  if same action (Some "clear"%string) then setEntities [] s
  else if same action (Some "create"%string) then
    let (i, s) := generateId s in
    let newEntity := spread no_entity act
                     |> set_id (Some i) |> set_type type
                     |> set_action None in
    if same type (Some "wall"%string)
       && (absent (e_start newEntity) || absent (e_end newEntity))
    then s
    else if same type (Some "rect"%string)
            && (absent (e_start newEntity) || falsy (e_width newEntity))
    then s
    else if same type (Some "circle"%string)
            && (absent (e_center newEntity) || falsy (e_radius newEntity))
    then s
    else setEntities (entities s ++ [newEntity]) s
  else if same action (Some "delete"%string) then
    setEntities
      (filter (fun e => negb (same (e_id e) (e_id act))) (entities s)) s
  else if same action (Some "update"%string) then
    setEntities
      (map (fun e => if same (e_id e) (e_id act)
                     then spread e act |> set_action None
                     else e)
         (entities s)) s
  else s.

(** The updater that [callAI] passes to [setEntities]. *)
Definition applyActions (actions : list Entity) (s : AppState) : AppState :=
  fold_left applyAction actions s.

(* --------------------------------------------------------------- *)
(** *** Strings read as numbers *)

(** [String.prototype.split] on a one-character separator. *)
Fixpoint split (sep : ascii) (t : string) : list string :=
  match t with
  | EmptyString => [EmptyString]
  | String c t' =>
      if Ascii.eqb c sep then EmptyString :: split sep t'
      else match split sep t' with
           | w :: ws => String c w :: ws
           | [] => [String c EmptyString]
           end
  end.

Definition is_space (c : ascii) : bool :=
  let n := nat_of_ascii c in
  ((9 <=? n) && (n <=? 13) || (n =? 32))%nat.

Fixpoint trimStart (t : string) : string :=
  match t with
  | String c t' => if is_space c then trimStart t' else t
  | EmptyString => t
  end.

Definition digit_value (c : ascii) : option Z :=
  let n := nat_of_ascii c in
  if ((48 <=? n) && (n <=? 57))%nat then Some (Z.of_nat (n - 48))
  else if ((97 <=? n) && (n <=? 122))%nat then Some (Z.of_nat (n - 87))
  else if ((65 <=? n) && (n <=? 90))%nat then Some (Z.of_nat (n - 55))
  else None.

(** The value of the longest prefix of digits, if there is a digit. *)
Fixpoint digits (radix : Z) (t : string) (acc : option Z) : option Z :=
  match t with
  | EmptyString => acc
  | String c t' =>
      match digit_value c with
      | Some d =>
          if (d <? radix)%Z
          then digits radix t'
                 (Some (match acc with
                        | Some a => a * radix + d
                        | None => d
                        end)%Z)
          else acc
      | None => acc
      end
  end.

(** [parseInt(t)] with no radix: leading ASCII white space, a sign,
    a [0x] prefix for base 16, then digits; [NaN] without a digit. *)
Definition parseInt (t : string) : N :=
  let t := trimStart t in
  let (negative, t) :=
    match t with
    | String "-" t' => (true, t')
    | String "+" t' => (false, t')
    | _ => (false, t)
    end in
  let (radix, t) :=
    match t with
    | String "0" (String "x" t') | String "0" (String "X" t') => (16%Z, t')
    | _ => (10%Z, t)
    end in
  match digits radix t None with
  | Some v => if negative then - #v else #v
  | None => NaN
  end.

(* --------------------------------------------------------------- *)
(** *** Pointer events *)

Record MouseEvent : Type := {
  clientX : N;
  clientY : N;
  button : Z;
  ctrlKey : bool
}.

(** The world position [worldPos] of a pointer event. *)
Definition pointer (e : MouseEvent) (rect : DOMRect) (view : ViewState)
  : Point :=
  let mx := clientX e - left rect in
  let my := clientY e - top rect in
  screenToWorld {| x := mx; y := my |} view.

(** The predicate of [entities.find] under the SELECT tool; [None]
    when it reads a coordinate of a point that is [undefined]. *)
Definition hitTest (worldPos : Point) (ent : Entity) : option bool :=
  if is_a ent "wall" || is_a ent "dimension" || is_a ent "leader" then
    match e_start ent, e_end ent with
    | Some s, Some en =>
        let l2 := sq (x en - x s) + sq (y en - y s) in
        if l2 === #0 then Some (dist worldPos s < #10)
        else
          let t := ((x worldPos - x s) * (x en - x s)
                    + (y worldPos - y s) * (y en - y s)) / l2 in
          let t := Math_max [#0; Math_min [#1; t]] in
          let proj := {| x := x s + t * (x en - x s);
                         y := y s + t * (y en - y s) |} in
          Some (dist worldPos proj < #8)
    | _, _ => Some false
    end
  else if is_a ent "rect" || is_a ent "image" || is_a ent "table" then
    let w := or_else (e_width ent)
               (toNumber (e_colWidth ent) * toNumber (e_cols ent)) in
    let h := or_else (e_height ent)
               (toNumber (e_rowHeight ent) * toNumber (e_rows ent)) in
    let ox := match e_x ent with
              | Some v => Some v
              | None => option_map x (e_start ent)
              end in
    let oy := match e_y ent with
              | Some v => Some v
              | None => option_map y (e_start ent)
              end in
    match ox, oy with
    | Some ox, Some oy =>
        Some ((x worldPos >= ox) && (x worldPos <= ox + w)
              && (y worldPos >= oy) && (y worldPos <= oy + h))
    | _, _ => Some false
    end
  else if is_a ent "circle" || is_a ent "centermark" then
    let r := or_else (e_radius ent) (toNumber (e_size ent)) in
    match e_center ent with
    | Some c =>
        Some ((Math_abs (dist worldPos c - r) < #5)
              || (is_a ent "centermark" && (dist worldPos c < #10)))
    | None => Some false
    end
  else if is_a ent "text" then
    Some ((Math_abs (x worldPos - toNumber (e_x ent)) < #20)
          && (Math_abs (y worldPos - toNumber (e_y ent)) < #10))
  else if is_a ent "polyline" then
    match e_points ent with
    | None | Some [] => Some false
    | Some pts =>
        let minX := Math_min (map x pts) in
        let maxX := Math_max (map x pts) in
        let minY := Math_min (map y pts) in
        let maxY := Math_max (map y pts) in
        Some ((x worldPos >= minX) && (x worldPos <= maxX)
              && (y worldPos >= minY) && (y worldPos <= maxY))
    end
  else if is_a ent "arc" then
    match e_p1 ent with
    | None => None
    | Some a1 =>
        if dist worldPos a1 < #10 then Some true
        else match e_p2 ent with
             | None => None
             | Some a2 =>
                 if dist worldPos a2 < #10 then Some true
                 else match e_p3 ent with
                      | None => None
                      | Some a3 => Some (dist worldPos a3 < #10)
                      end
             end
    end
  else if is_a ent "insert" then
    match e_insertPoint ent with
    | None => None
    | Some ip => Some (dist worldPos ip < #15)
    end
  else Some false.

(** The center and size of the mark that the CENTERMARK tool derives
    from the entity it found; [None] when it reads a coordinate of a
    defining point that is [undefined]. *)
Definition centerOf (hit : Entity) : option (option Point * N) :=
  if is_a hit "circle"
  then Some (e_center hit, toNumber (e_radius hit) * decimal 12 1)
  else if is_a hit "arc" then
    match e_p1 hit, e_p2 hit, e_p3 hit with
    | Some a1, Some a2, Some a3 =>
        let x1 := x a1 in let y1 := y a1 in
        let x2 := x a2 in let y2 := y a2 in
        let x3 := x a3 in let y3 := y a3 in
        let D := arcD a1 a2 a3 in
        if Math_abs D > decimal 1 3 then
          let Ux := ((x1 * x1 + y1 * y1) * (y2 - y3)
                     + (x2 * x2 + y2 * y2) * (y3 - y1)
                     + (x3 * x3 + y3 * y3) * (y1 - y2)) / D in
          let Uy := ((x1 * x1 + y1 * y1) * (x3 - x2)
                     + (x2 * x2 + y2 * y2) * (x1 - x3)
                     + (x3 * x3 + y3 * y3) * (x2 - x1)) / D in
          Some (Some {| x := Ux; y := Uy |},
                Math_sqrt (sq (x1 - Ux) + sq (y1 - Uy)) * decimal 12 1)
        else Some (None, #20)
    | _, _, _ => None
    end
  else Some (None, #20).

(** [handleMouseDown], given the canvas rectangle and the answer to
    the [prompt] that the TABLE and TEXT tools show. *)
Definition handleMouseDown (e : MouseEvent) (rect : DOMRect)
  (answer : option string) (s : AppState) : option AppState :=
  let mx := clientX e - left rect in
  let my := clientY e - top rect in
  let worldPos := pointer e rect (view s) in
  if (button e =? 1)%Z || ToolType_eqb (activeTool s) SELECT then
    let s := s |> setIsDragging true
               |> setDragStart (Some {| x := mx; y := my |}) in
    if ToolType_eqb (activeTool s) SELECT then
      match find_throwing (hitTest worldPos) (entities s) with
      | None => None
      | Some hit =>
          if ctrlKey e then
            match hit with
            | Some h =>
                Some (setEntities
                        (map (fun en =>
                                if same (e_id en) (e_id h)
                                then set_selected
                                       (Some (negb (is_selected en))) en
                                else en)
                           (entities s)) s)
            | None => Some s
            end
          else
            Some (setEntities
                    (map (fun en =>
                            set_selected
                              (Some match hit with
                                    | Some h => same (e_id en) (e_id h)
                                    | None => false
                                    end) en)
                       (entities s)) s)
      end
    else Some s
  else
    match activeTool s with
    | POLYLINE => Some (setTempPoints (tempPoints s ++ [worldPos]) s)
    | ARC =>
        let nextPoints := tempPoints s ++ [worldPos] in
        if (List.length nextPoints =? 2)%nat then
          let (i, s) := generateId s in
          let newArc :=
            no_entity
            |> set_id (Some i) |> set_type (Some "arc"%string)
            |> set_p1 (nth_error nextPoints 0)
            |> set_p2 (nth_error nextPoints 1)
            |> set_p3 (Some worldPos) in
          Some (s |> setEntities (entities s ++ [newArc])
                  |> setTempPoints [])
        else Some (setTempPoints nextPoints s)
    | INSERT_BLOCK =>
        match nonempty (activeBlockName s) with
        | Some name =>
            let (i, s) := generateId s in
            let newInsert :=
              no_entity
              |> set_id (Some i) |> set_type (Some "insert"%string)
              |> set_blockName (Some name)
              |> set_insertPoint (Some worldPos)
              |> set_scale (Some #1) |> set_rotation (Some #0) in
            Some (setEntities (entities s ++ [newInsert]) s)
        | None => Some s
        end
    | CENTERMARK =>
        match find (fun ent => (is_a ent "circle" || is_a ent "arc")
                               && negb (is_selected ent)) (entities s) with
        | Some hit =>
            match centerOf hit with
            | None => None
            | Some (Some center, size) =>
                let (i, s) := generateId s in
                Some (setEntities
                        (entities s
                         ++ [no_entity
                             |> set_id (Some i)
                             |> set_type (Some "centermark"%string)
                             |> set_center (Some center)
                             |> set_size (Some size)]) s)
            | Some (None, _) => Some s
            end
        | None => Some s
        end
    | TABLE =>
        match nonempty answer with
        | Some spec =>
            let parsed := map parseInt (split "," spec) in
            let r := nth_error parsed 0 in
            let c := nth_error parsed 1 in
            if negb (falsy r) && negb (falsy c) then
              let (i, s) := generateId s in
              Some (s |> setEntities
                           (entities s
                            ++ [no_entity
                                |> set_id (Some i)
                                |> set_type (Some "table"%string)
                                |> set_x (Some (x worldPos))
                                |> set_y (Some (y worldPos))
                                |> set_rows r |> set_cols c
                                |> set_rowHeight (Some #20)
                                |> set_colWidth (Some #60)])
                      |> setActiveTool SELECT)
            else Some s
        | None => Some s
        end
    | tool =>
        let s := setDrawingStart (Some worldPos) s in
        match tool with
        | TEXT =>
            match nonempty answer with
            | Some content =>
                let (i, s) := generateId s in
                let newText :=
                  no_entity
                  |> set_id (Some i) |> set_type (Some "text"%string)
                  |> set_x (Some (x worldPos)) |> set_y (Some (y worldPos))
                  |> set_content (Some content)
                  |> set_fontSize (Some #12) in
                Some (s |> setEntities (entities s ++ [newText])
                        |> setActiveTool SELECT
                        |> setDrawingStart None)
            | None => Some s
            end
        | DOOR =>
            let (i, s) := generateId s in
            let newDoor :=
              no_entity
              |> set_id (Some i) |> set_type (Some "door"%string)
              |> set_x (Some (x worldPos)) |> set_y (Some (y worldPos))
              |> set_width (Some #40) |> set_rotation (Some #0) in
            Some (s |> setEntities (entities s ++ [newDoor])
                    |> setDrawingStart None)
        | _ => Some s
        end
    end.

(** [handleMouseUp], given the answer to the [prompt] of the LEADER
    tool.  The wall's [end] is the very object held in [mousePos], so
    the orthogonal snap also rewrites [mousePos].  (Points are copied
    by value here: a later snap cannot reach the [end] of a wall that
    was committed earlier, which the source allows when the pointer
    has not moved in between.) *)
Definition handleMouseUp (answer : option string) (s : AppState) : AppState :=
  let s :=
    match activeTool s, drawingStart s with
    | (SELECT | TEXT | DOOR | POLYLINE | ARC | INSERT_BLOCK | TABLE
      | CENTERMARK), _ => s
    | _, None => s
    | tool, Some drawingStart =>
        let mousePos := mousePos s in
        let s :=
          match tool with
          | WALL =>
              let (i, s) := generateId s in
              let start := drawingStart in
              let end_ := mousePos in
              let end_ := if Math_abs (x start - x end_) < #10
                          then {| x := x start; y := y end_ |}
                          else end_ in
              let end_ := if Math_abs (y start - y end_) < #10
                          then {| x := x end_; y := y start |}
                          else end_ in
              let newWall :=
                no_entity
                |> set_id (Some i) |> set_type (Some "wall"%string)
                |> set_start (Some start) |> set_end (Some end_)
                |> set_thickness (Some #5) in
              let s := setMousePos end_ s in
              if dist start end_ > #5
              then setEntities (entities s ++ [newWall]) s
              else s
          | RECT =>
              let w := x mousePos - x drawingStart in
              let h := y mousePos - y drawingStart in
              if (Math_abs w > #5) && (Math_abs h > #5) then
                let (i, s) := generateId s in
                let newRect :=
                  no_entity
                  |> set_id (Some i) |> set_type (Some "rect"%string)
                  |> set_start
                       (Some {| x := Math_min [x drawingStart; x mousePos];
                                y := Math_min [y drawingStart; y mousePos] |})
                  |> set_width (Some (Math_abs w))
                  |> set_height (Some (Math_abs h)) in
                setEntities (entities s ++ [newRect]) s
              else s
          | CIRCLE =>
              let r := dist drawingStart mousePos in
              if r > #5 then
                let (i, s) := generateId s in
                let newCirc :=
                  no_entity
                  |> set_id (Some i) |> set_type (Some "circle"%string)
                  |> set_center (Some drawingStart)
                  |> set_radius (Some r) in
                setEntities (entities s ++ [newCirc]) s
              else s
          | DIMENSION =>
              let (i, s) := generateId s in
              let newDim :=
                no_entity
                |> set_id (Some i) |> set_type (Some "dimension"%string)
                |> set_start (Some drawingStart)
                |> set_end (Some mousePos) in
              setEntities (entities s ++ [newDim]) s
          | LEADER =>
              match nonempty answer with
              | Some text =>
                  let (i, s) := generateId s in
                  let newLeader :=
                    no_entity
                    |> set_id (Some i) |> set_type (Some "leader"%string)
                    |> set_start (Some drawingStart)
                    |> set_end (Some mousePos)
                    |> set_text (Some text) in
                  setEntities (entities s ++ [newLeader]) s
              | None => s
              end
          | _ => s
          end in
        setDrawingStart None s
    end in
  s |> setIsDragging false |> setDragStart None.

(* --------------------------------------------------------------- *)
(** *** Transform operations *)

(** The closure [check(x)] of [mirrorSelected], on [(minX, maxX)]. *)
Definition checkX (px : N) (b : N * N) : N * N :=
  (if px < fst b then px else fst b, if px > snd b then px else snd b).

(** The callback of the loop of [mirrorSelected]: the [x] of start,
    end and center, the property [x], then the points. *)
Definition mirrorCheck (b : N * N) (e : Entity) : N * N :=
  let b := match e_start e with Some p => checkX (x p) b | None => b end in
  let b := match e_end e with Some p => checkX (x p) b | None => b end in
  let b := match e_center e with Some p => checkX (x p) b | None => b end in
  let b := match e_x e with Some ex => checkX ex b | None => b end in
  match e_points e with
  | Some ps => fold_left (fun b p => checkX (x p) b) ps b
  | None => b
  end.

Definition mirrorBounds (selected : list Entity) : N * N :=
  fold_left mirrorCheck selected (Infinity, - Infinity).

Definition mirrorPoint (axisX : N) (p : Point) : Point :=
  {| x := axisX - (x p - axisX); y := y p |}.

(** The body of [selected.map] in [mirrorSelected], with the
    identifier it draws; [None] when a point that the entity's type
    requires is [undefined]. *)
Definition mirrorCopy (axisX : N) (e : Entity) (i : string) : option Entity :=
  let copy := jsonClone e |> set_id (Some i) |> set_selected (Some true) in
  if is_a copy "wall" || is_a copy "dimension" || is_a copy "leader" then
    match e_start copy, e_end copy with
    | Some p, Some q =>
        Some (copy |> set_start (Some (mirrorPoint axisX p))
                   |> set_end (Some (mirrorPoint axisX q)))
    | _, _ => None
    end
  else if is_a copy "rect" then
    match e_start copy with
    | Some p0 =>
        let p := mirrorPoint axisX p0 in
        Some (set_start
                (Some {| x := x p - toNumber (e_width copy); y := y p0 |})
                copy)
    | None => None
    end
  else if is_a copy "circle" || is_a copy "centermark" then
    match e_center copy with
    | Some c => Some (set_center (Some (mirrorPoint axisX c)) copy)
    | None => None
    end
  else if is_a copy "text" || is_a copy "image" || is_a copy "table" then
    let p := mirrorPoint axisX {| x := toNumber (e_x copy);
                                  y := toNumber (e_y copy) |} in
    Some (set_x (Some (x p)) copy)
  else if is_a copy "polyline" then
    match e_points copy with
    | Some ps => Some (set_points (Some (map (mirrorPoint axisX) ps)) copy)
    | None => None
    end
  else Some copy.

Definition mirrorSelected (s : AppState) : option AppState :=
  let prev := entities s in
  let selected := filter is_selected prev in
  if (List.length selected =? 0)%nat then Some s
  else
    let (minX, maxX) := mirrorBounds selected in
    if negb (isFinite minX) then Some s
    else
      let axisX := (minX + maxX) / #2 in
      match map_drawing (mirrorCopy axisX) selected s with
      | None => None
      | Some (copies, s) =>
          Some (setEntities
                  (map (fun e => if is_selected e
                                 then set_selected (Some false) e
                                 else e) prev
                   ++ copies) s)
      end.

Definition rotatePoint (cx cy : N) (p : Point) : Point :=
  let dx := x p - cx in
  let dy := y p - cy in
  {| x := cx + (dx * cos_quarter - dy * sin_quarter);
     y := cy + (dx * sin_quarter + dy * cos_quarter) |}.

(** The body of [prev.map] in [rotateSelected]. *)
Definition rotateEntity (cx cy : N) (e : Entity) : option Entity :=
  if negb (is_selected e) then Some e
  else
    let copy := jsonClone e in
    if is_a copy "wall" || is_a copy "dimension" || is_a copy "leader" then
      match e_start copy, e_end copy with
      | Some p, Some q =>
          Some (copy |> set_start (Some (rotatePoint cx cy p))
                     |> set_end (Some (rotatePoint cx cy q)))
      | _, _ => None
      end
    else if is_a copy "rect" then
      match e_start copy with
      | Some p0 =>
          let width := toNumber (e_width copy) in
          let height := toNumber (e_height copy) in
          let center := {| x := x p0 + width / #2;
                           y := y p0 + height / #2 |} in
          let newCenter := rotatePoint cx cy center in
          Some (copy
                |> set_start (Some {| x := x newCenter - height / #2;
                                      y := y newCenter - width / #2 |})
                |> set_width (e_height copy)
                |> set_height (e_width copy))
      | None => None
      end
    else if is_a copy "circle" || is_a copy "centermark" then
      match e_center copy with
      | Some c => Some (set_center (Some (rotatePoint cx cy c)) copy)
      | None => None
      end
    else if is_a copy "text" || is_a copy "image" || is_a copy "table"
            || is_a copy "door" then
      let p := rotatePoint cx cy {| x := toNumber (e_x copy);
                                    y := toNumber (e_y copy) |} in
      let copy := copy |> set_x (Some (x p)) |> set_y (Some (y p)) in
      Some (if is_a copy "door"
            then set_rotation
                   (Some ((toNumber (e_rotation copy) + #90) % #360)) copy
            else copy)
    else if is_a copy "polyline" then
      match e_points copy with
      | Some ps => Some (set_points (Some (map (rotatePoint cx cy) ps)) copy)
      | None => None
      end
    else Some copy.

Definition rotateSelected (s : AppState) : option AppState :=
  let prev := entities s in
  let selected := filter is_selected prev in
  if (List.length selected =? 0)%nat then Some s
  else
    let b := extentBounds selected in
    if negb (isFinite (minX b)) then Some s
    else
      let cx := (minX b + maxX b) / #2 in
      let cy := (minY b + maxY b) / #2 in
      option_map (fun es => setEntities es s)
        (map_throwing (rotateEntity cx cy) prev).

(* --------------------------------------------------------------- *)
(** *** Entities of regular shape *)

(** The branches that [mirrorSelected] and [rotateSelected] tell apart
    by [type]. *)
Inductive Kind : Set := Segment | Box | Disc | Anchored | Hinged | Chain | Inert.

Definition kind_of (e : Entity) : Kind :=
  if is_a e "wall" || is_a e "dimension" || is_a e "leader" then Segment
  else if is_a e "rect" then Box
  else if is_a e "circle" || is_a e "centermark" then Disc
  else if is_a e "text" || is_a e "image" || is_a e "table" then Anchored
  else if is_a e "door" then Hinged
  else if is_a e "polyline" then Chain
  else Inert.

Definition finite_point (p : Point) : bool := isFinite (x p) && isFinite (y p).

(** [o] is present and satisfies [f]. *)
Definition present {A} (f : A -> bool) (o : option A) : bool :=
  match o with Some a => f a | None => false end.

(** The point [(e.x, e.y)], when both properties are present. *)
Definition anchor (e : Entity) : option Point :=
  match e_x e, e_y e with
  | Some ex, Some ey => Some {| x := ex; y := ey |}
  | _, _ => None
  end.

(** An entity is regular when the points from which the bounding-box
    loops read are those of its type, all of them finite: a segment has
    [start] and [end], a disc [center], an anchored or hinged entity
    [x] and [y], a chain [points], and an arc or an insert none of
    them. *)
Definition regular (e : Entity) : bool :=
  match kind_of e with
  | Segment =>
      present finite_point (e_start e) && present finite_point (e_end e)
      && absent (e_center e) && absent (e_x e) && absent (e_points e)
  | Box =>
      present finite_point (e_start e) && absent (e_end e)
      && absent (e_center e) && absent (e_x e) && absent (e_points e)
  | Disc =>
      present finite_point (e_center e)
      && absent (e_start e) && absent (e_end e)
      && absent (e_x e) && absent (e_points e)
  | Anchored | Hinged =>
      present finite_point (anchor e)
      && absent (e_start e) && absent (e_end e)
      && absent (e_center e) && absent (e_points e)
  | Chain =>
      present (forallb finite_point) (e_points e)
      && absent (e_start e) && absent (e_end e)
      && absent (e_center e) && absent (e_x e)
  | Inert =>
      absent (e_start e) && absent (e_end e)
      && absent (e_center e) && absent (e_x e) && absent (e_points e)
  end.

(** The entities that [mirrorSelected] reflects point for point. *)
Definition mirrorable (e : Entity) : bool :=
  regular e && match kind_of e with Box | Hinged => false | _ => true end.

(** The entities that [rotateSelected] turns point for point. *)
Definition rotatable (e : Entity) : bool :=
  regular e && match kind_of e with Box => false | _ => true end.

(** [e] with every point of its shape moved by [f]. *)
Definition transform (f : Point -> Point) (e : Entity) : Entity :=
  {| e_id := e_id e; e_type := e_type e; e_selected := e_selected e;
     e_action := e_action e; e_start := option_map f (e_start e);
     e_end := option_map f (e_end e); e_center := option_map f (e_center e);
     e_insertPoint := e_insertPoint e; e_p1 := e_p1 e; e_p2 := e_p2 e;
     e_p3 := e_p3 e; e_points := option_map (map f) (e_points e);
     e_x := match anchor e with Some p => Some (x (f p)) | None => e_x e end;
     e_y := match anchor e with Some p => Some (y (f p)) | None => e_y e end;
     e_width := e_width e; e_height := e_height e; e_radius := e_radius e;
     e_thickness := e_thickness e; e_rotation := e_rotation e;
     e_size := e_size e; e_rows := e_rows e; e_cols := e_cols e;
     e_rowHeight := e_rowHeight e; e_colWidth := e_colWidth e;
     e_fontSize := e_fontSize e; e_scale := e_scale e;
     e_content := e_content e; e_text := e_text e;
     e_blockName := e_blockName e |}.

(** [a] and [b] differ at most in [id]. *)
Definition same_but_id (a b : Entity) : Prop := set_id (e_id a) b = a.

(** [a] and [b] differ at most in [rotation]. *)
Definition same_but_rotation (a b : Entity) : Prop :=
  set_rotation (e_rotation a) b = a.

(* --------------------------------------------------------------- *)
(** *** Vocabulary of the statements *)

(** [f] applied to the result of a step that did not throw. *)
Definition and_then {A} (o : option A) (f : A -> option A) : option A :=
  match o with Some a => f a | None => None end.

Definition default_view : ViewState :=
  {| v_x := #0; v_y := #0; v_zoom := #1 |}.

(** The end that [handleMouseUp] gives a wall from anchor [p] with the
    pointer at [q]: [q] moved onto each axis of [p] that it is nearer
    than 10 to. *)
Definition snapped (p q : Point) : Point :=
  let q := if Math_abs (x p - x q) < #10
           then {| x := x p; y := y q |} else q in
  if Math_abs (y p - y q) < #10 then {| x := x q; y := y p |} else q.

(** The results of [map_drawing] for a function that never throws:
    the [k]-th element gets the [k]-th identifier from [n] on. *)
Fixpoint labelled {A B} (g : A -> string -> B) (l : list A)
  (rnd : nat -> string) (n : nat) : list B :=
  match l with
  | [] => []
  | a :: l' => g a (rnd n) :: labelled g l' rnd (S n)
  end.

(** What [mirrorSelected] does to the entities it keeps. *)
Definition deselect (e : Entity) : Entity :=
  if is_selected e then set_selected (Some false) e else e.

(** The quarter turn that [rotateSelected] adds to a door. *)
Definition turn (e : Entity) : Entity :=
  if is_a e "door"
  then set_rotation (Some ((toNumber (e_rotation e) + #90) % #360)) e
  else e.

(** The body of [prev.map] in [rotateSelected] on a rotatable entity. *)
Definition spin (cx cy : N) (e : Entity) : Entity :=
  if is_selected e then turn (transform (rotatePoint cx cy) e) else e.
End Model.

(* ================================================================= *)
(** ** Vocabulary of the exact-arithmetic proofs *)

(** The clone that [mirrorSelected] makes of a mirrorable entity. *)
Definition clone_of (a : xreal) (e : Entity) (i : string) : Entity :=
  transform (mirrorPoint a) e |> set_id (Some i) |> set_selected (Some true).

(** The bounds [mirrorBounds] can reach on regular entities: still
    untouched, or a finite interval. *)
Definition settledX (b : xreal * xreal) : Prop :=
  b = (PInf, NInf) \/ exists l h, b = (Fin l, Fin h).

(** The mirror image of an interval about [a]. *)
Definition reflectX (a : R) (b : xreal * xreal) : xreal * xreal :=
  match b with
  | (Fin l, Fin h) => (Fin (a - (h - a)), Fin (a - (l - a)))
  | _ => b
  end.

(** The bounds [extentBounds] can reach on regular entities. *)
Definition settled (b : Bounds (N:=xreal)) : Prop :=
  b = no_bounds
  \/ exists l h d u,
       b = {| minX := Fin l; maxX := Fin h; minY := Fin d; maxY := Fin u |}.

(** The bounds of a box after a quarter turn about [(cx, cy)]. *)
Definition turned (cx cy : R) (b : Bounds (N:=xreal)) : Bounds :=
  match b with
  | {| minX := Fin l; maxX := Fin h; minY := Fin d; maxY := Fin u |} =>
      {| minX := Fin (cx - (u - cy)); maxX := Fin (cx - (d - cy));
         minY := Fin (cy + (l - cx)); maxY := Fin (cy + (h - cx)) |}
  | _ => b
  end.

(** A state whose selection is rotatable and has a bounding box with
    center [(cx, cy)]. *)
Definition centred (cx cy : R) (s : AppState (N:=xreal)) : Prop :=
  let sel := filter is_selected (entities s) in
  forallb rotatable sel = true
  /\ exists l h d u,
       extentBounds sel
       = {| minX := Fin l; maxX := Fin h; minY := Fin d; maxY := Fin u |}
       /\ ((l + h) / 2 = cx)%R /\ ((d + u) / 2 = cy)%R.

(* ================================================================= *)
(** ** A concrete session on binary64 *)

Module Demo.
Open Scope string_scope.

(** Identifiers [e0], [e1], ... in place of random ones. *)
Definition ids (n : nat) : string :=
  "e" ++ NilEmpty.string_of_uint (Nat.to_uint n).

Definition pt (a b : Z) : Point (N:=float) := {| x := of_Z a; y := of_Z b |}.

(** The initial state of the component, with the view at the origin. *)
Definition idle : AppState (N:=float) :=
  {| entities := []; blockDefs := []; activeBlockName := None;
     view := {| v_x := of_Z 0; v_y := of_Z 0; v_zoom := of_Z 1 |};
     activeTool := SELECT; isDragging := false; dragStart := None;
     drawingStart := None; tempPoints := []; mousePos := pt 0 0;
     random := ids; drawn := 0 |}.

(** An 800 by 600 canvas at the top left corner of the page. *)
Definition canvas : DOMRect (N:=float) :=
  {| left := of_Z 0; top := of_Z 0; r_width := of_Z 800; r_height := of_Z 600 |}.

(** A press of the primary button at page position [(a, b)]. *)
Definition press (a b : Z) : MouseEvent (N:=float) :=
  {| clientX := of_Z a; clientY := of_Z b; button := 0; ctrlKey := false |}.

(** The state in which a two-click tool has its anchor at [p] and the
    pointer is at [q]. *)
Definition dragging (tool : ToolType) (p q : Point) : AppState (N:=float) :=
  idle |> setActiveTool tool |> setDrawingStart (Some p) |> setMousePos q.

Definition arc (i : string) (a b c : Point) : Entity (N:=float) :=
  no_entity |> set_id (Some i) |> set_type (Some "arc")
  |> set_p1 (Some a) |> set_p2 (Some b) |> set_p3 (Some c).

Definition wall (i : string) (a b : Point) : Entity (N:=float) :=
  no_entity |> set_id (Some i) |> set_type (Some "wall")
  |> set_start (Some a) |> set_end (Some b) |> set_thickness (Some (of_Z 5)).

Definition rect (i : option string) (a : Point) (w h : option float)
  : Entity (N:=float) :=
  no_entity |> set_id i |> set_type (Some "rect")
  |> set_start (Some a) |> set_width w |> set_height h.

Definition circle (i : option string) (c : Point) (r : Z) : Entity (N:=float) :=
  no_entity |> set_id i |> set_type (Some "circle")
  |> set_center (Some c) |> set_radius (Some (of_Z r)).

Definition table (i : string) (p : Point) (rows cols : Z) : Entity (N:=float) :=
  no_entity |> set_id (Some i) |> set_type (Some "table")
  |> set_x (Some (x p)) |> set_y (Some (y p))
  |> set_rows (Some (of_Z rows)) |> set_cols (Some (of_Z cols))
  |> set_rowHeight (Some (of_Z 20)) |> set_colWidth (Some (of_Z 60)).

Definition insert (i name : string) (p : Point) : Entity (N:=float) :=
  no_entity |> set_id (Some i) |> set_type (Some "insert")
  |> set_blockName (Some name) |> set_insertPoint (Some p)
  |> set_scale (Some (of_Z 1)) |> set_rotation (Some (of_Z 0))
  |> set_selected (Some true).

(** The action [{action: "create", type: "rect", start: {x: 0, y: 0},
    width: 10}], which has no [height]. *)
Definition create_rect_no_height : Entity (N:=float) :=
  rect None (pt 0 0) (Some (of_Z 10)) None |> set_action (Some "create").
End Demo.

(* ================================================================= *)
(** ** A concrete drawing on exact numbers *)

Module ExactDemo.
Open Scope string_scope.

Definition pt (a b : Z) : Point (N:=xreal) := {| x := of_Z a; y := of_Z b |}.

(** A selected wall from (0,0) to (10,4). *)
Definition wall : Entity (N:=xreal) :=
  no_entity |> set_id (Some "w") |> set_type (Some "wall")
  |> set_start (Some (pt 0 0)) |> set_end (Some (pt 10 4))
  |> set_thickness (Some (of_Z 5)) |> set_selected (Some true).

(** An unselected arc. *)
Definition arc : Entity (N:=xreal) :=
  no_entity |> set_id (Some "a") |> set_type (Some "arc")
  |> set_p1 (Some (pt 0 0)) |> set_p2 (Some (pt 5 5)) |> set_p3 (Some (pt 10 0)).

Definition drawing : AppState (N:=xreal) :=
  {| entities := [arc; wall]; blockDefs := []; activeBlockName := None;
     view := default_view; activeTool := SELECT; isDragging := false;
     dragStart := None; drawingStart := None; tempPoints := [];
     mousePos := pt 0 0; random := Demo.ids; drawn := 0 |}.
End ExactDemo.

(* ================================================================= *)
(** ** The rest of the engine *)

(** [l] is [l'] with some elements left out. *)
Inductive subseq {A : Type} : list A -> list A -> Prop :=
| subseq_nil : subseq [] []
| subseq_skip a l l' : subseq l l' -> subseq l (a :: l')
| subseq_keep a l l' : subseq l l' -> subseq (a :: l) (a :: l').

Section Editing.
Context {N : Type} `{JSNumber N}.
Local Open Scope js_scope.

Local Abbreviation Point := (@Point N).
Local Abbreviation Entity := (@Entity N).
Local Abbreviation AppState := (@AppState N).
Local Abbreviation DOMRect := (@DOMRect N).
Local Abbreviation MouseEvent := (@MouseEvent N).
Local Abbreviation ViewState := (@ViewState N).

(* --------------------------------------------------------------- *)
(** *** Lines *)

Definition getLineIntersection (p1 p2 p3 p4 : Point) : option Point :=
  let d := (x p1 - x p2) * (y p3 - y p4) - (y p1 - y p2) * (x p3 - x p4) in
  if d === #0 then None
  else
    let t := ((x p1 - x p3) * (y p3 - y p4)
              - (y p1 - y p3) * (x p3 - x p4)) / d in
    Some {| x := x p1 + t * (x p2 - x p1); y := y p1 + t * (y p2 - y p1) |}.

(* --------------------------------------------------------------- *)
(** *** Blocks and the view *)

(** [insertBlock], given the answer to its [prompt]; the result is the
    next state and the message of the [alert], if one is shown.  Of
    [Object.keys(blockDefs)] only the length decides anything: the
    names are otherwise shown in the prompt. *)
Definition insertBlock (answer : option string) (s : AppState)
  : AppState * option string :=
  let names := map fst (blockDefs s) in
  if (List.length names =? 0)%nat
  then (s, Some "No blocks defined."%string)
  else
    match nonempty answer with
    | Some name =>
        if has_block (blockDefs s) name
        then (s |> setActiveBlockName (Some name)
                |> setActiveTool INSERT_BLOCK, None)
        else (s, Some "Block not found."%string)
    | None => (s, None)
    end.

Definition resetView (s : AppState) : AppState :=
  setView {| v_x := #0; v_y := #0; v_zoom := #1 |} s.

(** [purge], given the answer to its [confirm]. *)
Definition purge (confirmed : bool) (s : AppState) : AppState :=
  if confirmed then setEntities [] s else s.

(* --------------------------------------------------------------- *)
(** *** Keyboard and context menu *)

(** The polyline that the Enter key and the context menu both commit
    from the buffered points.  Its constant property [closed: false],
    which nothing reads, has no field in [Entity]. *)
Definition commitPolyline (s : AppState) : AppState :=
  let (i, s) := generateId s in
  let newPoly :=
    no_entity
    |> set_id (Some i) |> set_type (Some "polyline"%string)
    |> set_points (Some (tempPoints s)) in
  s |> setEntities (entities s ++ [newPoly]) |> setTempPoints [].

(** The [keydown] listener, given [e.key]. *)
Definition handleKeyDown (key : string) (s : AppState) : AppState :=
  let s :=
    if String.eqb key "Delete" || String.eqb key "Backspace"
    then setEntities (filter (fun e => negb (is_selected e)) (entities s)) s
    else s in
  let s :=
    if String.eqb key "Enter" then
      if ToolType_eqb (activeTool s) POLYLINE
         && (1 <? List.length (tempPoints s))%nat
      then commitPolyline s
      else s
    else s in
  if String.eqb key "Escape"
  then s |> setTempPoints [] |> setDrawingStart None
         |> setActiveTool SELECT |> setActiveBlockName None
  else s.

Definition handleContextMenu (s : AppState) : AppState :=
  if ToolType_eqb (activeTool s) POLYLINE
     && (1 <? List.length (tempPoints s))%nat
  then commitPolyline s
  else s |> setDrawingStart None |> setTempPoints []
         |> setActiveTool SELECT |> setActiveBlockName None.

(* --------------------------------------------------------------- *)
(** *** Wheel and pointer movement *)

(** A wheel event: a mouse event with [deltaY]. *)
Record WheelEvent : Type := { w_mouse : MouseEvent; deltaY : N }.

Definition handleWheel (e : WheelEvent) (rect : DOMRect) (s : AppState)
  : AppState :=
  let scaleBy := decimal 11 1 in
  let oldZoom := v_zoom (view s) in
  let newZoom := if deltaY e > #0 then oldZoom / scaleBy
                 else oldZoom * scaleBy in
  let mx := clientX (w_mouse e) - left rect in
  let my := clientY (w_mouse e) - top rect in
  let wx := (mx - v_x (view s)) / oldZoom in
  let wy := (my - v_y (view s)) / oldZoom in
  setView {| v_x := mx - wx * newZoom; v_y := my - wy * newZoom;
             v_zoom := newZoom |} s.

(** [{ x: p.x + dx, y: p.y + dy }]. *)
Definition translate (dx dy : N) (p : Point) : Point :=
  {| x := x p + dx; y := y p + dy |}.

(** The body of [prev.map] in [handleMouseMove]; [None] when a point
    that the entity's type requires is [undefined]. *)
Definition moveEntity (wDx wDy : N) (ent : Entity) : option Entity :=
  if negb (is_selected ent) then Some ent
  else if is_a ent "wall" || is_a ent "dimension" || is_a ent "leader" then
    match e_start ent, e_end ent with
    | Some s, Some en =>
        Some (ent |> set_start (Some (translate wDx wDy s))
                  |> set_end (Some (translate wDx wDy en)))
    | _, _ => None
    end
  else if is_a ent "rect" then
    match e_start ent with
    | Some p => Some (set_start (Some (translate wDx wDy p)) ent)
    | None => None
    end
  else if is_a ent "circle" || is_a ent "centermark" then
    match e_center ent with
    | Some c => Some (set_center (Some (translate wDx wDy c)) ent)
    | None => None
    end
  else if is_a ent "polyline" then
    match e_points ent with
    | Some ps => Some (set_points (Some (map (translate wDx wDy) ps)) ent)
    | None => None
    end
  else if is_a ent "arc" then
    match e_p1 ent, e_p2 ent, e_p3 ent with
    | Some a1, Some a2, Some a3 =>
        Some (ent |> set_p1 (Some (translate wDx wDy a1))
                  |> set_p2 (Some (translate wDx wDy a2))
                  |> set_p3 (Some (translate wDx wDy a3)))
    | _, _, _ => None
    end
  else if is_a ent "insert" then
    match e_insertPoint ent with
    | Some ip => Some (set_insertPoint (Some (translate wDx wDy ip)) ent)
    | None => None
    end
  else
    Some (ent |> set_x (Some (toNumber (e_x ent) + wDx))
              |> set_y (Some (toNumber (e_y ent) + wDy))).

(** A move event: a mouse event with the [buttons] that are down. *)
Record MoveEvent : Type := { m_mouse : MouseEvent; buttons : Z }.

Definition handleMouseMove (e : MoveEvent) (rect : DOMRect) (s : AppState)
  : option AppState :=
  let mx := clientX (m_mouse e) - left rect in
  let my := clientY (m_mouse e) - top rect in
  let worldPos := screenToWorld {| x := mx; y := my |} (view s) in
  let s := setMousePos worldPos s in
  match dragStart s with
  | Some from =>
      if isDragging s && ToolType_eqb (activeTool s) SELECT then
        let dx := mx - x from in
        let dy := my - y from in
        let hasSelection := existsb is_selected (entities s) in
        if (buttons e =? 4)%Z || ((buttons e =? 1)%Z && negb hasSelection)
        then
          Some (s |> setView {| v_x := v_x (view s) + dx;
                                v_y := v_y (view s) + dy;
                                v_zoom := v_zoom (view s) |}
                  |> setDragStart (Some {| x := mx; y := my |}))
        else if (buttons e =? 1)%Z && hasSelection then
          let wDx := dx / v_zoom (view s) in
          let wDy := dy / v_zoom (view s) in
          match map_throwing (moveEntity wDx wDy) (entities s) with
          | Some moved =>
              Some (s |> setEntities moved
                      |> setDragStart (Some {| x := mx; y := my |}))
          | None => None
          end
        else Some s
      else Some s
  | None => Some s
  end.

(* --------------------------------------------------------------- *)
(** *** The grid *)

(** The numbers of the pattern that [renderGrid] draws: the side of a
    cell and the offset of the pattern. *)
Record GridPattern : Type := { cell : N; offsetX : N; offsetY : N }.

(** [renderGrid]; [None] for [null], when no grid is drawn. *)
Definition renderGrid (s : AppState) : option GridPattern :=
  let gridSize := #50 * v_zoom (view s) in
  if gridSize < #10 then None
  else
    let offsetX := v_x (view s) % (gridSize) in
    let offsetY := v_y (view s) % (gridSize) in
    Some {| cell := gridSize; offsetX := offsetX; offsetY := offsetY |}.

(* --------------------------------------------------------------- *)
(** *** Delete and copy *)

Definition deleteSelected (s : AppState) : AppState :=
  setEntities (filter (fun e => negb (is_selected e)) (entities s)) s.

(** The body of [selected.map] in [copySelected], with the identifier
    it draws; [None] when [p2] or [p3] is read from an entity that has
    [p1] but lacks them. *)
Definition copyEntity (offset : N) (e : Entity) (i : string) : option Entity :=
  let move := translate offset offset in
  let copy := jsonClone e |> set_id (Some i) |> set_selected (Some true) in
  let copy := match e_start copy with
              | Some p => set_start (Some (move p)) copy
              | None => copy
              end in
  let copy := match e_end copy with
              | Some p => set_end (Some (move p)) copy
              | None => copy
              end in
  let copy := match e_center copy with
              | Some p => set_center (Some (move p)) copy
              | None => copy
              end in
  let copy := match e_x copy with
              | Some cx =>
                  copy |> set_x (Some (cx + offset))
                       |> set_y (Some (toNumber (e_y copy) + offset))
              | None => copy
              end in
  let copy := match e_points copy with
              | Some ps => set_points (Some (map move ps)) copy
              | None => copy
              end in
  let moved :=
    match e_p1 copy with
    | Some q1 =>
        match e_p2 copy, e_p3 copy with
        | Some q2, Some q3 =>
            Some (copy |> set_p1 (Some (move q1))
                       |> set_p2 (Some (move q2))
                       |> set_p3 (Some (move q3)))
        | _, _ => None
        end
    | None => Some copy
    end in
  match moved with
  | Some copy =>
      Some match e_insertPoint copy with
           | Some p => set_insertPoint (Some (move p)) copy
           | None => copy
           end
  | None => None
  end.

Definition copySelected (s : AppState) : option AppState :=
  let prev := entities s in
  let selected := filter is_selected prev in
  let offset := #20 / v_zoom (view s) in
  match map_drawing (copyEntity offset) selected s with
  | Some (copies, s) =>
      Some (setEntities (map (set_selected (Some false)) prev ++ copies) s)
  | None => None
  end.

(* --------------------------------------------------------------- *)
(** *** Vocabulary of the statements *)

(** A sequence of presses, each handled in the state that the one
    before it left; the prompts are cancelled. *)
Definition presses (es : list MouseEvent) (rect : DOMRect) (s : AppState)
  : option AppState :=
  fold_left (fun acc e => and_then acc (handleMouseDown e rect None))
    es (Some s).




(** A view whose numbers are finite and whose zoom is not zero. *)
Definition usable_view (v : ViewState) : bool :=
  isFinite (v_x v) && isFinite (v_y v) && isFinite (v_zoom v)
  && truthy (v_zoom v).

(** An event whose position on the canvas is finite. *)
Definition on_canvas (e : MouseEvent) (rect : DOMRect) : bool :=
  finite_point {| x := clientX e - left rect; y := clientY e - top rect |}.

(** The characters of a decimal numeral. *)
Definition is_digit (c : ascii) : bool :=
  match digit_value c with Some d => (d <? 10)%Z | None => false end.

Fixpoint all_digits (t : string) : bool :=
  match t with
  | EmptyString => true
  | String c t' => is_digit c && all_digits t'
  end.

(** The decimal numeral of a natural number. *)
Definition numeral (n : nat) : string :=
  NilEmpty.string_of_uint (Nat.to_uint n).

(** One operation of the engine: an event handled, a command of the
    ribbon run, or a batch of actions applied.  A handler that throws
    takes no step. *)
Inductive step : AppState -> AppState -> Prop :=
| step_press e rect answer s s' :
    handleMouseDown e rect answer s = Some s' -> step s s'
| step_move e rect s s' : handleMouseMove e rect s = Some s' -> step s s'
| step_release answer s : step s (handleMouseUp answer s)
| step_key key s : step s (handleKeyDown key s)
| step_menu s : step s (handleContextMenu s)
| step_wheel e rect s : step s (handleWheel e rect s)
| step_tool tool s : step s (setActiveTool tool s)
| step_copy s s' : copySelected s = Some s' -> step s s'
| step_mirror s s' : mirrorSelected s = Some s' -> step s s'
| step_rotate s s' : rotateSelected s = Some s' -> step s s'
| step_delete s : step s (deleteSelected s)
| step_block answer s s' msg :
    createBlock answer s = Some (s', msg) -> step s s'
| step_insert answer s : step s (fst (insertBlock answer s))
| step_zoom rect s : step s (zoomExtents rect s)
| step_reset s : step s (resetView s)
| step_purge confirmed s : step s (purge confirmed s)
| step_actions actions s : step s (applyActions actions s).

(** A run of the engine: any number of operations in a row. *)
Inductive runs : AppState -> AppState -> Prop :=
| runs_none s : runs s s
| runs_more s s' s'' : step s s' -> runs s' s'' -> runs s s''.

(** The identifiers in use, and the next [n] that [generateId] is to
    yield. *)
Definition ids (s : AppState) : list (option string) :=
  map e_id (entities s).

Definition upcoming (s : AppState) (n : nat) : list (option string) :=
  map (fun k => Some (random s k)) (seq (drawn s) n).

(** No identifier occurs twice, among those in use and those to
    come. *)
Definition distinct_ids (s : AppState) : Prop :=
  forall n, NoDup (ids s ++ upcoming s n).

(** [s'] draws its identifiers after [s], from the same source, and
    uses only identifiers that [s] uses or that were drawn in between,
    in their order. *)
Definition advances (s s' : AppState) : Prop :=
  random s' = random s
  /\ exists m, drawn s' = (drawn s + m)%nat
               /\ subseq (ids s') (ids s ++ upcoming s m).

(** An entity that has [p1] but lacks [p2] or [p3]. *)
Definition partial_arc (e : Entity) : bool :=
  negb (absent (e_p1 e)) && (absent (e_p2 e) || absent (e_p3 e)).
End Editing.

(* ================================================================= *)
(** ** Vocabulary of the exact-arithmetic proofs, continued *)

(** The bounds a bounding-box loop can reach on regular entities:
    still untouched, or a box with finite, ordered sides. *)
Definition ordered (b : Bounds (N:=xreal)) : Prop :=
  b = no_bounds
  \/ exists l h d u,
       b = {| minX := Fin l; maxX := Fin h; minY := Fin d; maxY := Fin u |}
       /\ (l <= h)%R /\ (d <= u)%R.

(* ================================================================= *)
(** ** Further scenes, on binary64 and on exact numbers *)

Module Scenes.
Open Scope string_scope.

(** The wall [w] from (0,0) to (100,0), and the same wall selected. *)
Definition wall : Entity (N:=float) :=
  Demo.wall "w" (Demo.pt 0 0) (Demo.pt 100 0).

Definition picked : Entity (N:=float) := set_selected (Some true) wall.

(** An arc that has [p1] only, selected. *)
Definition broken_arc : Entity (N:=float) :=
  no_entity |> set_id (Some "a") |> set_type (Some "arc")
  |> set_p1 (Some (Demo.pt 0 0)) |> set_selected (Some true).

(** The idle engine with the given entities, and with a tool armed. *)
Definition drawing (es : list Entity) : AppState (N:=float) :=
  setEntities es Demo.idle.

Definition armed (tool : ToolType) : AppState (N:=float) :=
  setActiveTool tool Demo.idle.

(** The CENTERMARK tool over a drawing of one circle. *)
Definition marking : AppState (N:=float) :=
  setActiveTool CENTERMARK
    (drawing [Demo.circle (Some "c") (Demo.pt 50 50) 20]).

(** A press with the control key down. *)
Definition control_press (a b : Z) : MouseEvent (N:=float) :=
  {| clientX := of_Z a; clientY := of_Z b; button := 0; ctrlKey := true |}.

(** A move to page position [(a, b)] with the given buttons down. *)
Definition move (a b : Z) (down : Z) : MoveEvent (N:=float) :=
  {| m_mouse := Demo.press a b; buttons := down |}.

(** The action [{action: "delete", id: "z"}]. *)
Definition delete_z : Entity (N:=float) :=
  no_entity |> set_action (Some "delete") |> set_id (Some "z").

(** An 800 by 600 canvas, a pointer position and events there, on
    exact numbers. *)
Definition canvas : DOMRect (N:=xreal) :=
  {| left := of_Z 0; top := of_Z 0; r_width := of_Z 800;
     r_height := of_Z 600 |}.

Definition pointer_at (a b : Z) : MouseEvent (N:=xreal) :=
  {| clientX := of_Z a; clientY := of_Z b; button := 0; ctrlKey := false |}.

Definition wheel (a b : Z) (dy : Z) : WheelEvent (N:=xreal) :=
  {| w_mouse := pointer_at a b; deltaY := of_Z dy |}.

Definition exact_move (a b : Z) (down : Z) : MoveEvent (N:=xreal) :=
  {| m_mouse := pointer_at a b; buttons := down |}.

(** The exact drawing while the SELECT tool drags from canvas
    position (10,10). *)
Definition grabbed : AppState (N:=xreal) :=
  ExactDemo.drawing |> setIsDragging true
  |> setDragStart (Some (ExactDemo.pt 10 10)).
End Scenes.

Unset Implicit Arguments.

(* ================================================================= *)
(** ** Tactics *)

(** Case analysis on the tests of an [if] chain in a hypothesis. *)
Ltac split_tests H :=
  repeat match type of H with
         | context [if ?b then _ else _] => destruct b eqn:?
         end.

(** What the conjuncts of [regular] say about each property. *)
Ltac read_shape H :=
  repeat rewrite andb_true_iff in H;
  repeat match type of H with
         | _ /\ _ => let H' := fresh H in destruct H as [H H']; try read_shape H'
         end.

Ltac absent_fields :=
  repeat match goal with
         | H : false = true |- _ => discriminate H
         | H : absent ?o = true |- _ =>
             destruct o; [ discriminate H | clear H ]
         | H : present _ (match ?o with _ => _ end) = true |- _ =>
             destruct o; [ | discriminate H ]
         | H : present _ (Some _) = true |- _ => cbn [present] in H
         | H : present _ ?o = true |- _ =>
             destruct o; [ cbn [present] in H | discriminate H ]
         end.

(* ================================================================= *)
(** ** Facts about binary64 *)

Module Float64Facts.
Import FloatAxioms.
Local Open Scope js_scope.

Lemma SFcompare_antisym (a b : spec_float) :
  SFcompare b a = option_map CompOpp (SFcompare a b).
Proof.
  destruct a as [sa | sa | | sa ma ea], b as [sb | sb | | sb mb eb];
    try destruct sa; try destruct sb; try reflexivity; simpl;
    rewrite (Z.compare_antisym ea eb);
    destruct (ea ?= eb)%Z; simpl; try reflexivity;
    pose proof (Pos.compare_cont_antisym ma mb Eq) as P; simpl in P;
    rewrite <- P; try reflexivity; now rewrite CompOpp_involutive.
Qed.

Lemma SFcompare_refl (a : spec_float) :
  a <> S754_nan -> SFcompare a a = Some Eq.
Proof.
  destruct a as [sa | sa | | sa ma ea]; try destruct sa; simpl;
    try reflexivity; try congruence; intros _;
    rewrite Z.compare_refl, Pos.compare_cont_refl; reflexivity.
Qed.

(** A binary64 that is neither [NaN] nor an infinity. *)
Definition sf_finite (a : spec_float) : bool :=
  match a with
  | S754_zero _ | S754_finite _ _ _ => true
  | _ => false
  end.

Lemma SFmul_finite a b :
  sf_finite (SF64mul a b) = true -> sf_finite a = true /\ sf_finite b = true.
Proof.
  destruct a as [sa | sa | | sa ma ea], b as [sb | sb | | sb mb eb];
    simpl; intros E; try discriminate; auto.
Qed.

Lemma SFadd_finite a b :
  sf_finite (SF64add a b) = true -> sf_finite a = true /\ sf_finite b = true.
Proof.
  destruct a as [sa | sa | | sa ma ea], b as [sb | sb | | sb mb eb];
    try destruct sa; try destruct sb;
    simpl; intros E; try discriminate; auto.
Qed.

Lemma SFsub_finite a b :
  sf_finite (SF64sub a b) = true -> sf_finite a = true /\ sf_finite b = true.
Proof.
  destruct a as [sa | sa | | sa ma ea], b as [sb | sb | | sb mb eb];
    try destruct sa; try destruct sb;
    simpl; intros E; try discriminate; auto.
Qed.

Lemma isNaN_spec (v : float) :
  isNaN v = match Prim2SF v with S754_nan => true | _ => false end.
Proof.
  unfold isNaN; simpl. rewrite eqb_spec. unfold SFeqb.
  destruct (Prim2SF v) eqn:E; try reflexivity;
    rewrite SFcompare_refl by congruence; reflexivity.
Qed.

Lemma isFinite_spec (v : float) : isFinite v = sf_finite (Prim2SF v).
Proof.
  unfold isFinite. rewrite isNaN_spec. simpl.
  rewrite eqb_spec, abs_spec.
  destruct (Prim2SF v) as [sa | sa | | sa ma ea]; try destruct sa; reflexivity.
Qed.

Lemma small_is_finite (v : float) :
  (Math_abs v < decimal 1 3) = true -> sf_finite (Prim2SF v) = true.
Proof.
  simpl. rewrite ltb_spec, abs_spec.
  destruct (Prim2SF v) as [sa | sa | | sa ma ea]; try reflexivity.
  - vm_compute. discriminate.
  - vm_compute. discriminate.
Qed.

Lemma collinear_inputs_finite (p1 p2 p3 : Point (N:=float)) :
  (Math_abs (arcD p1 p2 p3) < decimal 1 3) = true ->
  Forall (fun v => isFinite v = true) [x p1; y p1; x p2; y p2; x p3; y p3].
Proof.
  intros E. apply small_is_finite in E. unfold arcD in E. simpl in E.
  rewrite mul_spec in E. apply SFmul_finite in E as [_ E].
  rewrite !add_spec in E.
  apply SFadd_finite in E as [E E3]. apply SFadd_finite in E as [E1 E2].
  rewrite mul_spec, sub_spec in E1, E2, E3.
  apply SFmul_finite in E1 as [X1 E1], E2 as [X2 E2], E3 as [X3 E3].
  apply SFsub_finite in E1 as [Y2 Y3], E2 as [_ Y1].
  repeat constructor; rewrite isFinite_spec; assumption.
Qed.

Lemma leb_not_ltb (a b : float) : (a <= b) = true -> (b < a) = false.
Proof.
  simpl. rewrite leb_spec, ltb_spec. unfold SFleb, SFltb.
  rewrite (SFcompare_antisym (Prim2SF a) (Prim2SF b)).
  destruct (SFcompare (Prim2SF a) (Prim2SF b)) as [[ | | ] | ];
    simpl; congruence.
Qed.

Lemma not_ltb_leb (a b : float) :
  isNaN a = false -> isNaN b = false -> (b < a) = false -> (a <= b) = true.
Proof.
  rewrite !isNaN_spec. simpl. rewrite leb_spec, ltb_spec. unfold SFleb, SFltb.
  rewrite (SFcompare_antisym (Prim2SF a) (Prim2SF b)).
  destruct (Prim2SF a) eqn:Ea, (Prim2SF b) eqn:Eb; try discriminate;
    intros _ _;
    match goal with
    | |- context [SFcompare ?u ?v] =>
        destruct (SFcompare u v) as [[ | | ] | ] eqn:E
    end; simpl; try congruence; simpl in E; try discriminate;
    destruct s; try destruct s0; discriminate.
Qed.

Lemma ltb_leb (a b : float) : (a < b) = true -> (a <= b) = true.
Proof.
  simpl. rewrite leb_spec, ltb_spec. unfold SFleb, SFltb.
  destruct (SFcompare (Prim2SF a) (Prim2SF b)) as [[ | | ] | ]; congruence.
Qed.

Lemma leb_refl (a : float) : isNaN a = false -> (a <= a) = true.
Proof.
  rewrite isNaN_spec. simpl. rewrite leb_spec. unfold SFleb. intros E.
  rewrite SFcompare_refl; [ reflexivity | ].
  intros E'. rewrite E' in E. discriminate.
Qed.

Lemma sub_not_NaN (a b : float) :
  isNaN (a - b) = false -> isNaN a = false /\ isNaN b = false.
Proof.
  rewrite !isNaN_spec. simpl. rewrite sub_spec.
  destruct (Prim2SF a), (Prim2SF b); simpl; auto; discriminate.
Qed.

Lemma above_5_not_NaN (v : float) : (Math_abs v > #5) = true -> isNaN v = false.
Proof.
  rewrite isNaN_spec. simpl. rewrite ltb_spec, abs_spec.
  destruct (Prim2SF v); try reflexivity.
  intros E. vm_compute in E. discriminate.
Qed.

Lemma above_5_positive (v : float) : (v > #5) = true -> (v > #0) = true.
Proof.
  simpl. rewrite !ltb_spec.
  set (c := Prim2SF (Float64.of_Z 5)). vm_compute in c. subst c.
  set (c := Prim2SF (Float64.of_Z 0)). vm_compute in c. subst c.
  destruct (Prim2SF v) as [s | s | | s m e]; try destruct s;
    unfold SFltb; simpl; congruence.
Qed.

Lemma not_below_Infinity (a : float) :
  isNaN a = false -> (a < Infinity) = false -> a = Infinity.
Proof.
  rewrite isNaN_spec. simpl. rewrite ltb_spec. intros Hn Hlt.
  rewrite <- (SF2Prim_Prim2SF a).
  destruct (Prim2SF a) as [s | s | | s m e]; try destruct s;
    try discriminate; reflexivity.
Qed.

Lemma zeros_leb (a b : float) :
  (b === #0) = true -> (a === #0) = true -> (b <= a) = true.
Proof.
  simpl. rewrite !eqb_spec, leb_spec.
  set (c := Prim2SF (Float64.of_Z 0)). vm_compute in c. subst c.
  destruct (Prim2SF a) as [s | s | | s m e], (Prim2SF b) as [t | t | | t n f];
    try destruct s; try destruct t; unfold SFeqb, SFleb; simpl; congruence.
Qed.

(** [Math.min] of two numbers, neither [NaN], is one of them and is
    below both. *)
Lemma Math_min_pair (a b : float) :
  isNaN a = false -> isNaN b = false ->
  (Math_min [a; b] <= a) = true /\ (Math_min [a; b] <= b) = true
  /\ (Math_min [a; b] = a \/ Math_min [a; b] = b).
Proof.
  intros Ha Hb. unfold Math_min. simpl existsb. rewrite Ha, Hb. simpl orb.
  cbv iota. unfold fold_left.
  change (is_pos_zero (N:=float) Infinity) with false.
  rewrite andb_false_r.
  assert (E1 : (if a < Infinity then a else Infinity) = a).
  { destruct (a < Infinity) eqn:E; [ reflexivity | ].
    symmetry. now apply not_below_Infinity. }
  rewrite E1.
  destruct (is_neg_zero b && is_pos_zero a) eqn:Ez.
  - assert (E2 : (if b < b then b else b) = b) by (destruct (b < b); reflexivity).
    rewrite E2. apply andb_prop in Ez as [Zb Za].
    apply andb_prop in Zb as [Zb _]. apply andb_prop in Za as [Za _].
    split; [ now apply zeros_leb | ]. split; [ now apply leb_refl | now right ].
  - destruct (b < a) eqn:E.
    + split; [ now apply ltb_leb | ]. split; [ now apply leb_refl | now right ].
    + split; [ now apply leb_refl | ]. split; [ now apply not_ltb_leb | now left ].
Qed.
End Float64Facts.

(* ================================================================= *)
(** ** Facts about exact numbers *)

Section ExactFacts.
Local Open Scope js_scope.

Lemma Reqb_refl (a : R) : XReal.Reqb a a = true.
Proof. unfold XReal.Reqb. destruct (Req_dec_T a a); congruence. Qed.

Lemma isFinite_Fin (v : xreal) : isFinite v = true <-> exists r, v = Fin r.
Proof.
  split.
  - destruct v; try discriminate. eauto.
  - intros [r ->]. unfold isFinite, isNaN. simpl. now rewrite Reqb_refl.
Qed.

Lemma finite_point_Fin (p : Point (N:=xreal)) :
  finite_point p = true <-> exists a b, p = {| x := Fin a; y := Fin b |}.
Proof.
  unfold finite_point. rewrite andb_true_iff, !isFinite_Fin.
  destruct p as [px py]; simpl. split.
  - intros [[a ->] [b ->]]. eauto.
  - intros [a [b E]]. injection E as -> ->. eauto.
Qed.

Lemma no_neg_zero (v : xreal) : is_neg_zero v = false.
Proof.
  unfold is_neg_zero. destruct v as [r | | |]; simpl; try reflexivity.
  unfold XReal.Reqb. destruct (Req_dec_T r 0) as [-> | _]; [ | reflexivity ].
  simpl. destruct (Req_dec_T 0 0); [ | congruence ].
  unfold XReal.signed_inf. destruct (Rlt_dec 0 1); [ reflexivity | lra ].
Qed.

Lemma jsonNumber_exact (v : xreal) : jsonNumber v = v.
Proof. unfold jsonNumber. now rewrite no_neg_zero. Qed.

Lemma jsonPoint_exact (p : Point (N:=xreal)) : jsonPoint p = p.
Proof. destruct p. unfold jsonPoint. simpl. now rewrite !jsonNumber_exact. Qed.

Lemma option_map_id {A} (f : A -> A) (o : option A) :
  (forall a, f a = a) -> option_map f o = o.
Proof. intros E. destruct o; simpl; congruence. Qed.

Lemma map_id_ext {A} (f : A -> A) (l : list A) :
  (forall a, f a = a) -> map f l = l.
Proof. intros E. induction l; simpl; congruence. Qed.

Lemma jsonClone_exact (e : Entity (N:=xreal)) : jsonClone e = e.
Proof.
  destruct e. unfold jsonClone. simpl.
  rewrite !(option_map_id jsonNumber) by apply jsonNumber_exact.
  rewrite !(option_map_id jsonPoint) by apply jsonPoint_exact.
  rewrite (option_map_id (map jsonPoint))
    by (intros; apply map_id_ext, jsonPoint_exact).
  reflexivity.
Qed.

Lemma same_true (t : option string) (k : string) :
  same t (Some k) = true -> t = Some k.
Proof.
  destruct t as [u | ]; simpl; [ | discriminate ].
  intros E. apply String.eqb_eq in E. now subst.
Qed.

Lemma finite_point_of_reals (a b : R) :
  finite_point {| x := Fin a; y := Fin b |} = true.
Proof. apply finite_point_Fin. eauto. Qed.
End ExactFacts.

(** Every finite point of the context, written with its coordinates. *)
Ltac finite_points :=
  repeat match goal with
         | H : finite_point ?p = true |- _ =>
             apply finite_point_Fin in H;
             let u := fresh "u" in let v := fresh "v" in
             destruct H as [u [v H]];
             first [ injection H as -> -> | subst p ]
         end.

(** Name the type of an entity whose kind is known. *)
Ltac name_type :=
  repeat match goal with
         | H : _ || _ = true |- _ => apply orb_prop in H; destruct H as [H | H]
         | H : same ?t (Some _) = true |- _ => apply same_true in H; subst t
         end.

(* ================================================================= *)
(** ** The ordered three-point tool *)

Section ArcTool.
Context {N : Type} `{JSNumber N}.

(** A press of a button other than the middle one, with the ARC tool
    armed and one point buffered, commits an arc whose second and third
    points are both the pressed position, and empties the buffer. *)
Lemma arc_press_with_one_buffered :
  forall (e : MouseEvent) rect answer (s : AppState) (p : Point),
    activeTool s = ARC -> tempPoints s = [p] -> button e <> 1%Z ->
    let w := pointer e rect (view s) in
    let newArc := no_entity |> set_id (Some (random s (drawn s)))
                  |> set_type (Some "arc"%string)
                  |> set_p1 (Some p) |> set_p2 (Some w) |> set_p3 (Some w) in
    handleMouseDown e rect answer s
    = Some (s |> set_drawn (S (drawn s))
              |> setEntities (entities s ++ [newArc])
              |> setTempPoints []).
Proof.
  intros e rect answer s p Htool Hbuf Hbtn. unfold handleMouseDown.
  apply Z.eqb_neq in Hbtn. rewrite Hbtn, Htool, Hbuf. reflexivity.
Qed.

(** With an empty buffer the press only buffers the pressed position. *)
Lemma arc_press_with_none_buffered :
  forall (e : MouseEvent) rect answer (s : AppState),
    activeTool s = ARC -> tempPoints s = [] -> button e <> 1%Z ->
    handleMouseDown e rect answer s
    = Some (setTempPoints [pointer e rect (view s)] s).
Proof.
  intros e rect answer s Htool Hbuf Hbtn. unfold handleMouseDown.
  apply Z.eqb_neq in Hbtn. rewrite Hbtn, Htool, Hbuf. reflexivity.
Qed.
End ArcTool.

(** The press at (10,10) with (0,0) buffered. *)
Lemma arc_press_with_one_buffered_witness :
  handleMouseDown (Demo.press 10 10) Demo.canvas None
    (Demo.idle |> setActiveTool ARC |> setTempPoints [Demo.pt 0 0])
  = Some (Demo.idle |> setActiveTool ARC |> set_drawn 1
          |> setEntities
               [Demo.arc "e0" (Demo.pt 0 0) (Demo.pt 10 10) (Demo.pt 10 10)]).
Proof.
  rewrite (arc_press_with_one_buffered (Demo.press 10 10) Demo.canvas None
             (Demo.idle |> setActiveTool ARC |> setTempPoints [Demo.pt 0 0])
             (Demo.pt 0 0)); [ | reflexivity | reflexivity | discriminate ].
  vm_compute. reflexivity.
Defined.

(** C1 (a defect of the code).  The claim has the first two presses
    only buffer points and the third press commit the arc.  Run on the
    presses (0,0) and (10,10): the first is buffered, and the second
    already commits the arc, with [p2] and [p3] both (10,10), and
    empties the buffer, so no third press takes part. *)
Theorem arc_is_committed_by_the_second_press :
  exists s1 s2,
    handleMouseDown (Demo.press 0 0) Demo.canvas None
      (setActiveTool ARC Demo.idle) = Some s1
    /\ entities s1 = [] /\ tempPoints s1 = [Demo.pt 0 0]
    /\ handleMouseDown (Demo.press 10 10) Demo.canvas None s1 = Some s2
    /\ entities s2
       = [Demo.arc "e0" (Demo.pt 0 0) (Demo.pt 10 10) (Demo.pt 10 10)]
    /\ tempPoints s2 = [].
Proof.
  do 2 eexists. split; [ vm_compute; reflexivity | ].
  split; [ reflexivity | ]. split; [ reflexivity | ].
  split; [ vm_compute; reflexivity | ].
  split; reflexivity.
Qed.

(* ================================================================= *)
(** ** The parameterized tool *)

(** C9 (a defect of the code).  The claim has a negative row count
    abort the TABLE tool.  Run on the answer [-2,3]: both numbers are
    truthy, so a table with [-2] rows is committed and the tool returns
    to SELECT. *)
Theorem table_accepts_a_negative_row_count :
  option_map (fun s => (entities s, activeTool s))
    (handleMouseDown (Demo.press 5 5) Demo.canvas (Some "-2,3"%string)
       (setActiveTool TABLE Demo.idle))
  = Some ([Demo.table "e0" (Demo.pt 5 5) (-2) 3], SELECT).
Proof. vm_compute. reflexivity. Qed.

(** With the TABLE tool armed, a press of a button other than the
    middle one changes nothing when the prompt is cancelled or its
    answer is empty, or has zero or no number for the rows or for the
    columns; on the answer [4,3] it commits a table of 4 rows and 3
    columns at the pressed position, with rows 20 high and columns 60
    wide, and returns the tool to SELECT. *)
Theorem table_tool_answers :
  forall (e : MouseEvent (N:=float)) rect (s : AppState),
    activeTool s = TABLE -> button e <> 1%Z ->
    Forall (fun answer => handleMouseDown e rect answer s = Some s)
      [None; Some ""; Some "abc"; Some "4"; Some "0,3"; Some "4,0";
       Some "4,x"]%string
    /\ handleMouseDown e rect (Some "4,3"%string) s
       = Some (s |> set_drawn (S (drawn s))
                 |> setEntities
                      (entities s
                       ++ [Demo.table (random s (drawn s))
                             (pointer e rect (view s)) 4 3])
                 |> setActiveTool SELECT).
Proof.
  intros e rect s Htool Hbtn. apply Z.eqb_neq in Hbtn.
  unfold handleMouseDown. rewrite Hbtn, Htool.
  split; [ repeat constructor | reflexivity ].
Qed.

(** The answers [0,3] and [4,3] to a press at (5,5) on the idle state. *)
Lemma table_tool_answers_witness :
  handleMouseDown (Demo.press 5 5) Demo.canvas (Some "0,3"%string)
    (setActiveTool TABLE Demo.idle)
  = Some (setActiveTool TABLE Demo.idle)
  /\ option_map (fun s => (entities s, activeTool s))
       (handleMouseDown (Demo.press 5 5) Demo.canvas (Some "4,3"%string)
          (setActiveTool TABLE Demo.idle))
     = Some ([Demo.table "e0" (Demo.pt 5 5) 4 3], SELECT).
Proof.
  destruct (table_tool_answers (Demo.press 5 5) Demo.canvas
              (setActiveTool TABLE Demo.idle)) as [Hno Hyes];
    [ reflexivity | discriminate | ].
  split.
  - exact (Forall_inv (Forall_inv_tail (Forall_inv_tail (Forall_inv_tail
             (Forall_inv_tail Hno))))).
  - rewrite Hyes. vm_compute. reflexivity.
Defined.

(* ================================================================= *)
(** ** The WALL tool *)

Lemma wall_release {N : Type} `{JSNumber N} :
  forall answer (s : AppState) (p : Point),
    activeTool s = WALL -> drawingStart s = Some p ->
    entities (handleMouseUp answer s)
    = if (dist p (snapped p (mousePos s)) > #5)%js
      then entities s
           ++ [no_entity |> set_id (Some (random s (drawn s)))
               |> set_type (Some "wall"%string)
               |> set_start (Some p)
               |> set_end (Some (snapped p (mousePos s)))
               |> set_thickness (Some #5%js)]
      else entities s.
Proof.
  intros answer s p Htool Hstart. unfold handleMouseUp.
  rewrite Htool, Hstart. unfold snapped. simpl.
  destruct (dist p _ > #5)%js; reflexivity.
Qed.

(** C2, as the claim states it, fails: released at (3,3) a wall
    anchored at (0,0) is not committed at all, so no wall ends at
    (3,3). *)
Lemma wall_to_3_3_is_not_diagonal :
  ~ exists w,
      In w (entities (handleMouseUp None
                        (Demo.dragging WALL (Demo.pt 0 0) (Demo.pt 3 3))))
      /\ e_end w = Some (Demo.pt 3 3).
Proof. intros [w [Hin _]]. vm_compute in Hin. exact Hin. Qed.

(** C2, amended.  From anchor (0,0): released at (3,3), both axes are
    within the snap distance, the wall collapses onto its anchor and is
    discarded, so the entity list is unchanged; released at (200,3),
    the wall is snapped to the horizontal and committed with end
    (200,0). *)
Theorem wall_snap_scenarios :
  forall answer (s : AppState (N:=float)),
    activeTool s = WALL -> drawingStart s = Some (Demo.pt 0 0) ->
    (mousePos s = Demo.pt 3 3 ->
     snapped (Demo.pt 0 0) (mousePos s) = Demo.pt 0 0
     /\ entities (handleMouseUp answer s) = entities s)
    /\ (mousePos s = Demo.pt 200 3 ->
        entities (handleMouseUp answer s)
        = entities s
          ++ [Demo.wall (random s (drawn s)) (Demo.pt 0 0) (Demo.pt 200 0)]).
Proof.
  intros answer s Htool Hstart.
  split; intros Hpos; rewrite (wall_release _ _ _ Htool Hstart), Hpos.
  - split; reflexivity.
  - reflexivity.
Qed.

Lemma wall_snap_scenarios_witness :
  entities (handleMouseUp None
              (Demo.dragging WALL (Demo.pt 0 0) (Demo.pt 200 3)))
  = [Demo.wall "e0" (Demo.pt 0 0) (Demo.pt 200 0)].
Proof.
  exact (proj2 (wall_snap_scenarios None
                  (Demo.dragging WALL (Demo.pt 0 0) (Demo.pt 200 3))
                  eq_refl eq_refl) eq_refl).
Defined.

(* ================================================================= *)
(** ** The RECT tool *)

Lemma rect_release {N : Type} `{JSNumber N} :
  forall answer (s : AppState) (p : Point),
    activeTool s = RECT -> drawingStart s = Some p ->
    let q := mousePos s in
    let w := (x q - x p)%js in
    let h := (y q - y p)%js in
    entities (handleMouseUp answer s)
    = if ((Math_abs w > #5) && (Math_abs h > #5))%js
      then entities s
           ++ [no_entity |> set_id (Some (random s (drawn s)))
               |> set_type (Some "rect"%string)
               |> set_start (Some {| x := Math_min [x p; x q];
                                     y := Math_min [y p; y q] |})
               |> set_width (Some (Math_abs w))
               |> set_height (Some (Math_abs h))]
      else entities s.
Proof.
  intros answer s p Htool Hstart. unfold handleMouseUp.
  rewrite Htool, Hstart. simpl.
  destruct (_ && _); reflexivity.
Qed.

(** C10.  On release the RECT tool leaves the entity list as it was or
    appends one rect.  The rect's width and height are the absolute
    extents of the drag, each above 5 and so above 0, and its start is
    [Math.min] of the two corners on each axis, which is one of the two
    coordinates and is below both.  A drag whose horizontal or vertical
    extent is 5 or less appends nothing. *)
Theorem rect_commit_is_normalized :
  forall answer (s : AppState (N:=float)) (p : Point),
    activeTool s = RECT -> drawingStart s = Some p ->
    let q := mousePos s in
    let w := (x q - x p)%js in
    let h := (y q - y p)%js in
    let lo (a b : float) (m : float) :=
      (m <= a)%js = true /\ (m <= b)%js = true /\ (m = a \/ m = b) in
    (entities (handleMouseUp answer s) = entities s
     \/ exists r,
         entities (handleMouseUp answer s) = entities s ++ [r]
         /\ r = Demo.rect (e_id r)
                  {| x := Math_min [x p; x q]; y := Math_min [y p; y q] |}
                  (Some (Math_abs w)) (Some (Math_abs h))
         /\ (Math_abs w > #5)%js = true /\ (Math_abs h > #5)%js = true
         /\ (Math_abs w > #0)%js = true /\ (Math_abs h > #0)%js = true
         /\ lo (x p) (x q) (Math_min [x p; x q])
         /\ lo (y p) (y q) (Math_min [y p; y q]))
    /\ ((Math_abs w <= #5)%js = true \/ (Math_abs h <= #5)%js = true ->
        entities (handleMouseUp answer s) = entities s).
Proof.
  intros answer s p Htool Hstart q w h lo.
  rewrite (rect_release _ _ _ Htool Hstart). fold q w h.
  destruct (Math_abs w > #5)%js eqn:Ew; cbn [andb]; cbv iota.
  2:{ split; [ now left | reflexivity ]. }
  destruct (Math_abs h > #5)%js eqn:Eh; cbv iota.
  2:{ split; [ now left | reflexivity ]. }
  split.
  - right. eexists. split; [ reflexivity | ].
    split; [ reflexivity | ]. split; [ reflexivity | ]. split; [ reflexivity | ].
    split; [ now apply Float64Facts.above_5_positive | ].
    split; [ now apply Float64Facts.above_5_positive | ].
    apply Float64Facts.above_5_not_NaN, Float64Facts.sub_not_NaN in Ew as [Xq Xp].
    apply Float64Facts.above_5_not_NaN, Float64Facts.sub_not_NaN in Eh as [Yq Yp].
    split; now apply Float64Facts.Math_min_pair.
  - intros [E | E]; apply Float64Facts.leb_not_ltb in E; congruence.
Qed.

Lemma rect_commit_is_normalized_witness :
  entities (handleMouseUp None
              (Demo.dragging RECT (Demo.pt 10 10) (Demo.pt 0 30)))
  <> []
  /\ (entities (handleMouseUp None
                  (Demo.dragging RECT (Demo.pt 0 0) (Demo.pt 5 30)))
      = []).
Proof.
  split.
  - vm_compute. discriminate.
  - exact (proj2 (rect_commit_is_normalized None
                    (Demo.dragging RECT (Demo.pt 0 0) (Demo.pt 5 30))
                    (Demo.pt 0 0) eq_refl eq_refl) (or_introl eq_refl)).
Defined.

(* ================================================================= *)
(** ** The action batch *)

(** C3, as the claim states it, fails: the batch with the one action
    [create_rect_no_height] changes the entity list. *)
Lemma rect_without_height_is_inserted :
  entities (applyActions [Demo.create_rect_no_height] Demo.idle)
  <> entities Demo.idle.
Proof. vm_compute. discriminate. Qed.

(** C3, amended.  A [create] of a rect is checked for [start] and
    [width] only: the action without [height] appends one rect, with a
    fresh identifier, start (0,0), width 10 and no height, to any entity
    list; the same action without [start], or without [width], is
    skipped and the list is unchanged. *)
Theorem rect_create_needs_start_and_width :
  forall s : AppState (N:=float),
    entities (applyActions [Demo.create_rect_no_height] s)
    = entities s
      ++ [Demo.rect (Some (random s (drawn s))) (Demo.pt 0 0)
            (Some (of_Z 10)) None]
    /\ entities (applyActions [set_start None Demo.create_rect_no_height] s)
       = entities s
    /\ entities (applyActions [set_width None Demo.create_rect_no_height] s)
       = entities s.
Proof. intros s. repeat split; reflexivity. Qed.

(* ================================================================= *)
(** ** Block authoring *)

Section Blocks.
Context {N : Type} `{JSNumber N}.

Lemma own_property_put_block :
  forall name (d : BlockDefinition (N:=N))
    (defs : list (string * BlockDefinition)),
    own_property (put_block name d defs) name = Some d.
Proof.
  intros name d defs. induction defs as [| [k d'] defs IH]; simpl.
  - now rewrite String.eqb_refl.
  - destruct (String.eqb k name) eqn:E; simpl; rewrite E; auto.
Qed.

Lemma no_selection_among_unselected :
  forall es : list (Entity (N:=N)),
    filter is_selected (filter (fun e => negb (is_selected e)) es) = [].
Proof.
  induction es as [| e es IH]; simpl; [ reflexivity | ].
  destruct (is_selected e) eqn:E; simpl; [ | rewrite E ]; exact IH.
Qed.

(** With nothing selected, [createBlock] only shows its first alert. *)
Lemma createBlock_empty_selection :
  forall answer (s : AppState),
    filter is_selected (entities s) = [] ->
    createBlock answer s
    = Some (s, Some "Select objects to create a block."%string).
Proof. intros answer s E. unfold createBlock. now rewrite E. Qed.

(** With a name that is taken, [createBlock] changes nothing. *)
Lemma createBlock_name_taken :
  forall name (s : AppState),
    has_block (blockDefs s) name = true ->
    exists msg, createBlock (Some name) s = Some (s, msg).
Proof.
  intros name s E. unfold createBlock.
  destruct (List.length _ =? 0)%nat; [ eauto | ].
  destruct name as [| c name]; simpl; [ eauto | ].
  rewrite E. eauto.
Qed.
End Blocks.

(** C4.  Let the selection be the one circle with center (50,50) and
    radius 20, and let the name B1 be free.  Then [createBlock] stores
    under B1 a definition with base point (50,50) whose only entity is
    the circle moved to center (0,0), without [id] and [selected]; the
    live list becomes its unselected entities followed by one selected
    insert of B1 at (50,50), which is then the whole selection.  With
    an empty selection, or with a name that is taken, the state is
    returned as it was. *)
Theorem createBlock_circle_scenario :
  forall (s : AppState (N:=float)) (i : option string),
    let c := Demo.circle i (Demo.pt 50 50) 20 |> set_selected (Some true) in
    let ins := Demo.insert (random s (drawn s)) "B1" (Demo.pt 50 50) in
    (filter is_selected (entities s) = [c] ->
     has_block (blockDefs s) "B1" = false ->
     exists s',
       createBlock (Some "B1"%string) s = Some (s', None)
       /\ own_property (blockDefs s') "B1"
          = Some {| b_name := "B1";
                    b_entities := [Demo.circle None (Demo.pt 0 0) 20];
                    b_basePoint := Demo.pt 50 50 |}
       /\ entities s'
          = filter (fun e => negb (is_selected e)) (entities s) ++ [ins]
       /\ filter is_selected (entities s') = [ins])
    /\ (filter is_selected (entities s) = [] ->
        forall answer, exists msg, createBlock answer s = Some (s, msg))
    /\ (forall name, has_block (blockDefs s) name = true ->
        exists msg, createBlock (Some name) s = Some (s, msg)).
Proof.
  intros s i c ins. split; [ | split ].
  - intros Hsel Hfree. unfold createBlock. rewrite Hsel. simpl.
    rewrite Hfree. eexists. split; [ reflexivity | ]. simpl.
    split; [ apply own_property_put_block | ]. split; [ reflexivity | ].
    rewrite filter_app, no_selection_among_unselected. reflexivity.
  - intros Hsel answer. rewrite (createBlock_empty_selection _ _ Hsel). eauto.
  - intros name. apply createBlock_name_taken.
Qed.

Lemma createBlock_circle_scenario_witness :
  let c := Demo.circle (Some "c"%string) (Demo.pt 50 50) 20
           |> set_selected (Some true) in
  let r := Demo.rect (Some "r"%string) (Demo.pt 0 0)
             (Some (of_Z 10)) (Some (of_Z 20)) in
  exists s',
    createBlock (Some "B1"%string) (setEntities [r; c] Demo.idle)
    = Some (s', None)
    /\ entities s' = [r; Demo.insert "e0" "B1" (Demo.pt 50 50)].
Proof.
  intros c r.
  destruct (proj1 (createBlock_circle_scenario
                     (setEntities [r; c] Demo.idle) (Some "c"%string))
              eq_refl eq_refl) as [s' [E [_ [L _]]]].
  exists s'. split; [ exact E | exact L ].
Defined.

(* ================================================================= *)
(** ** Zoom to extents *)

(** The last argument of [Math.min] bounds its result, [NaN] apart. *)
Lemma Math_min_capped :
  forall a b : float, (#5 < Math_min [a; b; #5])%js = false.
Proof.
  intros a b. unfold Math_min. simpl existsb.
  destruct (isNaN a); [ reflexivity | ].
  destruct (isNaN b); [ reflexivity | ].
  change (isNaN (N:=float) #5%js) with false. simpl orb. cbv iota.
  unfold fold_left.
  set (l := if (b < _)%js then b else _).
  change (is_neg_zero (N:=float) #5%js) with false. simpl andb. cbv iota.
  destruct (#5 < l)%js eqn:E; [ reflexivity | exact E ].
Qed.

(** C5, as the claim states it, fails: an arc carries no representative
    point, and with only an arc in the list the view is not reset to
    the default view but stays as it was. *)
Lemma zoomExtents_keeps_the_view_without_points :
  let s := Demo.idle
           |> setView {| v_x := of_Z 7; v_y := of_Z 7; v_zoom := of_Z 2 |}
           |> setEntities [Demo.arc "a" (Demo.pt 0 0) (Demo.pt 5 5) (Demo.pt 10 0)] in
  isFinite (minX (extentBounds (entities s))) = false
  /\ view (zoomExtents Demo.canvas s) = view s
  /\ view (zoomExtents Demo.canvas s) <> default_view.
Proof. vm_compute. repeat split; discriminate. Qed.

(** C5, amended.  With no entity the view is reset to the default
    view.  With entities whose bounding box has no finite [minX] the
    state, and so the view, is returned as it was.  Otherwise the zoom
    is [Math.min(scaleX, scaleY, 5)], which never exceeds 5. *)
Theorem zoomExtents_cases :
  forall (rect : DOMRect) (s : AppState (N:=float)),
    let b := extentBounds (entities s) in
    let scaleX := ((r_width rect - #50 * #2) / (maxX b - minX b))%js in
    let scaleY := ((r_height rect - #50 * #2) / (maxY b - minY b))%js in
    (entities s = [] -> view (zoomExtents rect s) = default_view)
    /\ (entities s <> [] -> isFinite (minX b) = false ->
        zoomExtents rect s = s)
    /\ (entities s <> [] -> isFinite (minX b) = true ->
        v_zoom (view (zoomExtents rect s)) = Math_min [scaleX; scaleY; #5%js]
        /\ (#5 < v_zoom (view (zoomExtents rect s)))%js = false).
Proof.
  intros rect s b scaleX scaleY. unfold zoomExtents. fold b.
  destruct (entities s) as [| e es] eqn:E.
  - split; [ reflexivity | ]. split; congruence.
  - split; [ discriminate | ]. simpl List.length. cbv iota beta.
    change (S (List.length es) =? 0)%nat with false. cbv iota.
    split; intros _ Hfin; rewrite Hfin; simpl negb; cbv iota.
    + reflexivity.
    + split; [ reflexivity | apply Math_min_capped ].
Qed.

Lemma zoomExtents_cases_witness :
  let s := setEntities [Demo.circle (Some "c"%string) (Demo.pt 50 50) 20] Demo.idle in
  v_zoom (view (zoomExtents Demo.canvas s)) = of_Z 5.
Proof.
  intros s.
  destruct (proj2 (proj2 (zoomExtents_cases Demo.canvas s))) as [Hz _].
  - discriminate.
  - reflexivity.
  - rewrite Hz. reflexivity.
Defined.

(* ================================================================= *)
(** ** The arc through three points *)

(** C8.  When the determinant of three given points is below 0.001 in
    absolute value, [getArcPath] answers the straight segment from the
    first point to the third, and every number of that path is finite:
    neither [NaN] nor an infinity. *)
Theorem collinear_arc_is_a_finite_segment :
  forall p1 p2 p3 : Point (N:=float),
    (Math_abs (arcD p1 p2 p3) < decimal 1 3)%js = true ->
    getArcPath (Some p1) (Some p2) (Some p3)
    = [MoveTo (x p1) (y p1); LineTo (x p3) (y p3)]
    /\ Forall (fun v => isFinite v = true)
         (flat_map path_numbers (getArcPath (Some p1) (Some p2) (Some p3))).
Proof.
  intros p1 p2 p3 E.
  assert (P : getArcPath (Some p1) (Some p2) (Some p3)
              = [MoveTo (x p1) (y p1); LineTo (x p3) (y p3)]).
  { unfold getArcPath. now rewrite E. }
  split; [ exact P | ]. rewrite P. simpl.
  pose proof (Float64Facts.collinear_inputs_finite _ _ _ E) as F.
  inversion_clear F as [| ? ? X1 F1]. inversion_clear F1 as [| ? ? Y1 F2].
  inversion_clear F2 as [| ? ? _ F3]. inversion_clear F3 as [| ? ? _ F4].
  inversion_clear F4 as [| ? ? X3 F5]. inversion_clear F5 as [| ? ? Y3 _].
  repeat constructor; assumption.
Qed.

Lemma collinear_arc_is_a_finite_segment_witness :
  getArcPath (Some (Demo.pt 0 0)) (Some (Demo.pt 5 0)) (Some (Demo.pt 10 0))
  = [MoveTo (of_Z 0) (of_Z 0); LineTo (of_Z 10) (of_Z 0)].
Proof.
  exact (proj1 (collinear_arc_is_a_finite_segment
                  (Demo.pt 0 0) (Demo.pt 5 0) (Demo.pt 10 0) eq_refl)).
Defined.

(* ================================================================= *)
(** ** Mirror *)

Section Mirror.
Local Open Scope js_scope.

Lemma mirrorCopy_mirrorable (a : xreal) (e : Entity) (i : string) :
  mirrorable e = true ->
  mirrorCopy a e i
  = Some (transform (mirrorPoint a) e
          |> set_id (Some i) |> set_selected (Some true)).
Proof.
  intros Hm. unfold mirrorCopy. rewrite jsonClone_exact.
  unfold mirrorable, regular, kind_of in Hm.
  unfold is_a in *. cbn [e_type set_id set_selected] in *.
  destruct e. unfold anchor in *. cbn -[same mirrorPoint] in *.
  split_tests Hm; try discriminate Hm; read_shape Hm; absent_fields;
    try reflexivity.
Qed.

Lemma mirrorPoint_exact (a u v : R) :
  mirrorPoint (Fin a) {| x := Fin u; y := Fin v |}
  = {| x := Fin (a - (u - a)); y := Fin v |}.
Proof. reflexivity. Qed.

Lemma checkX_reflect (a u : R) (b : xreal * xreal) :
  settledX b ->
  checkX (Fin (a - (u - a))) (reflectX a b) = reflectX a (checkX (Fin u) b)
  /\ settledX (checkX (Fin u) b).
Proof.
  intros [-> | [l [h ->]]]; unfold checkX; simpl.
  - split; [ reflexivity | right; eauto ].
  - unfold XReal.Rltb.
    split.
    + destruct (Rlt_dec u l), (Rlt_dec h u), (Rlt_dec (a - (u - a)) (a - (h - a))),
        (Rlt_dec (a - (l - a)) (a - (u - a))); simpl; try reflexivity; lra.
    + right. destruct (Rlt_dec u l), (Rlt_dec h u); eauto.
Qed.

Lemma fold_checkX_reflect (a : R) (ps : list Point) :
  forall b, forallb finite_point ps = true -> settledX b ->
    fold_left (fun b p => checkX (x p) b) (map (mirrorPoint (Fin a)) ps)
      (reflectX a b)
    = reflectX a (fold_left (fun b p => checkX (x p) b) ps b)
    /\ settledX (fold_left (fun b p => checkX (x p) b) ps b).
Proof.
  induction ps as [| p ps IH]; intros b Hf Hb; cbn [fold_left map].
  - auto.
  - cbn [forallb] in Hf. apply andb_prop in Hf as [Hp Hf]. finite_points.
    destruct (checkX_reflect a u b Hb) as [E S].
    rewrite mirrorPoint_exact. cbn [x]. rewrite E. now apply IH.
Qed.

Lemma mirrorCheck_reflect (a : R) (b : xreal * xreal) (e : Entity) :
  mirrorable e = true -> settledX b ->
  mirrorCheck (reflectX a b) (transform (mirrorPoint (Fin a)) e)
  = reflectX a (mirrorCheck b e)
  /\ settledX (mirrorCheck b e).
Proof.
  intros Hm Hb. unfold mirrorable, regular, kind_of in Hm.
  unfold is_a in *. unfold mirrorCheck.
  destruct e. unfold anchor in *. cbn -[same mirrorPoint] in *.
  split_tests Hm; try discriminate Hm; read_shape Hm; absent_fields;
    finite_points; unfold transform, anchor;
    cbn -[mirrorPoint checkX reflectX]; rewrite ?mirrorPoint_exact; cbn [x y].
  - destruct (checkX_reflect a u0 b Hb) as [E S]. rewrite E.
    apply (checkX_reflect a u _ S).
  - apply (checkX_reflect a u b Hb).
  - apply (checkX_reflect a u b Hb).
  - now apply fold_checkX_reflect.
  - auto.
Qed.

Section Drawing.
Context {N : Type} `{JSNumber N}.

Lemma map_drawing_total {A B} (f : A -> string -> option B)
  (g : A -> string -> B) (l : list A) :
  (forall a i, In a l -> f a i = Some (g a i)) ->
  forall s : AppState (N:=N),
    map_drawing f l s
    = Some (labelled g l (random s) (drawn s),
            set_drawn (drawn s + List.length l) s).
Proof.
  induction l as [| a l IH]; intros Hf s; simpl.
  - destruct s; unfold set_drawn; simpl. now rewrite Nat.add_0_r.
  - rewrite (Hf a _ (or_introl eq_refl)).
    rewrite IH by (intros; apply Hf; now right).
    destruct s; unfold set_drawn; simpl. do 3 f_equal. lia.
Qed.

Lemma no_selection_after_deselect (es : list (Entity (N:=N))) :
  filter is_selected (map deselect es) = [].
Proof.
  induction es as [| e es IH]; simpl; [ reflexivity | ].
  unfold deselect at 1. destruct (is_selected e) eqn:E; simpl.
  - exact IH.
  - rewrite E. exact IH.
Qed.

Lemma selected_labelled {A} (g : A -> string -> Entity (N:=N)) (l : list A)
  rnd :
  (forall a i, is_selected (g a i) = true) ->
  forall n, filter is_selected (labelled g l rnd n) = labelled g l rnd n.
Proof.
  intros Hg. induction l as [| a l IH]; intros n; simpl; [ reflexivity | ].
  now rewrite Hg, IH.
Qed.

Lemma labelled_length {A B} (g : A -> string -> B) (l : list A) rnd n :
  List.length (labelled g l rnd n) = List.length l.
Proof. revert n. induction l; intros n; simpl; auto. Qed.

Lemma selected_is_Some_true (e : Entity (N:=N)) :
  is_selected e = true -> e_selected e = Some true.
Proof. unfold is_selected. destruct (e_selected e) as [[ | ] | ]; congruence. Qed.
End Drawing.

Lemma finite_mirrored_points (a : R) (ps : list Point) :
  forallb finite_point ps = true ->
  forallb finite_point (map (mirrorPoint (Fin a)) ps) = true.
Proof.
  induction ps as [| p ps IH]; cbn [forallb map]; [ reflexivity | ].
  intros Hf. apply andb_prop in Hf as [Hp Hf]. finite_points.
  rewrite mirrorPoint_exact, IH by assumption.
  rewrite andb_true_r. apply finite_point_Fin. eauto.
Qed.

Lemma mirrored_twice_points (a : R) (ps : list Point) :
  forallb finite_point ps = true ->
  map (mirrorPoint (Fin a)) (map (mirrorPoint (Fin a)) ps) = ps.
Proof.
  induction ps as [| p ps IH]; cbn [forallb map]; [ reflexivity | ].
  intros Hf. apply andb_prop in Hf as [Hp Hf]. finite_points.
  rewrite !mirrorPoint_exact, IH by assumption.
  replace (a - (a - (u - a) - a))%R with u by lra. reflexivity.
Qed.

Lemma mirrorable_clone (a : R) (e : Entity) (i : string) :
  mirrorable e = true -> mirrorable (clone_of (Fin a) e i) = true.
Proof.
  intros Hm. pose proof Hm as Hm'. unfold clone_of.
  unfold mirrorable, regular, kind_of in *. unfold is_a in *.
  destruct e. unfold transform, anchor in *.
  cbn -[same mirrorPoint] in *.
  split_tests Hm; try discriminate Hm; read_shape Hm; absent_fields;
    finite_points; cbn -[same mirrorPoint] in *;
    rewrite ?mirrorPoint_exact; cbn [x y];
    rewrite ?finite_mirrored_points by assumption;
    repeat match goal with
           | |- context [finite_point {| x := Fin ?u; y := Fin ?v |}] =>
               replace (finite_point {| x := Fin u; y := Fin v |}) with true
                 by (symmetry; apply finite_point_Fin; eauto)
           end; reflexivity.
Qed.

Lemma clone_of_clone (a : R) (e : Entity) (i j : string) :
  mirrorable e = true ->
  clone_of (Fin a) (clone_of (Fin a) e i) j
  = e |> set_id (Some j) |> set_selected (Some true).
Proof.
  intros Hm. unfold clone_of.
  unfold mirrorable, regular, kind_of in *. unfold is_a in *.
  destruct e. unfold transform, anchor in *.
  cbn -[same mirrorPoint] in *.
  split_tests Hm; try discriminate Hm; read_shape Hm; absent_fields;
    finite_points; cbn -[same mirrorPoint] in *;
    rewrite ?mirrorPoint_exact; cbn [x y];
    rewrite ?mirrorPoint_exact; cbn [x y];
    rewrite ?mirrored_twice_points by assumption;
    repeat match goal with
           | |- context [Fin (?a - (?a - (?u - ?a) - ?a))] =>
               replace (a - (a - (u - a) - a))%R with u by lra
           end; reflexivity.
Qed.

Lemma mirrorCheck_clone (b : xreal * xreal) (a : xreal) (e : Entity) i :
  mirrorCheck b (clone_of a e i) = mirrorCheck b (transform (mirrorPoint a) e).
Proof. reflexivity. Qed.

Lemma mirrorBounds_clones (a : R) (l : list Entity) rnd :
  forallb mirrorable l = true ->
  forall b n, settledX b ->
    fold_left mirrorCheck (labelled (clone_of (Fin a)) l rnd n) (reflectX a b)
    = reflectX a (fold_left mirrorCheck l b)
    /\ settledX (fold_left mirrorCheck l b).
Proof.
  induction l as [| e l IH]; cbn [forallb labelled fold_left]; intros Hm b n Hb.
  - auto.
  - apply andb_prop in Hm as [He Hm].
    destruct (mirrorCheck_reflect a b e He Hb) as [E S].
    rewrite mirrorCheck_clone, E. now apply IH.
Qed.

Lemma mirrorable_clones (a : R) (l : list Entity) rnd :
  forallb mirrorable l = true ->
  forall n, forallb mirrorable (labelled (clone_of (Fin a)) l rnd n) = true.
Proof.
  induction l as [| e l IH]; cbn [forallb labelled]; intros Hm n.
  - reflexivity.
  - apply andb_prop in Hm as [He Hm]. now rewrite mirrorable_clone, IH.
Qed.

(** What [mirrorSelected] does to a state whose selection is
    mirrorable: nothing when the selection has no representative point,
    else it appends the clones about the midpoint of the interval. *)
Lemma mirrorSelected_mirrorable (s : AppState (N:=xreal)) :
  let sel := filter is_selected (entities s) in
  forallb mirrorable sel = true ->
  (mirrorBounds sel = (PInf, NInf) /\ mirrorSelected s = Some s)
  \/ exists l h,
       mirrorBounds sel = (Fin l, Fin h)
       /\ mirrorSelected s
          = Some (s |> set_drawn (drawn s + List.length sel)
                    |> setEntities
                         (map deselect (entities s)
                          ++ labelled (clone_of (Fin ((l + h) / 2))) sel
                               (random s) (drawn s))).
Proof.
  intros sel Hm. unfold mirrorSelected. fold sel.
  destruct (mirrorBounds_clones 0 sel (random s) Hm (PInf, NInf) 0
              (or_introl eq_refl)) as [_ S].
  change (fold_left mirrorCheck sel (PInf, NInf)) with (mirrorBounds sel) in S.
  destruct sel as [| e sel'] eqn:Esel.
  { left. split; reflexivity. }
  rewrite <- Esel in *. 
  replace (List.length sel =? 0)%nat with false by (rewrite Esel; reflexivity).
  destruct S as [-> | [l [h ->]]].
  - left. split; reflexivity.
  - right. exists l, h. split; [ reflexivity | ].
    replace (isFinite (Fin l)) with true
      by (symmetry; apply isFinite_Fin; eauto).
    cbn [negb].
    replace ((Fin l + Fin h) / #2) with (Fin ((l + h) / 2)).
    2:{ simpl. destruct (Req_dec_T 2 0); [ lra | reflexivity ]. }
    rewrite (map_drawing_total (mirrorCopy (Fin ((l + h) / 2)))
               (clone_of (Fin ((l + h) / 2)))).
    + reflexivity.
    + intros a i Ha. apply mirrorCopy_mirrorable.
      rewrite forallb_forall in Hm. now apply Hm.
Qed.

Lemma same_but_id_refl {N} `{JSNumber N} (es : list (Entity (N:=N))) :
  Forall2 same_but_id es es.
Proof.
  induction es as [| e es IH]; constructor; [ | exact IH ].
  destruct e; reflexivity.
Qed.

Lemma clones_of_clones (a : R) (l : list Entity) rnd rnd' :
  forallb mirrorable l = true ->
  forallb is_selected l = true ->
  forall n m,
    Forall2 same_but_id l
      (labelled (clone_of (Fin a)) (labelled (clone_of (Fin a)) l rnd n) rnd' m).
Proof.
  induction l as [| e l IH]; cbn [forallb labelled]; intros Hm Hs n m.
  - constructor.
  - apply andb_prop in Hm as [He Hm]. apply andb_prop in Hs as [Se Hs].
    constructor; [ | now apply IH ].
    rewrite clone_of_clone by assumption.
    apply selected_is_Some_true in Se. unfold same_but_id.
    destruct e; cbn in *. now rewrite Se.
Qed.

Lemma selection_is_selected {N} `{JSNumber N} (es : list (Entity (N:=N))) :
  forallb is_selected (filter is_selected es) = true.
Proof.
  apply forallb_forall. intros e He. now apply filter_In in He.
Qed.

Lemma selection_after_mirror {N} `{JSNumber N} (es : list (Entity (N:=N)))
  (l : list (Entity (N:=N))) (g : Entity (N:=N) -> string -> Entity (N:=N))
  rnd n :
  (forall e i, is_selected (g e i) = true) ->
  filter is_selected (map deselect es ++ labelled g l rnd n)
  = labelled g l rnd n.
Proof.
  intros Hg. now rewrite filter_app, no_selection_after_deselect, selected_labelled.
Qed.

(** C6, amended.  In exact arithmetic, let every selected entity be
    mirrorable: regular, and neither a rect nor a door.  Then mirroring,
    and mirroring again the clones that the first pass left selected,
    both succeed, and the clones of the clones are the entities of the
    original selection, in order, each equal to its original in every
    property but [id]: every x-coordinate is back and no y-coordinate
    has moved. *)
Theorem mirror_twice_restores_a_mirrorable_selection :
  forall s : AppState (N:=xreal),
    let sel := filter is_selected (entities s) in
    forallb mirrorable sel = true ->
    exists s1 s2,
      mirrorSelected s = Some s1 /\ mirrorSelected s1 = Some s2
      /\ Forall2 same_but_id sel (filter is_selected (entities s2)).
Proof.
  intros s sel Hm.
  destruct (mirrorSelected_mirrorable s Hm) as [[B E] | [l [h [B E]]]];
    fold sel in B, E.
  { exists s, s. repeat split; try assumption. apply same_but_id_refl. }
  set (a := ((l + h) / 2)%R) in *.
  set (C1 := labelled (clone_of (Fin a)) sel (random s) (drawn s)) in *.
  match type of E with _ = Some ?t => set (s1 := t) in * end.
  assert (Sel1 : filter is_selected (entities s1) = C1).
  { apply selection_after_mirror. reflexivity. }
  assert (Hm1 : forallb mirrorable (filter is_selected (entities s1)) = true).
  { rewrite Sel1. now apply mirrorable_clones. }
  assert (B1 : mirrorBounds (filter is_selected (entities s1))
               = (Fin (a - (h - a)), Fin (a - (l - a)))).
  { rewrite Sel1. unfold mirrorBounds.
    destruct (mirrorBounds_clones a sel (random s) Hm (PInf, NInf) (drawn s)
                (or_introl eq_refl)) as [R _].
    cbn [reflectX] in R. fold C1 in R.
    change (Infinity (N:=xreal), - Infinity (N:=xreal)) with (PInf, NInf).
    rewrite R. change (fold_left mirrorCheck sel (PInf, NInf)) with (mirrorBounds sel).
    rewrite B. reflexivity. }
  destruct (mirrorSelected_mirrorable s1 Hm1) as [[B' _] | [l' [h' [B' E']]]];
    rewrite B1 in B'; [ discriminate B' | ].
  injection B' as <- <-.
  replace ((a - (h - a) + (a - (l - a))) / 2)%R with a in E'
    by (unfold a; lra).
  rewrite Sel1 in E'.
  match type of E' with _ = Some ?t => set (s2 := t) in * end.
  exists s1, s2. split; [ exact E | ]. split; [ exact E' | ].
  unfold s2. cbn [entities setEntities set_drawn].
  rewrite selection_after_mirror by reflexivity.
  apply clones_of_clones; [ exact Hm | apply selection_is_selected ].
Qed.
End Mirror.

Lemma mirror_twice_restores_a_mirrorable_selection_witness :
  exists s1 s2,
    mirrorSelected ExactDemo.drawing = Some s1
    /\ mirrorSelected s1 = Some s2
    /\ Forall2 same_but_id [ExactDemo.wall] (filter is_selected (entities s2)).
Proof.
  apply (mirror_twice_restores_a_mirrorable_selection ExactDemo.drawing).
  unfold mirrorable, regular, kind_of, is_a, ExactDemo.drawing, ExactDemo.wall,
    ExactDemo.arc, ExactDemo.pt.
  cbn -[finite_point]. rewrite !finite_point_of_reals. reflexivity.
Defined.

(** C6, as the claim states it, fails, and not by rounding: a selected
    rect at (0,0), 10 wide, is mirrored about its own left edge, so its
    clone starts at x = -10 and the clone of the clone at x = -20,
    which is 20 away from the original 0. *)
Lemma mirror_twice_moves_a_rect :
  let r := Demo.rect (Some "r"%string) (Demo.pt 0 0)
             (Some (of_Z 10)) (Some (of_Z 20)) |> set_selected (Some true) in
  option_map (fun s => map e_start (filter is_selected (entities s)))
    (and_then (mirrorSelected (setEntities [r] Demo.idle)) mirrorSelected)
  = Some [Some (Demo.pt (-20) 0)]
  /\ (Math_abs (of_Z (-20) - of_Z 0 : float) > of_Z 1)%js = true.
Proof. split; vm_compute; reflexivity. Qed.

(* ================================================================= *)
(** ** Rotate *)

Section Rotate.
Local Open Scope js_scope.

Section Turning.
Context {N : Type} `{JSNumber N}.

Lemma map_throwing_total {A B} (f : A -> option B) (g : A -> B) (l : list A) :
  (forall a, In a l -> f a = Some (g a)) -> map_throwing f l = Some (map g l).
Proof.
  induction l as [| a l IH]; intros Hf; simpl; [ reflexivity | ].
  rewrite (Hf a (or_introl eq_refl)), IH by (intros; apply Hf; now right).
  reflexivity.
Qed.

Lemma transform_turn (f : Point -> Point) (e : Entity (N:=N)) :
  transform f (turn e) = turn (transform f e).
Proof.
  unfold turn, is_a. cbn [e_type transform].
  destruct (same (e_type e) (Some "door"%string)); reflexivity.
Qed.

Lemma turn_four_times (e : Entity (N:=N)) :
  same_but_rotation e (turn (turn (turn (turn e)))).
Proof.
  unfold same_but_rotation, turn, is_a.
  destruct (same (e_type e) (Some "door"%string)) eqn:E;
    cbn [e_type set_rotation]; rewrite ?E; cbn [e_type set_rotation];
    rewrite ?E; cbn [e_type set_rotation]; rewrite ?E; destruct e; reflexivity.
Qed.

Lemma transform_transform (f g : Point -> Point) (e : Entity (N:=N)) :
  transform f (transform g e) = transform (fun p => f (g p)) e.
Proof.
  destruct e. unfold transform, anchor. cbn.
  repeat match goal with
         | |- context [option_map _ (option_map _ ?o)] => destruct o; cbn
         end;
    rewrite ?map_map;
    destruct e_x0 as [u | ], e_y0 as [v | ]; cbn; try reflexivity;
    destruct (g {| x := u; y := v |}); reflexivity.
Qed.

Lemma transform_fixed (f : Point -> Point) (e : Entity (N:=N)) :
  (forall p, finite_point p = true -> f p = p) ->
  regular e = true -> transform f e = e.
Proof.
  intros Hf Hr. unfold regular, kind_of in Hr. unfold is_a in *.
  destruct e. unfold transform, anchor in *. cbn -[same] in *.
  assert (Hl : forall ps, forallb finite_point ps = true -> map f ps = ps).
  { induction ps as [| p ps IH]; cbn [forallb map]; [ reflexivity | ].
    intros E. apply andb_prop in E as [Ep E]. now rewrite Hf, IH. }
  split_tests Hr; read_shape Hr; absent_fields; cbn;
    rewrite ?Hf by assumption; rewrite ?Hl by assumption; reflexivity.
Qed.

Lemma is_selected_spin cx cy (e : Entity (N:=N)) :
  is_selected (spin cx cy e) = is_selected e.
Proof.
  unfold spin. destruct (is_selected e) eqn:E; [ | exact E ].
  unfold turn. destruct (is_a _ _); exact E.
Qed.

Lemma selection_after_spin cx cy (es : list (Entity (N:=N))) :
  filter is_selected (map (spin cx cy) es)
  = map (fun e => turn (transform (rotatePoint cx cy) e))
      (filter is_selected es).
Proof.
  induction es as [| e es IH]; simpl; [ reflexivity | ].
  rewrite is_selected_spin. destruct (is_selected e) eqn:E; simpl.
  - rewrite IH. unfold spin. now rewrite E.
  - exact IH.
Qed.

Lemma extentCheck_turn (b : Bounds) (e : Entity (N:=N)) :
  extentCheck b (turn e) = extentCheck b e.
Proof. unfold turn. destruct (is_a e "door"); reflexivity. Qed.
End Turning.

Lemma rotatePoint_exact (cx cy u v : R) :
  rotatePoint (Fin cx) (Fin cy) {| x := Fin u; y := Fin v |}
  = {| x := Fin (cx - (v - cy)); y := Fin (cy + (u - cx)) |}.
Proof.
  unfold rotatePoint. cbn -[cos sin PI]. rewrite cos_PI2, sin_PI2.
  f_equal; f_equal; lra.
Qed.

Lemma check_turned (cx cy u v : R) (b : Bounds) :
  settled b ->
  check (Fin (cx - (v - cy))) (Fin (cy + (u - cx))) (turned cx cy b)
  = turned cx cy (check (Fin u) (Fin v) b)
  /\ settled (check (Fin u) (Fin v) b).
Proof.
  intros [-> | [l [h [d [t ->]]]]]; unfold check; simpl.
  - split; [ reflexivity | right; eauto 6 ].
  - unfold XReal.Rltb. split.
    + destruct (Rlt_dec u l), (Rlt_dec h u), (Rlt_dec v d), (Rlt_dec t v);
        cbn [turned];
        repeat match goal with
               | |- context [Rlt_dec ?a ?b] => destruct (Rlt_dec a b); try lra
               end; reflexivity.
    + right. destruct (Rlt_dec u l), (Rlt_dec h u), (Rlt_dec v d), (Rlt_dec t v);
        eauto 6.
Qed.

Lemma check_points_turned (cx cy : R) (ps : list Point) :
  forall b, forallb finite_point ps = true -> settled b ->
    check_points (map (rotatePoint (Fin cx) (Fin cy)) ps) (turned cx cy b)
    = turned cx cy (check_points ps b)
    /\ settled (check_points ps b).
Proof.
  unfold check_points.
  induction ps as [| p ps IH]; intros b Hf Hb; cbn [fold_left map].
  - auto.
  - cbn [forallb] in Hf. apply andb_prop in Hf as [Hp Hf]. finite_points.
    destruct (check_turned cx cy u v b Hb) as [E S].
    rewrite rotatePoint_exact. cbn [x y]. rewrite E. now apply IH.
Qed.

Lemma extentCheck_turned (cx cy : R) (b : Bounds) (e : Entity) :
  rotatable e = true -> settled b ->
  extentCheck (turned cx cy b) (transform (rotatePoint (Fin cx) (Fin cy)) e)
  = turned cx cy (extentCheck b e)
  /\ settled (extentCheck b e).
Proof.
  intros Hm Hb. unfold rotatable, regular, kind_of in Hm.
  unfold is_a in *. unfold extentCheck.
  destruct e. unfold anchor in *. cbn -[same rotatePoint] in *.
  split_tests Hm; try discriminate Hm; read_shape Hm; absent_fields;
    finite_points; unfold transform, anchor;
    cbn -[rotatePoint check turned check_points];
    rewrite ?rotatePoint_exact; cbn [x y].
  - destruct (check_turned cx cy u0 v0 b Hb) as [E S]. rewrite E.
    apply (check_turned cx cy u v _ S).
  - apply (check_turned cx cy u v b Hb).
  - apply (check_turned cx cy u v b Hb).
  - apply (check_turned cx cy u v b Hb).
  - now apply check_points_turned.
  - auto.
Qed.

Lemma rotateEntity_rotatable (cx cy : xreal) (e : Entity) :
  is_selected e = true -> rotatable e = true ->
  rotateEntity cx cy e = Some (turn (transform (rotatePoint cx cy) e)).
Proof.
  intros Hs Hm. unfold rotateEntity. rewrite Hs. cbn [negb].
  rewrite jsonClone_exact. clear Hs.
  unfold rotatable, regular, kind_of in Hm. unfold turn.
  unfold is_a in *. cbn [e_type set_x set_y transform] in *.
  destruct e. unfold anchor in *. cbn -[same rotatePoint rem add] in *.
  split_tests Hm; try discriminate Hm; read_shape Hm; absent_fields;
    name_type; cbn -[rotatePoint rem add]; rewrite ?Heqb4; reflexivity.
Qed.

Lemma finite_rotated_points (cx cy : R) (ps : list Point) :
  forallb finite_point ps = true ->
  forallb finite_point (map (rotatePoint (Fin cx) (Fin cy)) ps) = true.
Proof.
  induction ps as [| p ps IH]; cbn [forallb map]; [ reflexivity | ].
  intros Hf. apply andb_prop in Hf as [Hp Hf]. finite_points.
  rewrite rotatePoint_exact, IH by assumption.
  rewrite andb_true_r. apply finite_point_Fin. eauto.
Qed.

Lemma rotatable_turn (e : Entity (N:=xreal)) : rotatable (turn e) = rotatable e.
Proof. unfold turn. destruct (is_a e "door"); reflexivity. Qed.

Lemma rotatable_turned (cx cy : R) (e : Entity) :
  rotatable e = true ->
  rotatable (turn (transform (rotatePoint (Fin cx) (Fin cy)) e)) = true.
Proof.
  intros Hm. rewrite rotatable_turn.
  unfold rotatable, regular, kind_of in *. unfold is_a in *.
  destruct e. unfold transform, anchor in *.
  cbn -[same rotatePoint] in *.
  split_tests Hm; try discriminate Hm; read_shape Hm; absent_fields;
    finite_points; cbn -[same rotatePoint] in *;
    rewrite ?rotatePoint_exact; cbn [x y];
    rewrite ?finite_rotated_points by assumption;
    repeat match goal with
           | |- context [finite_point {| x := Fin ?u; y := Fin ?v |}] =>
               replace (finite_point {| x := Fin u; y := Fin v |}) with true
                 by (symmetry; apply finite_point_Fin; eauto)
           end; reflexivity.
Qed.

Lemma four_quarter_turns (cx cy : R) (p : Point) :
  finite_point p = true ->
  rotatePoint (Fin cx) (Fin cy)
    (rotatePoint (Fin cx) (Fin cy)
       (rotatePoint (Fin cx) (Fin cy) (rotatePoint (Fin cx) (Fin cy) p)))
  = p.
Proof.
  intros Hp. finite_points. rewrite !rotatePoint_exact.
  f_equal; f_equal; lra.
Qed.

Lemma extentBounds_turned (cx cy : R) (l : list Entity) :
  forallb rotatable l = true ->
  forall b, settled b ->
    fold_left extentCheck
      (map (fun e => turn (transform (rotatePoint (Fin cx) (Fin cy)) e)) l)
      (turned cx cy b)
    = turned cx cy (fold_left extentCheck l b)
    /\ settled (fold_left extentCheck l b).
Proof.
  induction l as [| e l IH]; cbn [forallb map fold_left]; intros Hm b Hb.
  - auto.
  - apply andb_prop in Hm as [He Hm].
    destruct (extentCheck_turned cx cy b e He Hb) as [E S].
    rewrite extentCheck_turn, E. now apply IH.
Qed.

Lemma rotateSelected_degenerate (s : AppState (N:=xreal)) :
  extentBounds (filter is_selected (entities s)) = no_bounds ->
  rotateSelected s = Some s.
Proof.
  intros B. unfold rotateSelected. rewrite B.
  destruct (List.length _ =? 0)%nat; reflexivity.
Qed.

Lemma rotateSelected_centred (cx cy : R) (s : AppState (N:=xreal)) :
  centred cx cy s ->
  rotateSelected s
  = Some (setEntities (map (spin (Fin cx) (Fin cy)) (entities s)) s)
  /\ centred cx cy
       (setEntities (map (spin (Fin cx) (Fin cy)) (entities s)) s).
Proof.
  intros [Hm [l [h [d [u [B [Ex Ey]]]]]]].
  set (sel := filter is_selected (entities s)) in *.
  split.
  - unfold rotateSelected. fold sel. rewrite B.
    destruct sel as [| e0 sel'] eqn:Esel; [ discriminate B | ].
    rewrite <- Esel in *.
    replace (List.length sel =? 0)%nat with false by (rewrite Esel; reflexivity).
    cbn [minX maxX minY maxY].
    replace (isFinite (Fin l)) with true
      by (symmetry; apply isFinite_Fin; eauto).
    cbn [negb].
    replace ((Fin l + Fin h) / #2) with (Fin cx).
    2:{ simpl. destruct (Req_dec_T 2 0); [ lra | now rewrite Ex ]. }
    replace ((Fin d + Fin u) / #2) with (Fin cy).
    2:{ simpl. destruct (Req_dec_T 2 0); [ lra | now rewrite Ey ]. }
    rewrite (map_throwing_total (rotateEntity (Fin cx) (Fin cy))
               (spin (Fin cx) (Fin cy))); [ reflexivity | ].
    intros e He. unfold spin. destruct (is_selected e) eqn:Se.
    + apply rotateEntity_rotatable; [ exact Se | ].
      rewrite forallb_forall in Hm. apply Hm. unfold sel.
      apply filter_In. now split.
    + unfold rotateEntity. now rewrite Se.
  - unfold centred. cbn [entities setEntities].
    rewrite selection_after_spin. fold sel. split.
    + apply forallb_forall. intros e He. apply in_map_iff in He as [e' [<- He']].
      apply rotatable_turned. rewrite forallb_forall in Hm. now apply Hm.
    + destruct (extentBounds_turned cx cy sel Hm no_bounds (or_introl eq_refl))
        as [E _].
      change (turned cx cy no_bounds) with (no_bounds (N:=xreal)) in E.
      unfold extentBounds at 1. rewrite E.
      change (fold_left extentCheck sel no_bounds) with (extentBounds sel).
      rewrite B. cbn [turned]. do 4 eexists. split; [ reflexivity | ].
      split; lra.
Qed.

Lemma same_but_rotation_refl {N} `{JSNumber N} (e : Entity (N:=N)) :
  same_but_rotation e e.
Proof. destruct e; reflexivity. Qed.

Lemma four_spins (cx cy : R) (e : Entity) :
  (is_selected e = true -> rotatable e = true) ->
  same_but_rotation e
    (spin (Fin cx) (Fin cy)
       (spin (Fin cx) (Fin cy)
          (spin (Fin cx) (Fin cy) (spin (Fin cx) (Fin cy) e)))).
Proof.
  intros Hm. destruct (is_selected e) eqn:Se.
  - specialize (Hm eq_refl).
    assert (Sp : forall e', is_selected e' = true ->
                 spin (Fin cx) (Fin cy) e'
                 = turn (transform (rotatePoint (Fin cx) (Fin cy)) e')).
    { intros e' S'. unfold spin. now rewrite S'. }
    pose proof (is_selected_spin (Fin cx) (Fin cy)) as Ss.
    rewrite (Sp (spin _ _ (spin _ _ (spin _ _ e)))), (Sp (spin _ _ (spin _ _ e))),
      (Sp (spin _ _ e)), (Sp e) by (rewrite ?Ss; exact Se).
    rewrite !transform_turn, !transform_transform.
    rewrite transform_fixed.
    + apply turn_four_times.
    + intros p Hp. now apply four_quarter_turns.
    + unfold rotatable in Hm. now apply andb_prop in Hm as [Hm _].
  - assert (Sp : spin (Fin cx) (Fin cy) e = e) by (unfold spin; now rewrite Se).
    rewrite !Sp. apply same_but_rotation_refl.
Qed.

(** C7, amended.  In exact arithmetic, let every selected entity be
    rotatable: regular, and not a rect.  Then four rotations in a row
    succeed and return every entity of the list to its original value
    in every property but [rotation], which only a door has changed:
    every point is back where it was. *)
Theorem four_rotations_restore_a_rotatable_selection :
  forall s : AppState (N:=xreal),
    forallb rotatable (filter is_selected (entities s)) = true ->
    exists s1 s2 s3 s4,
      rotateSelected s = Some s1 /\ rotateSelected s1 = Some s2
      /\ rotateSelected s2 = Some s3 /\ rotateSelected s3 = Some s4
      /\ Forall2 same_but_rotation (entities s) (entities s4).
Proof.
  intros s Hm.
  destruct (extentBounds_turned 0 0 _ Hm no_bounds (or_introl eq_refl))
    as [_ [B | [l [h [d [u B]]]]]];
    change (fold_left extentCheck (filter is_selected (entities s)) no_bounds)
      with (extentBounds (filter is_selected (entities s))) in B.
  - pose proof (rotateSelected_degenerate s B) as E.
    exists s, s, s, s. do 4 (split; [ exact E | ]).
    generalize (entities s) as es.
    induction es as [| e es IH]; constructor;
      [ apply same_but_rotation_refl | exact IH ].
  - set (cx := ((l + h) / 2)%R). set (cy := ((d + u) / 2)%R).
    assert (C0 : centred cx cy s).
    { split; [ exact Hm | ]. exists l, h, d, u. repeat split; exact B. }
    destruct (rotateSelected_centred cx cy s C0) as [E1 C1].
    destruct (rotateSelected_centred cx cy _ C1) as [E2 C2].
    destruct (rotateSelected_centred cx cy _ C2) as [E3 C3].
    destruct (rotateSelected_centred cx cy _ C3) as [E4 _].
    do 4 eexists. split; [ exact E1 | ]. split; [ exact E2 | ].
    split; [ exact E3 | ]. split; [ exact E4 | ].
    cbn [entities setEntities].
    assert (Hr : forall e, In e (entities s) ->
                 is_selected e = true -> rotatable e = true).
    { intros e He Se. rewrite forallb_forall in Hm. apply Hm.
      apply filter_In. now split. }
    revert Hr. generalize (entities s) as es.
    induction es as [| e es IH]; intros Hr; cbn [map]; constructor.
    + apply four_spins. apply Hr. now left.
    + apply IH. intros e' He'. apply Hr. now right.
Qed.
End Rotate.

Lemma four_rotations_restore_a_rotatable_selection_witness :
  exists s1 s2 s3 s4,
    rotateSelected ExactDemo.drawing = Some s1 /\ rotateSelected s1 = Some s2
    /\ rotateSelected s2 = Some s3 /\ rotateSelected s3 = Some s4
    /\ Forall2 same_but_rotation [ExactDemo.arc; ExactDemo.wall] (entities s4).
Proof.
  apply (four_rotations_restore_a_rotatable_selection ExactDemo.drawing).
  unfold rotatable, regular, kind_of, is_a, ExactDemo.drawing, ExactDemo.wall,
    ExactDemo.arc, ExactDemo.pt.
  cbn -[finite_point]. rewrite !finite_point_of_reals. reflexivity.
Defined.

(** C7, as the claim states it, fails, and not by rounding: a selected
    rect at (0,0), 10 wide and 20 high, is turned about its own corner,
    and after four rotations it starts at (-60,0), which is 60 away
    from the original, with its width and height as before. *)
Lemma four_rotations_move_a_rect :
  let r := Demo.rect (Some "r"%string) (Demo.pt 0 0)
             (Some (of_Z 10)) (Some (of_Z 20)) |> set_selected (Some true) in
  let rotate s := and_then s rotateSelected in
  option_map (fun s => map (fun e => (e_start e, e_width e, e_height e))
                         (entities s))
    (rotate (rotate (rotate (rotateSelected (setEntities [r] Demo.idle)))))
  = Some [(Some (Demo.pt (-60) 0), Some (of_Z 10), Some (of_Z 20))]
  /\ (Math_abs (of_Z (-60) - of_Z 0 : float) > of_Z 1)%js = true.
Proof. split; vm_compute; reflexivity. Qed.

(* ================================================================= *)
(** ** Facts for the rest of the engine *)

Section StringFacts.
Lemma same_refl (a : option string) : same a a = true.
Proof. destruct a; simpl; [ apply String.eqb_refl | reflexivity ]. Qed.

Lemma same_eq (a b : option string) : same a b = true -> a = b.
Proof.
  destruct a, b; simpl; try discriminate; [ | reflexivity ].
  intros E. apply String.eqb_eq in E. now subst.
Qed.
End StringFacts.

(** Arithmetic on finite exact numbers, one step. *)
Ltac exact_arith :=
  cbn [sub add opp mul exact_number XReal.sub XReal.add XReal.opp XReal.mul
         x y v_x v_y v_zoom].

(* ================================================================= *)
(** ** Copy and delete *)

(** Name the value of the outermost [let] of the goal. *)
Ltac name_let c :=
  match goal with
  | |- context G [let x := ?v in @?f x] =>
      let c' := fresh c in
      pose (c' := v);
      let t := eval cbv beta in (f c') in
      let g := context G [t] in
      change g
  end.

Section Copying.
Context {N : Type} `{JSNumber N}.
Local Open Scope js_scope.

(** What [map_drawing] returns when no call throws: the [k]-th result
    is made with the [k]-th identifier from [drawn] on. *)
Lemma map_drawing_Some {A B} (f : A -> string -> option B) (l : list A) :
  forall (s s' : AppState (N:=N)) bs,
    map_drawing f l s = Some (bs, s') ->
    map Some bs = labelled f l (random s) (drawn s)
    /\ s' = set_drawn (drawn s + List.length l) s.
Proof.
  induction l as [| a l IH]; intros s s' bs; simpl.
  - intros [= <- <-]. split; [ reflexivity | ].
    destruct s; unfold set_drawn; simpl. now rewrite Nat.add_0_r.
  - destruct (f a (random s (drawn s))) as [b | ] eqn:Eb; [ | discriminate ].
    destruct (map_drawing f l _) as [[bs' s''] | ] eqn:E; [ | discriminate ].
    intros [= <- <-]. apply IH in E as [E ->]. simpl in *.
    rewrite E. split; [ reflexivity | ].
    destruct s; unfold set_drawn; simpl. f_equal. lia.
Qed.

Lemma map_drawing_None {A B} (f : A -> string -> option B) (l : list A) :
  forall s : AppState (N:=N),
    map_drawing f l s = None <-> In None (labelled f l (random s) (drawn s)).
Proof.
  induction l as [| a l IH]; intros s; simpl.
  - split; [ discriminate | tauto ].
  - destruct (f a (random s (drawn s))) as [b | ] eqn:Eb.
    + destruct (map_drawing f l _) as [[bs' s''] | ] eqn:E.
      * split; [ discriminate | ]. intros [X | X]; [ discriminate | ].
        apply (IH (set_drawn (S (drawn s)) s)) in X. congruence.
      * split; [ intros _ | reflexivity ]. right.
        now apply (IH (set_drawn (S (drawn s)) s)).
    + split; [ now left | reflexivity ].
Qed.

Lemma copyEntity_selected offset (e c : Entity (N:=N)) i :
  copyEntity offset e i = Some c -> e_selected c = Some true /\ e_id c = Some i.
Proof.
  cbv beta delta [copyEntity]. name_let move.
  name_let c0.
  assert (P : e_selected c0 = Some true /\ e_id c0 = Some i)
    by (split; reflexivity).
  clearbody c0.
  do 5 (let c' := fresh "c" in
        name_let c';
        match goal with
        | c' := match ?o with Some _ => _ | None => _ end |- _ =>
            assert (e_selected c' = Some true /\ e_id c' = Some i)
              by (subst c'; destruct o; assumption);
            clearbody c'
        end;
        clear P; rename H0 into P).
  cbv zeta.
  match goal with
  | |- context [e_p1 ?c] =>
      destruct (e_p1 c); [ destruct (e_p2 c); [ destruct (e_p3 c) | ] | ]
  end; intros E; try discriminate E; injection E as <-;
    destruct (e_insertPoint _); exact P.
Qed.

Lemma copyEntity_None offset (e : Entity (N:=N)) i :
  copyEntity offset e i = None <-> partial_arc e = true.
Proof.
  cbv beta delta [copyEntity]. name_let move.
  name_let c0.
  assert (P : partial_arc c0 = partial_arc e)
    by (unfold partial_arc; subst c0; simpl;
        destruct (e_p1 e), (e_p2 e), (e_p3 e); reflexivity).
  clearbody c0.
  do 5 (let c' := fresh "c" in
        name_let c';
        match goal with
        | c' := match ?o with Some _ => _ | None => _ end |- _ =>
            assert (partial_arc c' = partial_arc e)
              by (subst c'; destruct o; assumption);
            clearbody c'
        end;
        clear P; rename H0 into P).
  cbv zeta. rewrite <- P. unfold partial_arc.
  match goal with
  | |- context [e_p1 ?c] =>
      destruct (e_p1 c); [ destruct (e_p2 c); [ destruct (e_p3 c) | ] | ]
  end; simpl; split; congruence.
Qed.

Lemma copies_are_selected offset rnd (l : list (Entity (N:=N))) :
  forall bs n,
    map Some bs = labelled (copyEntity offset) l rnd n ->
    filter is_selected bs = bs
    /\ filter (fun e => negb (is_selected e)) bs = []
    /\ map e_id bs = map (fun k => Some (rnd k)) (seq n (List.length l)).
Proof.
  induction l as [| a l IH]; intros [| b bs] n; simpl; try discriminate.
  - auto.
  - intros [= E1 E2]. symmetry in E1. apply copyEntity_selected in E1 as [S I].
    apply IH in E2 as [E2 [E3 E4]].
    assert (Sb : is_selected b = true) by (unfold is_selected; now rewrite S).
    rewrite Sb, I, E2, E3, E4. auto.
Qed.

Lemma deselected_are_kept (es : list (Entity (N:=N))) :
  filter (fun e => negb (is_selected e)) (map (set_selected (Some false)) es)
  = map (set_selected (Some false)) es.
Proof. induction es as [| e es IH]; simpl; [ | rewrite IH ]; reflexivity. Qed.

Lemma nothing_selected_among_deselected (es : list (Entity (N:=N))) :
  filter is_selected (map (set_selected (Some false)) es) = [].
Proof. induction es as [| e es IH]; simpl; [ | rewrite IH ]; reflexivity. Qed.

(** When [copySelected] returns, deleting the selection next
    removes exactly the copies: the entity list is the one before the
    copy, in the same order, with every entity marked unselected. *)
Theorem delete_after_copy_restores_the_drawing :
  forall s s1 : AppState (N:=N),
    copySelected s = Some s1 ->
    entities (deleteSelected s1)
    = map (set_selected (Some false)) (entities s).
Proof.
  intros s s1. unfold copySelected.
  destruct (map_drawing _ _ _) as [[copies s'] | ] eqn:E; [ | discriminate ].
  intros [= <-]. apply map_drawing_Some in E as [E _].
  apply copies_are_selected in E as [_ [E _]].
  unfold deleteSelected. cbn [entities setEntities].
  now rewrite filter_app, deselected_are_kept, E, app_nil_r.
Qed.

(** When [copySelected] returns, the list is the old entities, all
    marked unselected, followed by one copy for each entity that was
    selected; the copies are exactly the new selection, and their
    identifiers are the next ones that [generateId] yields, in order. *)
Theorem copies_are_the_new_selection :
  forall s s1 : AppState (N:=N),
    copySelected s = Some s1 ->
    let n := List.length (filter is_selected (entities s)) in
    let copies := filter is_selected (entities s1) in
    entities s1 = map (set_selected (Some false)) (entities s) ++ copies
    /\ map e_id copies = map (fun k => Some (random s k)) (seq (drawn s) n)
    /\ drawn s1 = (drawn s + n)%nat.
Proof.
  intros s s1. unfold copySelected.
  destruct (map_drawing _ _ _) as [[copies s'] | ] eqn:E; [ | discriminate ].
  intros [= <-]. apply map_drawing_Some in E as [E ->].
  apply copies_are_selected in E as [E [_ I]].
  cbn [entities setEntities set_drawn drawn].
  rewrite filter_app, nothing_selected_among_deselected, E. cbn [app].
  auto.
Qed.

(** [copySelected] throws exactly when a selected entity has [p1]
    but lacks [p2] or [p3]. *)
Theorem copySelected_throws_on_a_partial_arc :
  forall s : AppState (N:=N),
    copySelected s = None
    <-> existsb partial_arc (filter is_selected (entities s)) = true.
Proof.
  intros s. unfold copySelected.
  destruct (map_drawing _ _ _) as [[copies s'] | ] eqn:E.
  - split; [ discriminate | ]. intros X. exfalso.
    assert (Q : map_drawing (copyEntity (#20 / v_zoom (view s)))
                  (filter is_selected (entities s)) s <> None) by congruence.
    apply Q, map_drawing_None. clear E Q.
    revert X. generalize (drawn s) as n.
    induction (filter is_selected (entities s)) as [| a l IH]; intros n; simpl;
      [ discriminate | ].
    destruct (partial_arc a) eqn:A; simpl.
    + intros _. left. now apply copyEntity_None.
    + intros X. right. now apply IH.
  - split; [ intros _ | reflexivity ].
    apply map_drawing_None in E. revert E. generalize (drawn s) as n.
    induction (filter is_selected (entities s)) as [| a l IH]; intros n; simpl;
      [ tauto | ].
    intros [X | X].
    + apply copyEntity_None in X. now rewrite X.
    + apply IH in X. rewrite X. apply orb_true_r.
Qed.
End Copying.

(** The selected wall copied, then the copy deleted. *)
Lemma delete_after_copy_restores_the_drawing_witness :
  exists s1,
    copySelected (Scenes.drawing [Scenes.picked]) = Some s1
    /\ entities (deleteSelected s1) = [set_selected (Some false) Scenes.wall].
Proof.
  destruct (copySelected (Scenes.drawing [Scenes.picked])) as [s1 | ] eqn:E;
    [ | vm_compute in E; discriminate E ].
  exists s1. split; [ reflexivity | ].
  rewrite (delete_after_copy_restores_the_drawing _ _ E). reflexivity.
Defined.

Lemma copies_are_the_new_selection_witness :
  exists s1,
    copySelected (Scenes.drawing [Scenes.picked]) = Some s1
    /\ map e_id (filter is_selected (entities s1)) = [Some "e0"%string]
    /\ drawn s1 = 1.
Proof.
  destruct (copySelected (Scenes.drawing [Scenes.picked])) as [s1 | ] eqn:E;
    [ | vm_compute in E; discriminate E ].
  exists s1. split; [ reflexivity | ].
  exact (proj2 (copies_are_the_new_selection _ _ E)).
Defined.

(** An arc that has only [p1] cannot be copied. *)
Lemma copySelected_throws_on_a_partial_arc_witness :
  copySelected (Scenes.drawing [Scenes.broken_arc]) = None.
Proof.
  apply (proj2 (copySelected_throws_on_a_partial_arc
                  (Scenes.drawing [Scenes.broken_arc]))).
  reflexivity.
Defined.

(* ================================================================= *)
(** ** Gestures *)

Section Gestures.
Context {N : Type} `{JSNumber N}.

Lemma polyline_press (e : MouseEvent) rect answer (s : AppState (N:=N)) :
  activeTool s = POLYLINE -> button e <> 1%Z ->
  handleMouseDown e rect answer s
  = Some (setTempPoints (tempPoints s ++ [pointer e rect (view s)]) s).
Proof.
  intros Htool Hbtn. unfold handleMouseDown.
  apply Z.eqb_neq in Hbtn. now rewrite Hbtn, Htool.
Qed.

Lemma polyline_presses (es : list MouseEvent) rect :
  forall s : AppState (N:=N),
    activeTool s = POLYLINE -> Forall (fun e => button e <> 1%Z) es ->
    presses es rect s
    = Some (setTempPoints
              (tempPoints s ++ map (fun e => pointer e rect (view s)) es) s).
Proof.
  unfold presses.
  induction es as [| e es IH]; intros s Htool Hbtn; simpl.
  - rewrite app_nil_r. now destruct s.
  - inversion_clear Hbtn as [| ? ? Hb Hbs]. 
    rewrite polyline_press by assumption. rewrite IH by assumption.
    simpl. now rewrite <- app_assoc.
Qed.

(** With the POLYLINE tool armed and nothing buffered, two or
    more presses, none with the middle button, followed by the context
    menu append one polyline whose points are the pressed world
    positions in order; the buffer is empty again and the tool is still
    armed.  The Enter key does what the context menu does. *)
Theorem polyline_runs_through_the_pressed_points :
  forall (es : list MouseEvent) rect (s : AppState (N:=N)),
    activeTool s = POLYLINE -> tempPoints s = [] ->
    Forall (fun e => button e <> 1%Z) es -> 2 <= List.length es ->
    exists s',
      presses es rect s = Some s'
      /\ handleContextMenu s'
         = (s |> set_drawn (S (drawn s))
              |> setEntities
                   (entities s
                    ++ [no_entity
                        |> set_id (Some (random s (drawn s)))
                        |> set_type (Some "polyline"%string)
                        |> set_points
                             (Some (map (fun e => pointer e rect (view s))
                                      es))]))
      /\ handleKeyDown "Enter" s' = handleContextMenu s'.
Proof.
  intros es rect s Htool Hbuf Hbtn Hlen.
  rewrite polyline_presses by assumption. eexists. split; [ reflexivity | ].
  rewrite Hbuf. cbn [app].
  unfold handleContextMenu, handleKeyDown. cbn -[Nat.ltb].
  rewrite Htool. cbn -[Nat.ltb]. rewrite length_map.
  replace (1 <? List.length es)%nat with true
    by (symmetry; apply Nat.ltb_lt; lia).
  split; [ | reflexivity ].
  unfold commitPolyline. destruct s. cbn in *. now subst.
Qed.

(** Cancelling.  The Escape key drops the buffered points and
    the anchor of the gesture under way and goes back to the SELECT
    tool with no block armed; the context menu does the same unless it
    commits a polyline, that is, unless the POLYLINE tool has two or
    more points buffered, and the Enter key then changes nothing.  A
    release of the button after the cancellation adds no entity. *)
Theorem cancelling_a_gesture :
  forall answer (s : AppState (N:=N)),
    let idle := s |> setTempPoints [] |> setDrawingStart None
                  |> setActiveTool SELECT |> setActiveBlockName None in
    handleKeyDown "Escape" s = idle
    /\ (activeTool s <> POLYLINE \/ List.length (tempPoints s) <= 1 ->
        handleContextMenu s = idle /\ handleKeyDown "Enter" s = s)
    /\ entities (handleMouseUp answer idle) = entities s
    /\ drawingStart (handleMouseUp answer idle) = None.
Proof.
  intros answer s idle. split; [ reflexivity | ].
  split; [ | split; reflexivity ].
  intros Hc. unfold handleContextMenu, handleKeyDown. cbn -[Nat.ltb].
  replace (ToolType_eqb (activeTool s) POLYLINE
           && (1 <? List.length (tempPoints s))%nat) with false.
  - split; reflexivity.
  - symmetry. destruct Hc as [Hc | Hc].
    + destruct (activeTool s); try reflexivity. congruence.
    + replace (1 <? List.length (tempPoints s))%nat with false
        by (symmetry; apply Nat.ltb_ge; lia).
      apply andb_false_r.
Qed.

Lemma circle_release answer (s : AppState (N:=N)) (p : Point) :
  activeTool s = CIRCLE -> drawingStart s = Some p ->
  entities (handleMouseUp answer s)
  = (if (dist p (mousePos s) > #5)%js
     then entities s
          ++ [no_entity
              |> set_id (Some (random s (drawn s)))
              |> set_type (Some "circle"%string)
              |> set_center (Some p)
              |> set_radius (Some (dist p (mousePos s)))]
     else entities s)
  /\ drawingStart (handleMouseUp answer s) = None.
Proof.
  intros Htool Hstart. unfold handleMouseUp. rewrite Htool, Hstart.
  destruct (dist p (mousePos s) > #5)%js; split; reflexivity.
Qed.

(** A circle is drawn by press, move and release.  With the
    CIRCLE tool armed, a press with a button other than the middle one
    anchors the center at the pressed world position, a move records the
    pointer's world position, and the release appends the circle with
    that center through that position when its radius is above 5, and
    nothing otherwise. *)
Theorem circle_gesture :
  forall (e1 : MouseEvent) (e2 : MoveEvent) rect answer (s : AppState (N:=N)),
    activeTool s = CIRCLE -> button e1 <> 1%Z ->
    let c := pointer e1 rect (view s) in
    let q := pointer (m_mouse e2) rect (view s) in
    exists s1 s2,
      handleMouseDown e1 rect answer s = Some s1
      /\ handleMouseMove e2 rect s1 = Some s2
      /\ drawingStart s2 = Some c /\ mousePos s2 = q
      /\ entities (handleMouseUp answer s2)
         = (if (dist c q > #5)%js
            then entities s
                 ++ [no_entity
                     |> set_id (Some (random s (drawn s)))
                     |> set_type (Some "circle"%string)
                     |> set_center (Some c)
                     |> set_radius (Some (dist c q))]
            else entities s)
      /\ drawingStart (handleMouseUp answer s2) = None.
Proof.
  intros e1 e2 rect answer s Htool Hbtn c q.
  apply Z.eqb_neq in Hbtn.
  unfold handleMouseDown. rewrite Hbtn, Htool. cbn [orb ToolType_eqb].
  cbv iota. eexists. eexists. split; [ reflexivity | ].
  unfold handleMouseMove. cbn [activeTool setDrawingStart setMousePos
    dragStart isDragging ToolType_eqb]. rewrite Htool.
  cbn [ToolType_eqb]. rewrite andb_false_r.
  split; [ destruct (dragStart s); reflexivity | ].
  split; [ reflexivity | ]. split; [ reflexivity | ].
  exact (circle_release answer
           (s |> setDrawingStart (Some c) |> setMousePos q) c Htool eq_refl).
Qed.
End Gestures.

(** Two presses and the context menu. *)
Lemma polyline_runs_through_the_pressed_points_witness :
  exists s',
    presses [Demo.press 0 0; Demo.press 10 20] Demo.canvas
      (Scenes.armed POLYLINE) = Some s'
    /\ map e_points (entities (handleContextMenu s'))
       = [Some [Demo.pt 0 0; Demo.pt 10 20]].
Proof.
  destruct (polyline_runs_through_the_pressed_points
              [Demo.press 0 0; Demo.press 10 20] Demo.canvas
              (Scenes.armed POLYLINE) eq_refl eq_refl)
    as [s' [E [C _]]].
  - repeat constructor; discriminate.
  - simpl. lia.
  - exists s'. split; [ exact E | ]. rewrite C. vm_compute. reflexivity.
Defined.

(** The context menu under the WALL tool, in the middle of a wall. *)
Lemma cancelling_a_gesture_witness :
  let s := Demo.dragging WALL (Demo.pt 0 0) (Demo.pt 50 0) in
  handleContextMenu s = handleKeyDown "Escape" s
  /\ entities (handleMouseUp None (handleContextMenu s)) = [].
Proof.
  intros s.
  destruct (cancelling_a_gesture None s) as [E [C [R _]]].
  destruct C as [C _]; [ left; discriminate | ].
  rewrite C, E. split; [ reflexivity | exact R ].
Defined.

(** A circle from (0,0) through (30,40): its radius is 50. *)
Lemma circle_gesture_witness :
  exists s1 s2,
    handleMouseDown (Demo.press 0 0) Demo.canvas None (Scenes.armed CIRCLE)
    = Some s1
    /\ handleMouseMove (Scenes.move 30 40 0) Demo.canvas s1 = Some s2
    /\ entities (handleMouseUp None s2)
       = [Demo.circle (Some "e0"%string) (Demo.pt 0 0) 50].
Proof.
  destruct (circle_gesture (Demo.press 0 0) (Scenes.move 30 40 0) Demo.canvas
              None (Scenes.armed CIRCLE) eq_refl)
    as [s1 [s2 [E1 [E2 [_ [_ [R _]]]]]]]; [ discriminate | ].
  exists s1, s2. split; [ exact E1 | ]. split; [ exact E2 | ].
  rewrite R. vm_compute. reflexivity.
Defined.

(* ================================================================= *)
(** ** Selection by click *)

Section Picking.
Context {N : Type} `{JSNumber N}.

Lemma find_throwing_In (f : Entity (N:=N) -> option bool) (l : list Entity) h :
  find_throwing f l = Some (Some h) -> In h l.
Proof.
  induction l as [| a l IH]; simpl; [ discriminate | ].
  destruct (f a) as [[ | ] | ]; [ | | discriminate ].
  - intros [= ->]. now left.
  - intros E. right. now apply IH.
Qed.

Lemma find_throwing_map (f : Entity (N:=N) -> option bool) g (l : list Entity) :
  (forall a, f (g a) = f a) ->
  find_throwing f (map g l) = option_map (option_map g) (find_throwing f l).
Proof.
  intros Hg. induction l as [| a l IH]; simpl; [ reflexivity | ].
  rewrite Hg. destruct (f a) as [[ | ] | ]; auto.
Qed.

(** The entities that share the identifier of [h], when identifiers
    are distinct. *)
Lemma only_one_has_the_id (l : list (Entity (N:=N))) h :
  NoDup (map e_id l) -> In h l ->
  filter (fun en => same (e_id en) (e_id h)) l = [h].
Proof.
  induction l as [| a l IH]; simpl; [ tauto | ].
  intros D. inversion_clear D as [| ? ? Ha D']. intros [-> | Hin].
  - rewrite same_refl. f_equal.
    clear IH D'. induction l as [| b l IH]; simpl; [ reflexivity | ].
    destruct (same (e_id b) (e_id h)) eqn:E.
    + apply same_eq in E. exfalso. apply Ha. simpl. now left.
    + apply IH. intros X. apply Ha. simpl. now right.
  - destruct (same (e_id a) (e_id h)) eqn:E.
    + apply same_eq in E. exfalso. apply Ha. rewrite E. now apply in_map.
    + now apply IH.
Qed.

Lemma selected_by_id (l : list (Entity (N:=N))) (i : option string) :
  filter is_selected
    (map (fun en => set_selected (Some (same (e_id en) i)) en) l)
  = map (set_selected (Some true)) (filter (fun en => same (e_id en) i) l).
Proof.
  induction l as [| a l IH]; simpl; [ reflexivity | ].
  unfold is_selected at 1. cbn [e_selected set_selected].
  destruct (same (e_id a) i) eqn:E; simpl; now rewrite IH.
Qed.

Lemma nothing_selected (l : list (Entity (N:=N))) :
  filter is_selected (map (fun en => set_selected (Some false) en) l) = [].
Proof. induction l as [| a l IH]; simpl; [ | rewrite IH ]; reflexivity. Qed.

Lemma drop_selected_twice (v w : option bool) (a : Entity (N:=N)) :
  set_selected v (set_selected w a) = set_selected v a.
Proof. reflexivity. Qed.

(** A plain click under the SELECT tool replaces the selection:
    when [find] yields the entity [h], the selected entities are
    afterwards those with the identifier of [h], which is [h] alone when
    identifiers are distinct; when it yields nothing, no entity is
    selected.  Only [selected] changes, in any entity. *)
Theorem plain_click_replaces_the_selection :
  forall (e : MouseEvent) rect answer (s : AppState (N:=N)) hit,
    activeTool s = SELECT -> ctrlKey e = false ->
    find_throwing (hitTest (pointer e rect (view s))) (entities s)
    = Some hit ->
    exists s',
      handleMouseDown e rect answer s = Some s'
      /\ map (set_selected None) (entities s')
         = map (set_selected None) (entities s)
      /\ match hit with
         | Some h =>
             filter is_selected (entities s')
             = map (set_selected (Some true))
                 (filter (fun en => same (e_id en) (e_id h)) (entities s))
             /\ (NoDup (map e_id (entities s)) ->
                 filter is_selected (entities s')
                 = [set_selected (Some true) h])
         | None => filter is_selected (entities s') = []
         end.
Proof.
  intros e rect answer s hit Htool Hctrl Hfind. unfold handleMouseDown.
  rewrite Htool, orb_true_r. cbn [activeTool setIsDragging setDragStart
    entities ToolType_eqb]. rewrite Htool. cbn [ToolType_eqb].
  fold (pointer e rect (view s)). rewrite Hfind, Hctrl.
  eexists. split; [ reflexivity | ]. cbn [entities setEntities].
  split.
  - rewrite map_map. apply map_ext. reflexivity.
  - destruct hit as [h | ].
    + assert (E : filter is_selected
                    (map (fun en => set_selected
                                      (Some (same (e_id en) (e_id h))) en)
                       (entities s))
                  = map (set_selected (Some true))
                      (filter (fun en => same (e_id en) (e_id h))
                         (entities s)))
        by apply selected_by_id.
      split; [ exact E | ]. intros D. rewrite E.
      rewrite only_one_has_the_id;
        [ reflexivity | exact D | now apply find_throwing_In in Hfind ].
    + apply nothing_selected.
Qed.

Lemma hitTest_set_selected w v (a : Entity (N:=N)) :
  hitTest w (set_selected v a) = hitTest w a.
Proof. reflexivity. Qed.

(** The toggle that a click with the control key applies. *)
Lemma toggle_twice (i : option string) (l : list (Entity (N:=N))) :
  let g := fun en => if same (e_id en) i
                     then set_selected (Some (negb (is_selected en))) en
                     else en in
  map is_selected (map g (map g l)) = map is_selected l
  /\ map (set_selected None) (map g (map g l)) = map (set_selected None) l.
Proof.
  intros g. rewrite !map_map. split; apply map_ext; intros a; unfold g.
  - destruct (same (e_id a) i) eqn:E; [ | now rewrite E ].
    cbn [e_id set_selected]. rewrite E. unfold is_selected.
    cbn [e_selected set_selected]. now destruct (e_selected a) as [[ | ] | ].
  - destruct (same (e_id a) i) eqn:E; [ | now rewrite E ].
    cbn [e_id set_selected]. now rewrite E.
Qed.

(** A click with the control key toggles, and a second such
    click at the same place toggles back: it does not throw, and every
    entity is selected or not as before the first click, with nothing
    else changed. *)
Theorem control_click_twice_restores_the_selection :
  forall (e : MouseEvent) rect answer (s s1 : AppState (N:=N)),
    activeTool s = SELECT -> ctrlKey e = true ->
    handleMouseDown e rect answer s = Some s1 ->
    exists s2,
      handleMouseDown e rect answer s1 = Some s2
      /\ map is_selected (entities s2) = map is_selected (entities s)
      /\ map (set_selected None) (entities s2)
         = map (set_selected None) (entities s).
Proof.
  intros e rect answer s s1 Htool Hctrl. unfold handleMouseDown at 1.
  rewrite Htool, orb_true_r. cbn [activeTool setIsDragging setDragStart
    entities ToolType_eqb]. rewrite Htool. cbn [ToolType_eqb].
  fold (pointer e rect (view s)).
  destruct (find_throwing _ _) as [hit | ] eqn:Hfind; [ | discriminate ].
  rewrite Hctrl. destruct hit as [h | ]; intros [= <-].
  - unfold handleMouseDown.
    cbn [activeTool setIsDragging setDragStart setEntities entities view].
    rewrite Htool, orb_true_r. cbn [ToolType_eqb].
    fold (pointer e rect (view s)).
    rewrite find_throwing_map, Hfind
      by (intros a; destruct (same (e_id a) (e_id h)); reflexivity).
    cbn [option_map]. rewrite Hctrl, same_refl.
    eexists. split; [ reflexivity | ]. cbn [entities setEntities e_id
      set_selected].
    apply (toggle_twice (e_id h)).
  - unfold handleMouseDown.
    cbn [activeTool setIsDragging setDragStart setEntities entities view].
    rewrite Htool, orb_true_r. cbn [ToolType_eqb].
    fold (pointer e rect (view s)). rewrite Hfind, Hctrl.
    eexists. split; [ reflexivity | ]. split; reflexivity.
Qed.
End Picking.

(** A click on the wall selects it. *)
Lemma plain_click_replaces_the_selection_witness :
  exists s1,
    handleMouseDown (Demo.press 50 0) Demo.canvas None
      (Scenes.drawing [Scenes.wall]) = Some s1
    /\ filter is_selected (entities s1) = [Scenes.picked].
Proof.
  assert (F : find_throwing
                (hitTest (pointer (Demo.press 50 0) Demo.canvas
                            (view (Scenes.drawing [Scenes.wall]))))
                (entities (Scenes.drawing [Scenes.wall]))
              = Some (Some Scenes.wall)) by (vm_compute; reflexivity).
  destruct (plain_click_replaces_the_selection (Demo.press 50 0) Demo.canvas
              None (Scenes.drawing [Scenes.wall]) (Some Scenes.wall)
              eq_refl eq_refl F) as [s1 [E1 [_ [_ P1]]]].
  exists s1. split; [ exact E1 | ].
  apply P1. repeat constructor. simpl. tauto.
Defined.

(** Two clicks on the wall with the control key down. *)
Lemma control_click_twice_restores_the_selection_witness :
  exists s1 s2,
    handleMouseDown (Scenes.control_press 50 0) Demo.canvas None
      (Scenes.drawing [Scenes.wall]) = Some s1
    /\ handleMouseDown (Scenes.control_press 50 0) Demo.canvas None s1
       = Some s2
    /\ map is_selected (entities s2) = [false].
Proof.
  destruct (handleMouseDown (Scenes.control_press 50 0) Demo.canvas None
              (Scenes.drawing [Scenes.wall])) as [s1 | ] eqn:E1;
    [ | vm_compute in E1; discriminate E1 ].
  destruct (control_click_twice_restores_the_selection
              (Scenes.control_press 50 0) Demo.canvas None
              (Scenes.drawing [Scenes.wall]) s1 eq_refl eq_refl E1)
    as [s2 [E2 [S _]]].
  exists s1, s2. split; [ reflexivity | ]. split; [ exact E2 | exact S ].
Defined.

(* ================================================================= *)
(** ** Inserting blocks *)

Section Inserting.
Context {N : Type} `{JSNumber N}.

Lemma nonempty_Some (name : string) :
  name <> ""%string -> nonempty (Some name) = Some name.
Proof. destruct name; [ congruence | reflexivity ]. Qed.

Lemma put_block_not_empty name (d : BlockDefinition (N:=N)) defs :
  List.length (map fst (put_block name d defs)) <> 0.
Proof.
  destruct defs as [| [k d'] defs]; simpl; [ discriminate | ].
  destruct (String.eqb k name); discriminate.
Qed.

(** A block that [createBlock] has just defined can be inserted.
    The definition is stored under the given name; [insertBlock] with
    that name arms the INSERT_BLOCK tool for it without a message; and
    the next press, with a button other than the middle one, appends one
    unselected insert of that block at the pressed world position, with
    scale 1 and rotation 0. *)
Theorem created_block_can_be_inserted :
  forall name (s s1 : AppState (N:=N)) (e : MouseEvent) rect answer,
    name <> ""%string -> button e <> 1%Z ->
    createBlock (Some name) s = Some (s1, None) ->
    let s2 := s1 |> setActiveBlockName (Some name)
                 |> setActiveTool INSERT_BLOCK in
    (exists d, own_property (blockDefs s1) name = Some d /\ b_name d = name)
    /\ insertBlock (Some name) s1 = (s2, None)
    /\ handleMouseDown e rect answer s2
       = Some (s2 |> set_drawn (S (drawn s1))
                  |> setEntities
                       (entities s1
                        ++ [no_entity
                            |> set_id (Some (random s1 (drawn s1)))
                            |> set_type (Some "insert"%string)
                            |> set_blockName (Some name)
                            |> set_insertPoint
                                 (Some (pointer e rect (view s1)))
                            |> set_scale (Some #1%js)
                            |> set_rotation (Some #0%js)])).
Proof.
  intros name s s1 e rect answer Hname Hbtn. unfold createBlock.
  destruct (List.length _ =? 0)%nat; [ discriminate | ].
  rewrite (nonempty_Some name Hname).
  destruct (has_block (blockDefs s) name); [ discriminate | ].
  destruct (map_throwing _ _) as [normalized | ]; [ | discriminate ].
  cbn [generateId]. intros E. injection E as E.
  set (d := {| b_name := name; b_entities := normalized;
               b_basePoint := _ |}) in E.
  assert (B : blockDefs s1 = put_block name d (blockDefs s))
    by (rewrite <- E; reflexivity).
  clear E.
  assert (O : own_property (blockDefs s1) name = Some d)
    by (rewrite B; apply own_property_put_block).
  split; [ exists d; split; [ exact O | reflexivity ] | ].
  split.
  - unfold insertBlock.
    pose proof (put_block_not_empty name d (blockDefs s)) as L.
    apply Nat.eqb_neq in L. rewrite B, L, <- B.
    rewrite (nonempty_Some name Hname). unfold has_block. rewrite O.
    reflexivity.
  - apply Z.eqb_neq in Hbtn. unfold handleMouseDown. rewrite Hbtn.
    cbn [activeTool setActiveTool setActiveBlockName
      activeBlockName orb ToolType_eqb].
    rewrite (nonempty_Some name Hname). reflexivity.
Qed.

(** [insertBlock] changes the state only for a name under which
    [blockDefs] yields something.  With no block defined it shows "No
    blocks defined." whatever the answer; a name that is neither
    defined nor inherited from [Object.prototype] gets "Block not
    found."; and with at least one block defined an inherited name such
    as [constructor] arms the INSERT_BLOCK tool although no block of
    that name is defined. *)
Theorem insertBlock_outcomes :
  forall (s : AppState (N:=N)) (name : string),
    name <> ""%string ->
    (blockDefs s = [] ->
     forall answer,
       insertBlock answer s = (s, Some "No blocks defined."%string))
    /\ (blockDefs s <> [] -> own_property (blockDefs s) name = None ->
        ~ In name Object_prototype ->
        insertBlock (Some name) s = (s, Some "Block not found."%string))
    /\ (blockDefs s <> [] -> own_property (blockDefs s) name = None ->
        In name Object_prototype ->
        insertBlock (Some name) s
        = (s |> setActiveBlockName (Some name)
             |> setActiveTool INSERT_BLOCK, None)).
Proof.
  intros s name Hname. unfold insertBlock. split; [ | split ].
  - intros -> answer. reflexivity.
  - intros Hdefs Hown Hproto. destruct (blockDefs s) as [| b defs] eqn:E;
      [ congruence | ]. cbn [map List.length Nat.eqb].
    rewrite (nonempty_Some name Hname). unfold has_block. rewrite Hown.
    destruct (existsb _ _) eqn:X; [ | reflexivity ].
    apply existsb_exists in X as [k [Hk Ek]]. apply String.eqb_eq in Ek.
    subst k. contradiction.
  - intros Hdefs Hown Hproto. destruct (blockDefs s) as [| b defs] eqn:E;
      [ congruence | ]. cbn [map List.length Nat.eqb].
    rewrite (nonempty_Some name Hname). unfold has_block. rewrite Hown.
    replace (existsb (String.eqb name) Object_prototype) with true;
      [ reflexivity | ].
    symmetry. apply existsb_exists. exists name.
    split; [ exact Hproto | apply String.eqb_refl ].
Qed.
End Inserting.

(** The block [B1] made of a circle, then inserted at (7,7). *)
Lemma created_block_can_be_inserted_witness :
  let c := Demo.circle (Some "c"%string) (Demo.pt 50 50) 20
           |> set_selected (Some true) in
  exists s1 s2 s3,
    createBlock (Some "B1"%string) (Scenes.drawing [c]) = Some (s1, None)
    /\ insertBlock (Some "B1"%string) s1 = (s2, None)
    /\ handleMouseDown (Demo.press 7 7) Demo.canvas None s2 = Some s3
    /\ List.length (entities s3) = S (List.length (entities s1)).
Proof.
  intros c.
  destruct (createBlock (Some "B1"%string) (Scenes.drawing [c]))
    as [[s1 msg] | ] eqn:E; [ | vm_compute in E; discriminate E ].
  assert (M : msg = None).
  { assert (Q : option_map snd (Some (s1, msg)) = Some None)
      by (rewrite <- E; vm_compute; reflexivity).
    now injection Q. }
  subst msg.
  destruct (created_block_can_be_inserted "B1" _ _ (Demo.press 7 7)
              Demo.canvas None ltac:(discriminate) ltac:(discriminate) E)
    as [_ [I P]].
  exists s1. eexists. eexists. split; [ reflexivity | ].
  split; [ exact I | ]. split; [ exact P | ].
  cbn [entities setEntities]. rewrite length_app. simpl. lia.
Defined.

(** With one block defined, the name [toString] arms the tool. *)
Lemma insertBlock_outcomes_witness :
  let s := setBlockDefs
             [("B1"%string,
               {| b_name := "B1"; b_entities := [];
                  b_basePoint := Demo.pt 0 0 |})] Demo.idle in
  insertBlock (Some "door"%string) s = (s, Some "Block not found."%string)
  /\ activeTool (fst (insertBlock (Some "toString"%string) s)) = INSERT_BLOCK.
Proof.
  intros s. split.
  - apply (insertBlock_outcomes s "door"); [ | | reflexivity | ];
      try discriminate.
    simpl. intuition discriminate.
  - rewrite (proj2 (proj2 (insertBlock_outcomes s "toString"
                             ltac:(discriminate))));
      [ reflexivity | discriminate | reflexivity | simpl; tauto ].
Defined.

(* ================================================================= *)
(** ** What the handlers leave alone *)

Section Frames.
Context {N : Type} `{JSNumber N}.

Lemma setEntities_same (s : AppState (N:=N)) : setEntities (entities s) s = s.
Proof. now destruct s. Qed.

(** In the action batch, [delete] and [update] go by [id]: when
    no entity has the identifier of the action, either leaves the state
    as it is; and an [update] never changes the identifier of any
    entity, nor the number of entities. *)
Theorem delete_and_update_go_by_id :
  forall (s : AppState (N:=N)) (act : Entity),
    let action := option_map toLowerCase (e_action act) in
    (action = Some "delete"%string \/ action = Some "update"%string ->
     Forall (fun e => same (e_id e) (e_id act) = false) (entities s) ->
     applyAction s act = s)
    /\ (action = Some "update"%string ->
        map e_id (entities (applyAction s act)) = map e_id (entities s)).
Proof.
  intros s act action. subst action. unfold applyAction. split.
  - intros E Hid.
    assert (F : filter (fun e => negb (same (e_id e) (e_id act))) (entities s)
                = entities s).
    { induction Hid as [| e es He _ IH]; simpl; [ reflexivity | ].
      rewrite He, IH. reflexivity. }
    assert (M : map (fun e => if same (e_id e) (e_id act)
                              then spread e act |> set_action None
                              else e) (entities s)
                = entities s).
    { clear F. induction Hid as [| e es He _ IH]; simpl; [ reflexivity | ].
      rewrite He, IH. reflexivity. }
    destruct E as [E | E]; rewrite E; cbn [same String.eqb Ascii.eqb Bool.eqb];
      rewrite ?F, ?M; apply setEntities_same.
  - intros E. rewrite E.
    cbn [same String.eqb Ascii.eqb Bool.eqb entities setEntities].
    rewrite map_map. apply map_ext. intros e.
    destruct (same (e_id e) (e_id act)) eqn:X; [ | reflexivity ].
    apply same_eq in X. cbn [e_id set_action spread]. rewrite <- X.
    now destruct (e_id e).
Qed.

End Frames.

(** No entity has the identifier [z]. *)
Lemma delete_and_update_go_by_id_witness :
  applyAction (Scenes.drawing [Scenes.wall]) Scenes.delete_z
  = Scenes.drawing [Scenes.wall].
Proof.
  apply (proj1 (delete_and_update_go_by_id (Scenes.drawing [Scenes.wall])
                  Scenes.delete_z)); [ left; reflexivity | ].
  repeat constructor.
Defined.


(* ================================================================= *)
(** ** Strings read as numbers *)

Section Parsing.
Context {N : Type} `{JSNumber N}.

Lemma all_digits_string_of_uint (d : Decimal.uint) :
  all_digits (NilEmpty.string_of_uint d) = true.
Proof. induction d; simpl; auto. Qed.

Lemma digits_string_of_uint (d : Decimal.uint) :
  forall a : nat,
    digits 10 (NilEmpty.string_of_uint d) (Some (Z.of_nat a))
    = Some (Z.of_nat (Nat.of_uint_acc d a)).
Proof.
  induction d; intros a; cbn [NilEmpty.string_of_uint digits Nat.of_uint_acc];
    [ reflexivity | .. ];
    match goal with
    | |- context [digit_value ?c] =>
        let v := eval vm_compute in (digit_value c) in
        change (digit_value c) with v
    end; cbn [Z.ltb Z.compare Pos.compare Pos.compare_cont]; cbv iota;
    rewrite <- IHd; do 2 f_equal; rewrite Nat.tail_mul_spec; lia.
Qed.

Lemma digits_of_a_numeral (d : Decimal.uint) :
  d <> Decimal.Nil ->
  digits 10 (NilEmpty.string_of_uint d) None
  = Some (Z.of_nat (Nat.of_uint d)).
Proof.
  destruct d; [ congruence | .. ]; intros _;
    cbn [NilEmpty.string_of_uint digits];
    match goal with
    | |- context [digit_value ?c] =>
        let v := eval vm_compute in (digit_value c) in
        change (digit_value c) with v
    end; cbn [Z.ltb Z.compare Pos.compare Pos.compare_cont]; cbv iota;
    match goal with
    | |- digits _ _ (Some ?k) = _ =>
        let n := eval vm_compute in (Z.to_nat k) in
        change k with (Z.of_nat n)
    end; rewrite digits_string_of_uint; reflexivity.
Qed.

Lemma to_uint_not_Nil (n : nat) : Nat.to_uint n <> Decimal.Nil.
Proof.
  intros E. pose proof (DecimalNat.Unsigned.of_to n) as P. rewrite E in P.
  simpl in P. subst n. discriminate E.
Qed.

Lemma digit_cases (c : ascii) :
  is_digit c = true -> In c (list_ascii_of_string "0123456789").
Proof.
  destruct c as [[ | ] [ | ] [ | ] [ | ] [ | ] [ | ] [ | ] [ | ]];
    intros E; try discriminate E; simpl; tauto.
Qed.

(** Case analysis on a character that is a decimal digit. *)
Ltac each_digit H :=
  apply digit_cases in H; simpl in H;
  repeat match type of H with
         | _ \/ _ => destruct H as [H | H]
         end; [ subst .. | contradiction ].

Lemma digit_is_not_a_space (c : ascii) (t : string) :
  is_digit c = true ->
  trimStart (String c t) = String c t
  /\ match String c t with
     | String "-" t' => (true, t')
     | String "+" t' => (false, t')
     | _ => (false, String c t)
     end = (false, String c t).
Proof. intros E. each_digit E; split; reflexivity. Qed.

Lemma digits_have_radix_10 (t : string) :
  all_digits t = true ->
  match t with
  | String "0" (String "x" t') | String "0" (String "X" t') => (16%Z, t')
  | _ => (10%Z, t)
  end = (10%Z, t).
Proof.
  destruct t as [| c t]; [ reflexivity | ]. cbn [all_digits].
  intros E. apply andb_prop in E as [Hc Ht].
  each_digit Hc; try reflexivity.
  destruct t as [| c' t]; [ reflexivity | ]. cbn [all_digits] in Ht.
  apply andb_prop in Ht as [Hc' _].
  each_digit Hc'; reflexivity.
Qed.

Lemma parseInt_digits (t : string) (v : Z) :
  all_digits t = true -> digits 10 t None = Some v ->
  parseInt t = of_Z v /\ parseInt (String "-" t) = (- of_Z v)%js.
Proof.
  intros Hd Hv. unfold parseInt.
  pose proof (digits_have_radix_10 t Hd) as R.
  destruct t as [| c t]; [ discriminate Hv | ].
  pose proof Hd as Hc. cbn [all_digits] in Hc. apply andb_prop in Hc as [Hc _].
  destruct (digit_is_not_a_space c t Hc) as [T S].
  split.
  - rewrite T, S, R, Hv. reflexivity.
  - change (trimStart (String "-" (String c t))) with (String "-" (String c t)).
    cbv iota. rewrite R, Hv. reflexivity.
Qed.

Lemma digits_numeral (n : nat) :
  digits 10 (numeral n) None = Some (Z.of_nat n).
Proof.
  unfold numeral. rewrite digits_of_a_numeral by apply to_uint_not_Nil.
  now rewrite DecimalNat.Unsigned.of_to.
Qed.

(** [parseInt] reads a decimal numeral back as the number it
    denotes, and as its negation after a minus sign. *)
Theorem parseInt_reads_a_numeral :
  forall n : nat,
    parseInt (numeral n) = of_Z (Z.of_nat n)
    /\ parseInt (String "-" (numeral n)) = (- of_Z (Z.of_nat n))%js.
Proof.
  intros n. apply parseInt_digits;
    [ apply all_digits_string_of_uint | apply digits_numeral ].
Qed.

Lemma split_not_empty (sep : ascii) (t : string) : split sep t <> [].
Proof.
  induction t as [| c t IH]; simpl; [ discriminate | ].
  destruct (Ascii.eqb c sep); [ discriminate | ].
  destruct (split sep t); [ congruence | discriminate ].
Qed.

(** [split] cuts a string at each separator and nowhere else:
    joining the pieces with the separator gives the string back, and
    there is always at least one piece. *)
Theorem split_then_join :
  forall (sep : ascii) (t : string),
    String.concat (String sep "") (split sep t) = t /\ split sep t <> [].
Proof.
  intros sep t. split; [ | apply split_not_empty ].
  induction t as [| c t IH]; simpl; [ reflexivity | ].
  pose proof (split_not_empty sep t) as Q.
  destruct (Ascii.eqb c sep) eqn:E.
  - apply Ascii.eqb_eq in E. subst c.
    destruct (split sep t) as [| w ws]; [ congruence | ].
    simpl. f_equal. exact IH.
  - destruct (split sep t) as [| w ws]; [ congruence | ].
    destruct ws as [| w' ws]; simpl in *; now rewrite <- IH.
Qed.

Lemma split_digits (t : string) :
  all_digits t = true -> split "," t = [t].
Proof.
  induction t as [| c t IH]; simpl; [ reflexivity | ].
  intros E. apply andb_prop in E as [Hc Ht]. rewrite (IH Ht).
  each_digit Hc; reflexivity.
Qed.

Lemma split_two_numerals (t1 t2 : string) :
  all_digits t1 = true -> all_digits t2 = true ->
  split "," (t1 ++ String "," t2) = [t1; t2].
Proof.
  intros H1 H2. induction t1 as [| c t IH]; simpl.
  - now rewrite split_digits.
  - cbn [all_digits] in H1. apply andb_prop in H1 as [Hc Ht].
    rewrite (IH Ht).
    each_digit Hc; reflexivity.
Qed.

(** The TABLE tool accepts any pair of decimal numerals whose
    values are truthy: on the answer [r,c] a press with a button other
    than the middle one appends a table of [r] rows and [c] columns at
    the pressed world position, with rows 20 high and columns 60 wide,
    and goes back to the SELECT tool. *)
Theorem table_of_any_size :
  forall (r c : nat) (e : MouseEvent) rect (s : AppState (N:=N)),
    activeTool s = TABLE -> button e <> 1%Z ->
    truthy (of_Z (Z.of_nat r)) = true -> truthy (of_Z (Z.of_nat c)) = true ->
    let w := pointer e rect (view s) in
    handleMouseDown e rect
      (Some (numeral r ++ String "," (numeral c))%string) s
    = Some (s |> set_drawn (S (drawn s))
              |> setEntities
                   (entities s
                    ++ [no_entity
                        |> set_id (Some (random s (drawn s)))
                        |> set_type (Some "table"%string)
                        |> set_x (Some (x w)) |> set_y (Some (y w))
                        |> set_rows (Some (of_Z (Z.of_nat r)))
                        |> set_cols (Some (of_Z (Z.of_nat c)))
                        |> set_rowHeight (Some #20%js)
                        |> set_colWidth (Some #60%js)])
              |> setActiveTool SELECT).
Proof.
  intros r c e rect s Htool Hbtn Hr Hc w. apply Z.eqb_neq in Hbtn.
  unfold handleMouseDown. rewrite Hbtn, Htool. cbn [orb ToolType_eqb].
  cbv iota.
  assert (Ne : nonempty (Some (numeral r ++ String "," (numeral c))%string)
               = Some (numeral r ++ String "," (numeral c))%string)
    by (destruct (numeral r); reflexivity).
  rewrite Ne.
  rewrite split_two_numerals by apply all_digits_string_of_uint.
  cbn [map nth_error].
  rewrite (proj1 (parseInt_digits (numeral r) (Z.of_nat r)
                    (all_digits_string_of_uint _) (digits_numeral r))),
    (proj1 (parseInt_digits (numeral c) (Z.of_nat c)
              (all_digits_string_of_uint _) (digits_numeral c))).
  cbn [falsy]. rewrite Hr, Hc. reflexivity.
Qed.
End Parsing.

(** The numeral of 360, and the answer [12,7] to the TABLE tool. *)
Lemma parseInt_reads_a_numeral_witness :
  parseInt "360" = (of_Z 360 : float).
Proof. exact (proj1 (parseInt_reads_a_numeral (N:=float) 360)). Defined.

Lemma split_then_join_witness :
  String.concat "," (split "," "4,3") = "4,3"%string.
Proof. exact (proj1 (split_then_join "," "4,3")). Defined.

Lemma table_of_any_size_witness :
  option_map (fun s => (entities s, activeTool s))
    (handleMouseDown (Demo.press 5 5) Demo.canvas (Some "12,7"%string)
       (Scenes.armed TABLE))
  = Some ([Demo.table "e0" (Demo.pt 5 5) 12 7], SELECT).
Proof.
  assert (R : truthy (of_Z (Z.of_nat 12) : float) = true)
    by (vm_compute; reflexivity).
  assert (C : truthy (of_Z (Z.of_nat 7) : float) = true)
    by (vm_compute; reflexivity).
  change (Some "12,7"%string)
    with (Some (numeral 12 ++ String "," (numeral 7))%string).
  rewrite (table_of_any_size 12 7 (Demo.press 5 5) Demo.canvas
             (Scenes.armed TABLE) eq_refl ltac:(discriminate) R C).
  vm_compute. reflexivity.
Defined.

(* ================================================================= *)
(** ** Exact geometry of the view *)

Section ExactView.
Local Open Scope js_scope.

Lemma truthy_Fin (v : xreal) :
  isFinite v = true -> truthy v = true -> exists r, v = Fin r /\ r <> 0%R.
Proof.
  intros F T. apply isFinite_Fin in F as [r ->]. exists r. split; [ easy | ].
  intros ->. unfold truthy in T. simpl in T. now rewrite Reqb_refl in T.
Qed.

Lemma usable_view_exact (v : ViewState (N:=xreal)) :
  usable_view v = true ->
  exists vx vy z,
    v = {| v_x := Fin vx; v_y := Fin vy; v_zoom := Fin z |} /\ z <> 0%R.
Proof.
  unfold usable_view. rewrite !andb_true_iff. intros [[[X Y] Z] T].
  apply isFinite_Fin in X as [vx X], Y as [vy Y].
  destruct (truthy_Fin _ Z T) as [z [Z' Hz]].
  destruct v; simpl in *; subst. eauto 6.
Qed.

Lemma usable_view_Fin (vx vy z : R) :
  z <> 0%R ->
  usable_view {| v_x := Fin vx; v_y := Fin vy; v_zoom := Fin z |} = true.
Proof.
  intros Hz. unfold usable_view, truthy, isNaN. cbn [v_x v_y v_zoom].
  rewrite !(proj2 (isFinite_Fin _)) by eauto. simpl. rewrite Reqb_refl.
  unfold XReal.Reqb. now destruct (Req_dec_T z 0).
Qed.

Lemma sub_finite (a b : xreal) :
  isFinite (a - b) = true -> exists u v, a = Fin u /\ b = Fin v.
Proof. destruct a, b; try discriminate. eauto. Qed.

Lemma on_canvas_exact (e : MouseEvent (N:=xreal)) rect :
  on_canvas e rect = true ->
  exists cx cy l t,
    clientX e = Fin cx /\ clientY e = Fin cy
    /\ left rect = Fin l /\ top rect = Fin t.
Proof.
  unfold on_canvas, finite_point. cbn [x y]. rewrite andb_true_iff.
  intros [X Y]. apply sub_finite in X as [cx [l [-> ->]]].
  apply sub_finite in Y as [cy [t [-> ->]]]. eauto 8.
Qed.

Lemma div_exact (a b : R) : b <> 0%R -> Fin a / Fin b = Fin (a / b).
Proof.
  intros Hb. simpl. destruct (Req_dec_T b 0); [ contradiction | easy ].
Qed.

Lemma scaleBy_exact : decimal 11 1 = Fin (11 / 10).
Proof.
  unfold decimal. change (10 ^ Z.of_nat 1)%Z with 10%Z.
  apply (div_exact 11 10). lra.
Qed.

(** The view after a wheel event at a finite canvas position, on a
    usable view: the zoom is scaled by [k] and the offset is moved so
    that the position keeps its world point. *)
Lemma handleWheel_exact (e : WheelEvent (N:=xreal)) rect (s : AppState)
  (cx cy l t vx vy z : R) :
  clientX (w_mouse e) = Fin cx -> clientY (w_mouse e) = Fin cy ->
  left rect = Fin l -> top rect = Fin t ->
  view s = {| v_x := Fin vx; v_y := Fin vy; v_zoom := Fin z |} -> z <> 0%R ->
  let k := if deltaY e > #0 then (10 / 11)%R else (11 / 10)%R in
  handleWheel e rect s
  = setView {| v_x := Fin ((cx - l) - (cx - l - vx) * k);
               v_y := Fin ((cy - t) - (cy - t - vy) * k);
               v_zoom := Fin (z * k) |} s.
Proof.
  intros Ex Ey El Et Ev Hz k. unfold handleWheel.
  rewrite Ex, Ey, El, Et, Ev, scaleBy_exact. cbn [v_x v_y v_zoom].
  subst k. destruct (deltaY e > #0); f_equal;
    cbn [sub add opp mul exact_number XReal.sub XReal.add XReal.opp XReal.mul];
    rewrite !div_exact by (assumption || lra);
    cbn [sub add opp mul exact_number XReal.sub XReal.add XReal.opp XReal.mul];
    f_equal; f_equal; field; assumption.
Qed.

(** The wheel zooms about the pointer: on a usable view and at
    a finite canvas position, the world point under the pointer is the
    same after the event as before it, whichever way the wheel turns. *)
Theorem wheel_zooms_about_the_pointer :
  forall (e : WheelEvent (N:=xreal)) rect (s : AppState),
    usable_view (view s) = true -> on_canvas (w_mouse e) rect = true ->
    pointer (w_mouse e) rect (view (handleWheel e rect s))
    = pointer (w_mouse e) rect (view s)
    /\ usable_view (view (handleWheel e rect s)) = true.
Proof.
  intros e rect s Hv Hc.
  destruct (usable_view_exact _ Hv) as [vx [vy [z [Ev Hz]]]].
  destruct (on_canvas_exact _ _ Hc) as [cx [cy [l [t [Ex [Ey [El Et]]]]]]].
  rewrite (handleWheel_exact e rect s cx cy l t vx vy z) by assumption.
  cbn [view setView]. rewrite Ev. unfold pointer, screenToWorld.
  rewrite Ex, Ey, El, Et. cbn [x y v_x v_y v_zoom].
  set (k := if deltaY e > #0 then _ else _).
  assert (Hk : (z * k <> 0)%R).
  { subst k. destruct (deltaY e > #0); nra. }
  split.
  - simpl. destruct (Req_dec_T (z * k) 0); [ contradiction | ].
    destruct (Req_dec_T z 0); [ contradiction | ].
    f_equal; f_equal; field; split; try assumption;
      subst k; destruct (deltaY e > #0); lra.
  - now apply usable_view_Fin.
Qed.

(** Turning the wheel one notch one way and one notch back, at
    the same finite canvas position, restores a usable view exactly. *)
Theorem wheel_there_and_back :
  forall (e1 e2 : WheelEvent (N:=xreal)) rect (s : AppState),
    usable_view (view s) = true -> on_canvas (w_mouse e1) rect = true ->
    w_mouse e2 = w_mouse e1 ->
    (deltaY e1 > #0) = negb (deltaY e2 > #0) ->
    handleWheel e2 rect (handleWheel e1 rect s) = s.
Proof.
  intros e1 e2 rect s Hv Hc Em Ed.
  destruct (usable_view_exact _ Hv) as [vx [vy [z [Ev Hz]]]].
  destruct (on_canvas_exact _ _ Hc) as [cx [cy [l [t [Ex [Ey [El Et]]]]]]].
  rewrite (handleWheel_exact e1 rect s cx cy l t vx vy z) by assumption.
  set (k1 := if deltaY e1 > #0 then _ else _).
  assert (H1 : (k1 <> 0)%R) by (subst k1; destruct (deltaY e1 > #0); lra).
  rewrite (handleWheel_exact e2 rect _ cx cy l t
             ((cx - l) - (cx - l - vx) * k1) ((cy - t) - (cy - t - vy) * k1)
             (z * k1)); try (rewrite Em; assumption); try assumption;
    [ | reflexivity | nra ].
  set (k2 := if deltaY e2 > #0 then _ else _).
  assert (K : (k1 * k2 = 1)%R).
  { subst k1 k2. rewrite Ed. destruct (deltaY e2 > #0); simpl; lra. }
  match goal with
  | |- setView ?v _ = _ =>
      assert (V : v = view s);
      [ | rewrite V; destruct s; reflexivity ]
  end.
  rewrite Ev. f_equal; f_equal.
  - replace ((cx - l - (cx - l - (cx - l - (cx - l - vx) * k1)) * k2))%R
      with (cx - l - (cx - l - vx) * (k1 * k2))%R by ring.
    rewrite K. ring.
  - replace ((cy - t - (cy - t - (cy - t - (cy - t - vy) * k1)) * k2))%R
      with (cy - t - (cy - t - vy) * (k1 * k2))%R by ring.
    rewrite K. ring.
  - rewrite Rmult_assoc, K. ring.
Qed.
End ExactView.

(** The default view is usable, and the scene's pointer is on the
    canvas. *)
Lemma default_view_is_usable : usable_view (default_view (N:=xreal)) = true.
Proof. apply (usable_view_Fin 0 0 1). lra. Qed.

Lemma pointer_is_on_canvas (a b : Z) :
  on_canvas (Scenes.pointer_at a b) Scenes.canvas = true.
Proof. apply finite_point_of_reals. Qed.

(** A notch of the wheel at canvas position (30,40). *)
Lemma wheel_zooms_about_the_pointer_witness :
  pointer (Scenes.pointer_at 30 40) Scenes.canvas
    (view (handleWheel (Scenes.wheel 30 40 1) Scenes.canvas
             ExactDemo.drawing))
  = pointer (Scenes.pointer_at 30 40) Scenes.canvas
      (view ExactDemo.drawing).
Proof.
  exact (proj1 (wheel_zooms_about_the_pointer (Scenes.wheel 30 40 1)
                  Scenes.canvas ExactDemo.drawing default_view_is_usable
                  (pointer_is_on_canvas 30 40))).
Defined.

Lemma positive_delta : (deltaY (Scenes.wheel 30 40 1) > #0)%js = true.
Proof.
  simpl. unfold XReal.Rltb. destruct (Rlt_dec 0 1); [ reflexivity | lra ].
Qed.

Lemma negative_delta : (deltaY (Scenes.wheel 30 40 (-1)) > #0)%js = false.
Proof.
  simpl. unfold XReal.Rltb. destruct (Rlt_dec 0 (-1)); [ lra | reflexivity ].
Qed.

(** One notch down and one notch up at canvas position (30,40). *)
Lemma wheel_there_and_back_witness :
  handleWheel (Scenes.wheel 30 40 (-1)) Scenes.canvas
    (handleWheel (Scenes.wheel 30 40 1) Scenes.canvas ExactDemo.drawing)
  = ExactDemo.drawing.
Proof.
  apply wheel_there_and_back.
  - exact default_view_is_usable.
  - exact (pointer_is_on_canvas 30 40).
  - reflexivity.
  - now rewrite positive_delta, negative_delta.
Defined.

(* ================================================================= *)
(** ** Exact geometry of lines and drags *)

Section ExactMoves.
Local Open Scope js_scope.

(** On exact numbers [getLineIntersection] answers [null] for
    parallel lines, those whose determinant is zero, and otherwise a
    point that lies on the line through the first two points and on the
    line through the last two. *)
Theorem line_intersection_is_on_both_lines :
  forall x1 y1 x2 y2 x3 y3 x4 y4 : R,
    let p1 := {| x := Fin x1; y := Fin y1 |} in
    let p2 := {| x := Fin x2; y := Fin y2 |} in
    let p3 := {| x := Fin x3; y := Fin y3 |} in
    let p4 := {| x := Fin x4; y := Fin y4 |} in
    let d := ((x1 - x2) * (y3 - y4) - (y1 - y2) * (x3 - x4))%R in
    (d = 0%R -> getLineIntersection p1 p2 p3 p4 = None)
    /\ (d <> 0%R ->
        exists qx qy,
          getLineIntersection p1 p2 p3 p4
          = Some {| x := Fin qx; y := Fin qy |}
          /\ ((qx - x1) * (y2 - y1) = (qy - y1) * (x2 - x1))%R
          /\ ((qx - x3) * (y4 - y3) = (qy - y3) * (x4 - x3))%R).
Proof.
  intros x1 y1 x2 y2 x3 y3 x4 y4 p1 p2 p3 p4 d.
  unfold getLineIntersection. subst p1 p2 p3 p4. exact_arith.
  set (d' := ((x1 + - x2) * (y3 + - y4) + - ((y1 + - y2) * (x3 + - x4)))%R).
  assert (Ed : d' = d) by (subst d d'; ring).
  change (#0) with (Fin 0). cbn [eqb exact_number XReal.eqb].
  unfold XReal.Reqb.
  destruct (Req_dec_T d' 0) as [Z | NZ]; split; intros Hd;
    try reflexivity; try (exfalso; congruence).
  rewrite div_exact by exact NZ. exact_arith.
  eexists. eexists. split; [ reflexivity | ].
  split; [ ring | ]. subst d'. field. exact NZ.
Qed.

Lemma translate_exact (dx dy u v : R) :
  translate (Fin dx) (Fin dy) {| x := Fin u; y := Fin v |}
  = {| x := Fin (u + dx); y := Fin (v + dy) |}.
Proof. reflexivity. Qed.

(** Panning keeps the grabbed point under the pointer.  While
    the SELECT tool drags with the middle button down, or with the
    primary button down and nothing selected, a move changes no entity
    and keeps the zoom, and the world point under the pointer after the
    move is the one that was under the place the drag was last at. *)
Theorem pan_keeps_the_grabbed_point :
  forall (e : MoveEvent (N:=xreal)) rect (s : AppState) (from : Point),
    isDragging s = true -> dragStart s = Some from -> activeTool s = SELECT ->
    buttons e = 4%Z
    \/ (buttons e = 1%Z /\ existsb is_selected (entities s) = false) ->
    usable_view (view s) = true -> on_canvas (m_mouse e) rect = true ->
    finite_point from = true ->
    exists s',
      handleMouseMove e rect s = Some s'
      /\ entities s' = entities s
      /\ v_zoom (view s') = v_zoom (view s)
      /\ pointer (m_mouse e) rect (view s') = screenToWorld from (view s)
      /\ dragStart s'
         = Some {| x := clientX (m_mouse e) - left rect;
                   y := clientY (m_mouse e) - top rect |}.
Proof.
  intros e rect s from Hdrag Hfrom Htool Hbtn Hv Hc Hf.
  destruct (usable_view_exact _ Hv) as [vx [vy [z [Ev Hz]]]].
  destruct (on_canvas_exact _ _ Hc) as [cx [cy [l [t [Ex [Ey [El Et]]]]]]].
  apply finite_point_Fin in Hf as [fx [fy ->]].
  unfold handleMouseMove.
  cbn [dragStart isDragging activeTool entities view setMousePos].
  rewrite Hfrom, Hdrag, Htool. cbn [ToolType_eqb andb].
  replace ((buttons e =? 4)%Z
           || (buttons e =? 1)%Z && negb (existsb is_selected (entities s)))
    with true.
  2:{ destruct Hbtn as [-> | [-> ->]]; reflexivity. }
  eexists. split; [ reflexivity | ].
  cbn [entities view setView setDragStart setMousePos dragStart v_zoom].
  split; [ reflexivity | ]. split; [ reflexivity | ].
  split; [ | reflexivity ].
  unfold pointer, screenToWorld. rewrite Ev, Ex, Ey, El, Et. exact_arith.
  rewrite !div_exact by assumption. f_equal; f_equal; field; assumption.
Qed.

Lemma translated_points (dx dy : R) (ps : list Point) :
  forallb finite_point ps = true ->
  forallb finite_point (map (translate (Fin dx) (Fin dy)) ps) = true.
Proof.
  induction ps as [| p ps IH]; cbn [forallb map]; [ reflexivity | ].
  intros Hf. apply andb_prop in Hf as [Hp Hf]. finite_points.
  rewrite translate_exact, IH by assumption.
  rewrite andb_true_r. apply finite_point_Fin. eauto.
Qed.


End ExactMoves.

(** The horizontal axis and the vertical line through (5,0) meet. *)
Lemma line_intersection_is_on_both_lines_witness :
  exists qx qy,
    getLineIntersection (ExactDemo.pt 0 0) (ExactDemo.pt 1 0)
      (ExactDemo.pt 5 (-1)) (ExactDemo.pt 5 1)
    = Some {| x := Fin qx; y := Fin qy |}
    /\ ((qx - 0) * (0 - 0) = (qy - 0) * (1 - 0))%R
    /\ ((qx - 5) * (1 - -1) = (qy - -1) * (5 - 5))%R.
Proof.
  apply (proj2 (line_intersection_is_on_both_lines 0 0 1 0 5 (-1) 5 1)).
  lra.
Defined.

(** The exact drawing panned with the middle button from (10,10) to
    (30,40). *)
Lemma pan_keeps_the_grabbed_point_witness :
  exists s',
    handleMouseMove (Scenes.exact_move 30 40 4) Scenes.canvas Scenes.grabbed
    = Some s'
    /\ entities s' = entities Scenes.grabbed
    /\ pointer (Scenes.pointer_at 30 40) Scenes.canvas (view s')
       = screenToWorld (ExactDemo.pt 10 10) (view Scenes.grabbed).
Proof.
  destruct (pan_keeps_the_grabbed_point (Scenes.exact_move 30 40 4)
              Scenes.canvas Scenes.grabbed (ExactDemo.pt 10 10)
              eq_refl eq_refl eq_refl (or_introl eq_refl)
              default_view_is_usable (pointer_is_on_canvas 30 40)
              (finite_point_of_reals _ _))
    as [s' [E [En [_ [P _]]]]].
  exists s'. auto.
Defined.




(* ================================================================= *)
(** ** Exact geometry of the arc *)

Section ExactArc.
Local Open Scope js_scope.

Lemma sqrt_exact (a : R) : (0 <= a)%R -> Math_sqrt (Fin a) = Fin (sqrt a).
Proof. intros Ha. simpl. destruct (Rlt_dec a 0); [ lra | reflexivity ]. Qed.

Lemma thousandth_exact : decimal 1 3 = Fin (1 / 1000).
Proof.
  unfold decimal. change (10 ^ Z.of_nat 3)%Z with 1000%Z.
  apply (div_exact 1 1000). lra.
Qed.

Lemma above_a_thousandth (d : R) :
  (Math_abs (Fin d) > decimal 1 3) = true ->
  d <> 0%R /\ (Math_abs (Fin d) < decimal 1 3) = false.
Proof.
  rewrite thousandth_exact. simpl. unfold XReal.Rltb.
  destruct (Rlt_dec (1 / 1000) (Rabs d)) as [L | ]; [ | discriminate ].
  intros _. split.
  - intros ->. rewrite Rabs_R0 in L. lra.
  - destruct (Rlt_dec (Rabs d) (1 / 1000)); [ lra | reflexivity ].
Qed.

(** The center mark of an arc is the center of the circle
    through its three points.  On exact numbers, when the determinant of
    the three points is above 0.001 in absolute value, the CENTERMARK
    tool places its mark at a point that is equally far, [r], from all
    three; the mark's size is 1.2 times [r]; and [getArcPath] draws the
    arc from the first point to the third with that same radius [r]. *)
Theorem centermark_is_the_circumcenter :
  forall (hit : Entity (N:=xreal)) (x1 y1 x2 y2 x3 y3 : R),
    let a1 := {| x := Fin x1; y := Fin y1 |} in
    let a2 := {| x := Fin x2; y := Fin y2 |} in
    let a3 := {| x := Fin x3; y := Fin y3 |} in
    e_type hit = Some "arc"%string ->
    e_p1 hit = Some a1 -> e_p2 hit = Some a2 -> e_p3 hit = Some a3 ->
    (Math_abs (arcD a1 a2 a3) > decimal 1 3) = true ->
    exists ux uy r sweep,
      centerOf hit
      = Some (Some {| x := Fin ux; y := Fin uy |}, Fin r * decimal 12 1)
      /\ (0 <= r)%R
      /\ ((x1 - ux) ^ 2 + (y1 - uy) ^ 2 = r ^ 2)%R
      /\ ((x2 - ux) ^ 2 + (y2 - uy) ^ 2 = r ^ 2)%R
      /\ ((x3 - ux) ^ 2 + (y3 - uy) ^ 2 = r ^ 2)%R
      /\ getArcPath (e_p1 hit) (e_p2 hit) (e_p3 hit)
         = [MoveTo (Fin x1) (Fin y1);
            ArcTo (Fin r) (Fin r) #0 #0 sweep (Fin x3) (Fin y3)].
Proof.
  intros hit x1 y1 x2 y2 x3 y3 a1 a2 a3 Ht E1 E2 E3 HD.
  unfold centerOf, getArcPath, is_a. rewrite Ht, E1, E2, E3.
  cbn [same String.eqb Ascii.eqb Bool.eqb]. cbv iota.
  rewrite HD.
  assert (Ed : arcD a1 a2 a3
               = Fin (2 * (x1 * (y2 + - y3) + x2 * (y3 + - y1)
                           + x3 * (y1 + - y2))))
    by reflexivity.
  rewrite Ed in *. apply above_a_thousandth in HD as [NZ Lt]. rewrite Lt.
  subst a1 a2 a3. exact_arith. rewrite !div_exact by exact NZ.
  unfold sq. exact_arith.
  set (D := (2 * (x1 * (y2 + - y3) + x2 * (y3 + - y1)
                  + x3 * (y1 + - y2)))%R) in *.
  set (ux := (((x1 * x1 + y1 * y1) * (y2 + - y3)
               + (x2 * x2 + y2 * y2) * (y3 + - y1)
               + (x3 * x3 + y3 * y3) * (y1 + - y2)) / D)%R).
  set (uy := (((x1 * x1 + y1 * y1) * (x3 + - x2)
               + (x2 * x2 + y2 * y2) * (x1 + - x3)
               + (x3 * x3 + y3 * y3) * (x2 + - x1)) / D)%R).
  set (q := ((x1 + - ux) * (x1 + - ux) + (y1 + - uy) * (y1 + - uy))%R).
  assert (Hq : (0 <= q)%R).
  { pose proof (Rle_0_sqr (x1 + - ux)). pose proof (Rle_0_sqr (y1 + - uy)).
    unfold Rsqr in *. subst q. lra. }
  rewrite !sqrt_exact by exact Hq.
  exists ux, uy, (sqrt q). eexists.
  split; [ reflexivity | ].
  split; [ apply sqrt_pos | ].
  assert (S : (sqrt q ^ 2 = q)%R).
  { simpl. rewrite Rmult_1_r. now apply sqrt_sqrt. }
  rewrite S.
  split; [ subst q; ring | ].
  clear S Hq Lt Ed E1 E2 E3.
  split; [ | split; [ | reflexivity ] ]; subst q ux uy D; field;
    intros Z; apply NZ; rewrite Z; ring.
Qed.
End ExactArc.

Lemma the_arc_is_not_flat :
  (Math_abs (arcD (ExactDemo.pt 0 0) (ExactDemo.pt 5 5) (ExactDemo.pt 10 0))
   > decimal 1 3)%js = true.
Proof.
  rewrite thousandth_exact. simpl. unfold XReal.Rltb.
  match goal with
  | |- (if Rlt_dec ?a ?b then _ else _) = _ =>
      destruct (Rlt_dec a b) as [ | NL ]; [ reflexivity | exfalso; apply NL ]
  end.
  match goal with
  | |- (_ < Rabs ?d)%R => replace d with (-100)%R by lra
  end.
  rewrite Rabs_left; lra.
Qed.

(** The arc through (0,0), (5,5) and (10,0). *)
Lemma centermark_is_the_circumcenter_witness :
  exists ux uy r,
    option_map fst (centerOf ExactDemo.arc)
    = Some (Some {| x := Fin ux; y := Fin uy |})
    /\ ((0 - ux) ^ 2 + (0 - uy) ^ 2 = r ^ 2)%R
    /\ ((5 - ux) ^ 2 + (5 - uy) ^ 2 = r ^ 2)%R
    /\ ((10 - ux) ^ 2 + (0 - uy) ^ 2 = r ^ 2)%R.
Proof.
  destruct (centermark_is_the_circumcenter ExactDemo.arc 0 0 5 5 10 0
              eq_refl eq_refl eq_refl eq_refl the_arc_is_not_flat)
    as [ux [uy [r [sweep [E [_ [D1 [D2 [D3 _]]]]]]]]].
  exists ux, uy, r. rewrite E. auto.
Defined.

(* ================================================================= *)
(** ** Exact bounding boxes *)

Section ExactBounds.
Local Open Scope js_scope.

Lemma check_ordered (u v : R) (b : Bounds) :
  ordered b ->
  ordered (check (Fin u) (Fin v) b) /\ check (Fin u) (Fin v) b <> no_bounds.
Proof.
  intros [-> | [l [h [d [t [-> [Hx Hy]]]]]]]; unfold check; simpl.
  - split; [ | discriminate ]. right. exists u, u, v, v.
    split; [ reflexivity | lra ].
  - unfold XReal.Rltb.
    destruct (Rlt_dec u l), (Rlt_dec h u), (Rlt_dec v d), (Rlt_dec t v);
      (split; [ | discriminate ]); right; eexists; eexists; eexists; eexists;
      (split; [ reflexivity | lra ]).
Qed.

Lemma check_points_ordered (ps : list Point) :
  forall b, forallb finite_point ps = true -> ordered b ->
    ordered (check_points ps b)
    /\ (b <> no_bounds -> check_points ps b <> no_bounds).
Proof.
  unfold check_points.
  induction ps as [| p ps IH]; intros b Hf Hb; cbn [fold_left].
  - auto.
  - cbn [forallb] in Hf. apply andb_prop in Hf as [Hp Hf]. finite_points.
    cbn [x y]. destruct (check_ordered u v b Hb) as [O NE].
    destruct (IH _ Hf O) as [O' NE']. auto.
Qed.

Lemma extentCheck_ordered (b : Bounds) (e : Entity) :
  regular e = true -> ordered b ->
  ordered (extentCheck b e)
  /\ (b <> no_bounds -> extentCheck b e <> no_bounds).
Proof.
  intros Hm Hb. unfold regular, kind_of in Hm.
  unfold is_a in *. unfold extentCheck.
  destruct e. unfold anchor in *. cbn -[same] in *.
  split_tests Hm; try discriminate Hm; read_shape Hm; absent_fields;
    finite_points; cbn -[check check_points]; auto;
    try (destruct (check_ordered u v b Hb); now auto);
    try (now apply check_points_ordered).
  all: match goal with
       | Hb' : ordered ?b0
         |- context [check (Fin ?p) (Fin ?q) (check (Fin ?p') (Fin ?q') ?b0)] =>
           destruct (check_ordered p' q' b0 Hb') as [O NE];
           destruct (check_ordered p q _ O); auto
       end.
Qed.

Lemma extentBounds_ordered (l : list Entity) :
  forall b, forallb regular l = true -> ordered b ->
    ordered (fold_left extentCheck l b).
Proof.
  induction l as [| e l IH]; cbn [forallb fold_left]; intros b Hm Hb.
  - exact Hb.
  - apply andb_prop in Hm as [He Hm].
    apply IH; [ exact Hm | now apply extentCheck_ordered ].
Qed.

Lemma ordered_no_bounds : ordered no_bounds.
Proof. now left. Qed.

(** [Math.min(a, b, 5)] for two scales that are positive or
    [Infinity]. *)
Lemma min_of_scales (a b : xreal) :
  (a = PInf \/ exists r, a = Fin r /\ (0 < r)%R) ->
  (b = PInf \/ exists r, b = Fin r /\ (0 < r)%R) ->
  exists z,
    Math_min [a; b; #5] = Fin z /\ (0 < z <= 5)%R
    /\ (forall r, a = Fin r -> (z <= r)%R)
    /\ (forall r, b = Fin r -> (z <= r)%R).
Proof.
  change (#5) with (Fin 5).
  intros [-> | [ra [-> Ha]]] [-> | [rb [-> Hb]]]; unfold Math_min;
    cbn [existsb]; unfold isNaN; cbn [eqb exact_number XReal.eqb];
    rewrite ?Reqb_refl; cbn [negb orb]; cbv iota;
    cbn [fold_left]; rewrite !no_neg_zero; cbn [andb]; cbv iota;
    cbn [ltb exact_number XReal.ltb Infinity]; unfold XReal.Rltb;
    repeat match goal with
           | |- context [Rlt_dec ?p ?q] => destruct (Rlt_dec p q)
           end;
    eexists; (split; [ reflexivity | ]);
    (split; [ lra | ]); split; intros ? [= <-]; lra.
Qed.

(** Zoom to extents fits the drawing into the canvas.  On exact
    numbers, for regular entities of which one at least has a point,
    and a canvas more than 100 wide and high, the new zoom is positive
    and at most 5, the bounding box scaled by it leaves a margin of 50
    on every side, and the center of the canvas shows the center of the
    bounding box. *)
Theorem zoomExtents_fits_the_drawing :
  forall (rect : DOMRect (N:=xreal)) (s : AppState) (W H : R),
    forallb regular (entities s) = true ->
    isFinite (minX (extentBounds (entities s))) = true ->
    r_width rect = Fin W -> r_height rect = Fin H ->
    (100 < W)%R -> (100 < H)%R ->
    exists l h d u z,
      extentBounds (entities s)
      = {| minX := Fin l; maxX := Fin h; minY := Fin d; maxY := Fin u |}
      /\ v_zoom (view (zoomExtents rect s)) = Fin z
      /\ (0 < z <= 5)%R
      /\ ((h - l) * z <= W - 2 * 50)%R /\ ((u - d) * z <= H - 2 * 50)%R
      /\ screenToWorld {| x := r_width rect / #2; y := r_height rect / #2 |}
           (view (zoomExtents rect s))
         = {| x := Fin ((l + h) / 2); y := Fin ((d + u) / 2) |}.
Proof.
  intros rect s W H Hreg Hfin EW EH HW HH.
  pose proof (extentBounds_ordered (entities s) no_bounds Hreg
                ordered_no_bounds) as O.
  change (fold_left extentCheck (entities s) no_bounds)
    with (extentBounds (entities s)) in O.
  destruct O as [O | [l [h [d [u [O [Hx Hy]]]]]]];
    [ rewrite O in Hfin; discriminate Hfin | ].
  exists l, h, d, u. unfold zoomExtents.
  destruct (entities s) as [| e0 es] eqn:Es; [ discriminate O | ].
  cbn [List.length Nat.eqb]. rewrite <- Es in *. clear Es e0 es.
  rewrite Hfin. cbn [negb]. rewrite O, EW, EH. cbn [minX maxX minY maxY].
  change (#50) with (Fin 50). change (#2) with (Fin 2). exact_arith.
  rewrite !(div_exact _ 2) by lra.
  assert (SX : Fin (W + - (50 * 2)) / Fin (h + - l) = PInf
               \/ exists r, Fin (W + - (50 * 2)) / Fin (h + - l) = Fin r
                            /\ (0 < r)%R /\ ((h - l) * r = W - 100)%R).
  { simpl. destruct (Req_dec_T (h + - l) 0) as [Z | NZ].
    - left. unfold XReal.signed_inf.
      destruct (Rlt_dec 0 (W + - (50 * 2))); [ reflexivity | lra ].
    - right. eexists. split; [ reflexivity | ]. split.
      + apply Rdiv_lt_0_compat; lra.
      + field. lra. }
  assert (SY : Fin (H + - (50 * 2)) / Fin (u + - d) = PInf
               \/ exists r, Fin (H + - (50 * 2)) / Fin (u + - d) = Fin r
                            /\ (0 < r)%R /\ ((u - d) * r = H - 100)%R).
  { simpl. destruct (Req_dec_T (u + - d) 0) as [Z | NZ].
    - left. unfold XReal.signed_inf.
      destruct (Rlt_dec 0 (H + - (50 * 2))); [ reflexivity | lra ].
    - right. eexists. split; [ reflexivity | ]. split.
      + apply Rdiv_lt_0_compat; lra.
      + field. lra. }
  destruct (min_of_scales (Fin (W + - (50 * 2)) / Fin (h + - l))
              (Fin (H + - (50 * 2)) / Fin (u + - d)))
    as [z [Ez [Hz [Za Zb]]]].
  { destruct SX as [-> | [r [-> [Hr _]]]]; eauto. }
  { destruct SY as [-> | [r [-> [Hr _]]]]; eauto. }
  exists z. split; [ reflexivity | ].
  cbn [view setView v_zoom v_x v_y].
  rewrite Ez. split; [ reflexivity | ]. split; [ exact Hz | ].
  split; [ | split ].
  - destruct SX as [E | [r [E [Hr Er]]]].
    + simpl in E. destruct (Req_dec_T (h + - l) 0) as [Z | NZ];
        [ | discriminate E ].
      replace (h - l)%R with 0%R by lra. lra.
    + specialize (Za r E). nra.
  - destruct SY as [E | [r [E [Hr Er]]]].
    + simpl in E. destruct (Req_dec_T (u + - d) 0) as [Z | NZ];
        [ | discriminate E ].
      replace (u - d)%R with 0%R by lra. lra.
    + specialize (Zb r E). nra.
  - unfold screenToWorld. exact_arith. rewrite !div_exact by lra.
    f_equal; f_equal; field; lra.
Qed.
End ExactBounds.

Lemma the_drawing_is_regular :
  forallb regular (entities ExactDemo.drawing) = true.
Proof.
  unfold regular, kind_of, is_a, ExactDemo.drawing, ExactDemo.wall,
    ExactDemo.arc, ExactDemo.pt.
  cbn -[finite_point]. rewrite !finite_point_of_reals. reflexivity.
Qed.

Lemma the_drawing_has_extents :
  isFinite (minX (extentBounds (entities ExactDemo.drawing))) = true.
Proof.
  apply isFinite_Fin.
  unfold extentBounds, extentCheck, check, ExactDemo.drawing, ExactDemo.wall,
    ExactDemo.arc, ExactDemo.pt. cbn. unfold XReal.Rltb.
  repeat match goal with
         | |- context [Rlt_dec ?a ?b] => destruct (Rlt_dec a b)
         end; eauto.
Qed.

(** The exact drawing on the 800 by 600 canvas. *)
Lemma zoomExtents_fits_the_drawing_witness :
  exists z,
    v_zoom (view (zoomExtents Scenes.canvas ExactDemo.drawing)) = Fin z
    /\ (0 < z <= 5)%R.
Proof.
  destruct (zoomExtents_fits_the_drawing Scenes.canvas ExactDemo.drawing
              800 600 the_drawing_is_regular the_drawing_has_extents
              eq_refl eq_refl ltac:(lra) ltac:(lra))
    as [l [h [d [u [z [_ [E [Hz _]]]]]]]].
  exists z. auto.
Defined.

(* ================================================================= *)
(** ** Exact geometry of a block *)

Section ExactBlocks.
Local Open Scope js_scope.









End ExactBlocks.



(* ================================================================= *)
(** ** Exact geometry of picking *)

Section ExactPicking.
Local Open Scope js_scope.

Lemma isNaN_Fin (a : R) : isNaN (Fin a) = false.
Proof. unfold isNaN. simpl. now rewrite Reqb_refl. Qed.

Lemma Math_min_pair_exact (a b : R) :
  Math_min [Fin a; Fin b] = Fin (if Rlt_dec b a then b else a).
Proof.
  unfold Math_min. cbn [existsb]. rewrite !isNaN_Fin. cbn [orb]. cbv iota.
  cbn [fold_left]. rewrite !no_neg_zero. cbn [andb]. cbv iota.
  cbn [ltb exact_number XReal.ltb Infinity]. unfold XReal.Rltb.
  now destruct (Rlt_dec b a).
Qed.

Lemma Math_max_pair_exact (a b : R) :
  Math_max [Fin a; Fin b] = Fin (if Rlt_dec a b then b else a).
Proof.
  unfold Math_max. cbn [existsb]. rewrite !isNaN_Fin. cbn [orb]. cbv iota.
  cbn [fold_left]. rewrite !no_neg_zero, !andb_false_r. cbv iota.
  cbn [ltb exact_number XReal.ltb Infinity opp XReal.opp]. cbv iota.
  unfold XReal.Rltb. now destruct (Rlt_dec a b).
Qed.

(** [Math.max(0, Math.min(1, t))] on a finite [t]. *)
Lemma clamp_exact (t : R) :
  exists c,
    Math_max [#0; Math_min [#1; Fin t]] = Fin c
    /\ ((t < 0 /\ c = 0) \/ (1 < t /\ c = 1) \/ (0 <= t <= 1 /\ c = t))%R.
Proof.
  change (#0) with (Fin 0). change (#1) with (Fin 1).
  rewrite Math_min_pair_exact, Math_max_pair_exact.
  eexists. split; [ reflexivity | ].
  destruct (Rlt_dec t 1), (Rlt_dec 0 _); lra.
Qed.

Lemma sixty_four (q : R) : (0 <= q)%R -> (sqrt q < 8 <-> q < 64)%R.
Proof.
  intros Hq. replace 8%R with (sqrt 64)
    by (replace 64%R with (8 * 8)%R by lra; apply sqrt_square; lra).
  split.
  - intros L. apply sqrt_lt_0_alt in L. exact L.
  - intros L. apply sqrt_lt_1_alt. lra.
Qed.

(** A wall is picked within 8 of its segment.  On exact numbers,
    for a wall, dimension or leader with distinct finite ends and a
    finite pointer position, the hit test of the SELECT tool succeeds
    exactly when some point of the segment between the ends is nearer
    than 8 to the pointer. *)
Theorem segment_is_hit_within_8 :
  forall (ent : Entity (N:=xreal)) (sx sy ex ey wx wy : R),
    is_a ent "wall" || is_a ent "dimension" || is_a ent "leader" = true ->
    e_start ent = Some {| x := Fin sx; y := Fin sy |} ->
    e_end ent = Some {| x := Fin ex; y := Fin ey |} ->
    (sx <> ex \/ sy <> ey) ->
    hitTest {| x := Fin wx; y := Fin wy |} ent = Some true
    <-> exists t : R,
          (0 <= t <= 1)%R
          /\ ((wx - (sx + t * (ex - sx))) ^ 2
              + (wy - (sy + t * (ey - sy))) ^ 2 < 8 ^ 2)%R.
Proof.
  intros ent sx sy ex ey wx wy Hk Es Ee Hne.
  unfold hitTest. rewrite Hk, Es, Ee. unfold sq. exact_arith.
  set (dx := (ex + - sx)%R). set (dy := (ey + - sy)%R).
  assert (L2 : (0 < dx * dx + dy * dy)%R).
  { assert (dx <> 0 \/ dy <> 0)%R
      by (subst dx dy; destruct Hne; [left | right]; lra).
    pose proof (Rle_0_sqr dx). pose proof (Rle_0_sqr dy). unfold Rsqr in *.
    destruct H as [H | H]; [ assert (0 < dx * dx)%R | assert (0 < dy * dy)%R ];
      try (apply Rsqr_pos_lt in H; unfold Rsqr in H; exact H); lra. }
  change (#0) with (Fin 0) at 1. cbn [eqb exact_number XReal.eqb].
  unfold XReal.Reqb.
  destruct (Req_dec_T (dx * dx + dy * dy) 0) as [Z | _]; [ lra | ].
  rewrite div_exact by lra.
  set (t0 := (((wx + - sx) * dx + (wy + - sy) * dy) / (dx * dx + dy * dy))%R).
  destruct (clamp_exact t0) as [c [-> Hc]]. exact_arith.
  unfold dist, sq. exact_arith.
  set (q := ((sx + c * dx + - wx) * (sx + c * dx + - wx)
             + (sy + c * dy + - wy) * (sy + c * dy + - wy))%R).
  assert (Hq : (0 <= q)%R).
  { pose proof (Rle_0_sqr (sx + c * dx + - wx)).
    pose proof (Rle_0_sqr (sy + c * dy + - wy)). unfold Rsqr in *.
    subst q. lra. }
  rewrite sqrt_exact by exact Hq.
  change (#8) with (Fin 8). cbn [ltb exact_number XReal.ltb].
  unfold XReal.Rltb.
  assert (T0 : (t0 * (dx * dx + dy * dy)
                = (wx + - sx) * dx + (wy + - sy) * dy)%R)
    by (subst t0; field; lra).
  split.
  - destruct (Rlt_dec (sqrt q) 8) as [L | ]; [ intros _ | discriminate ].
    apply sixty_four in L; [ | exact Hq ].
    exists c. split; [ lra | ]. subst q dx dy. nra.
  - intros [t [Ht Lt]].
    destruct (Rlt_dec (sqrt q) 8) as [ | NL ]; [ reflexivity | exfalso ].
    apply NL, sixty_four; [ exact Hq | ].
    assert (M : (q <= (wx - (sx + t * (ex - sx))) ^ 2
                      + (wy - (sy + t * (ey - sy))) ^ 2)%R).
    { assert (F : ((wx - (sx + t * (ex - sx))) ^ 2
                   + (wy - (sy + t * (ey - sy))) ^ 2 - q
                   = (t - c) * (t + c - 2 * t0) * (dx * dx + dy * dy))%R).
      { replace (2 * t0 * (dx * dx + dy * dy))%R
          with (2 * ((wx + - sx) * dx + (wy + - sy) * dy))%R
          in * by (rewrite <- T0; ring).
        subst q dx dy.
        replace ((t - c) * (t + c - 2 * t0)
                 * ((ex + - sx) * (ex + - sx) + (ey + - sy) * (ey + - sy)))%R
          with ((t - c) * (t + c)
                * ((ex + - sx) * (ex + - sx) + (ey + - sy) * (ey + - sy))
                - (t - c)
                  * (2 * t0 * ((ex + - sx) * (ex + - sx)
                               + (ey + - sy) * (ey + - sy))))%R by ring.
        replace (2 * t0 * ((ex + - sx) * (ex + - sx)
                           + (ey + - sy) * (ey + - sy)))%R
          with (2 * ((wx + - sx) * (ex + - sx) + (wy + - sy) * (ey + - sy)))%R
          by (rewrite <- T0; ring).
        ring. }
      assert (P : (0 <= (t - c) * (t + c - 2 * t0))%R).
      { destruct Hc as [[A ->] | [[A ->] | [A ->]]].
        - apply Rmult_le_pos; lra.
        - replace ((t - 1) * (t + 1 - 2 * t0))%R
            with ((1 - t) * (2 * t0 - t - 1))%R by ring.
          apply Rmult_le_pos; lra.
        - replace ((t - t0) * (t + t0 - 2 * t0))%R
            with ((t - t0) * (t - t0))%R by ring.
          apply Rle_0_sqr. }
      pose proof (Rmult_le_pos _ _ P (Rlt_le _ _ L2)). lra. }
    lra.
Qed.
End ExactPicking.

(** The wall from (0,0) to (10,4) is hit at (5,5), which is within 8
    of its end (10,4) and even nearer to its middle. *)
Lemma segment_is_hit_within_8_witness :
  hitTest (ExactDemo.pt 5 5) ExactDemo.wall = Some true.
Proof.
  apply (proj2 (segment_is_hit_within_8 ExactDemo.wall 0 0 10 4 5 5
                  eq_refl eq_refl eq_refl ltac:(left; lra))).
  exists (1 / 2)%R. split; lra.
Defined.

(* ================================================================= *)
(** ** The grid *)

Section ExactGrid.
Local Open Scope js_scope.

(** The remainder of a finite number by a positive one. *)
Lemma rem_exact (a b : R) :
  (0 < b)%R ->
  exists (r : R) (k : Z),
    rem (Fin a) (Fin b) = Fin r /\ (a = r + IZR k * b)%R /\ (Rabs r < b)%R
    /\ (0 <= a -> 0 <= r)%R /\ (a <= 0 -> r <= 0)%R.
Proof.
  intros Hb. cbn [rem exact_number XReal.rem].
  destruct (Req_dec_T b 0); [ lra | ].
  exists (a - b * IZR (XReal.trunc (a / b)))%R, (XReal.trunc (a / b)).
  split; [ reflexivity | ]. split; [ ring | ].
  unfold XReal.trunc.
  assert (Q : (a = a / b * b)%R) by (field; lra).
  remember (a / b)%R as q eqn:Eq. clear Eq. subst a.
  destruct (Rle_dec 0 q) as [P | P].
  - destruct (base_Int_part q) as [I1 I2].
    assert (A : (0 <= q * b)%R) by (apply Rmult_le_pos; lra).
    assert (Z0 : (q * b <= 0 -> q * b - b * IZR (Int_part q) <= 0)%R).
    { intros Le. assert (E : (q * b = 0)%R) by lra.
      apply Rmult_integral in E as [E | E]; [ | lra ]. subst q.
      assert (K : Int_part 0 = 0%Z).
      { apply le_IZR in I1. 
        assert (K2 : (-1 < Int_part 0)%Z) by (apply lt_IZR; lra). lia. }
      rewrite K. lra. }
    remember (IZR (Int_part q)) as i eqn:Ei. clear Ei.
    replace (q * b - b * i)%R with (b * (q - i))%R in * by ring.
    assert (R1 : (0 <= b * (q - i))%R) by (apply Rmult_le_pos; lra).
    assert (R2 : (b * (q - i) < b)%R).
    { replace b with (b * 1)%R at 2 by ring.
      apply Rmult_lt_compat_l; lra. }
    split; [ rewrite Rabs_right; lra | ]. split; [ intros; lra | exact Z0 ].
  - destruct (base_Int_part (- q)) as [I1 I2].
    rewrite opp_IZR.
    remember (IZR (Int_part (- q))) as i eqn:Ei. clear Ei.
    apply Rnot_le_lt in P.
    assert (A : (q * b < 0)%R).
    { replace 0%R with (0 * b)%R by ring. apply Rmult_lt_compat_r; lra. }
    replace (q * b - b * - i)%R with (- (b * (- q - i)))%R by ring.
    assert (R1 : (0 <= b * (- q - i))%R) by (apply Rmult_le_pos; lra).
    assert (R2 : (b * (- q - i) < b)%R).
    { replace b with (b * 1)%R at 2 by ring.
      apply Rmult_lt_compat_l; lra. }
    split; [ rewrite Rabs_left1; lra | ]. split; intros; lra.
Qed.

(** The grid is drawn from zoom 0.2 on and stays aligned with
    the world.  On exact numbers and a finite view, [renderGrid] draws
    nothing when 50 times the zoom is below 10; otherwise the cell is 50
    times the zoom, and each offset of the pattern is smaller than a
    cell in absolute value, has the sign of the view offset, and differs
    from it by a whole number of cells. *)
Theorem grid_is_aligned_with_the_world :
  forall (s : AppState (N:=xreal)) (vx vy z : R),
    view s = {| v_x := Fin vx; v_y := Fin vy; v_zoom := Fin z |} ->
    ((50 * z < 10)%R -> renderGrid s = None)
    /\ ((10 <= 50 * z)%R ->
        exists (ox oy : R) (kx ky : Z),
          renderGrid s
          = Some {| cell := Fin (50 * z); offsetX := Fin ox;
                    offsetY := Fin oy |}
          /\ (vx = ox + IZR kx * (50 * z))%R /\ (Rabs ox < 50 * z)%R
          /\ (0 <= vx -> 0 <= ox)%R /\ (vx <= 0 -> ox <= 0)%R
          /\ (vy = oy + IZR ky * (50 * z))%R /\ (Rabs oy < 50 * z)%R
          /\ (0 <= vy -> 0 <= oy)%R /\ (vy <= 0 -> oy <= 0)%R).
Proof.
  intros s vx vy z Ev. unfold renderGrid. rewrite Ev.
  change (#50) with (Fin 50). change (#10) with (Fin 10). exact_arith.
  cbn [ltb exact_number XReal.ltb]. unfold XReal.Rltb.
  destruct (Rlt_dec (50 * z) 10) as [L | NL]; split; intros Hz;
    try reflexivity; try lra.
  destruct (rem_exact vx (50 * z)) as [ox [kx [Ex Px]]]; [ lra | ].
  destruct (rem_exact vy (50 * z)) as [oy [ky [Ey Py]]]; [ lra | ].
  exists ox, oy, kx, ky. rewrite Ex, Ey. split; [ reflexivity | ].
  tauto.
Qed.
End ExactGrid.

Section Marks.
Context {N : Type} `{JSNumber N}.

(** The CENTERMARK tool does not look at the pointer.  A press
    marks the first circle or arc of the list that is not selected,
    wherever the press is: two presses of a button other than the middle
    one, at any two positions, do the same to the same state. *)
Theorem centermark_ignores_the_pointer :
  forall (e1 e2 : MouseEvent) rect1 rect2 answer1 answer2
    (s : AppState (N:=N)),
    activeTool s = CENTERMARK -> button e1 <> 1%Z -> button e2 <> 1%Z ->
    handleMouseDown e1 rect1 answer1 s = handleMouseDown e2 rect2 answer2 s.
Proof.
  intros e1 e2 rect1 rect2 answer1 answer2 s Htool H1 H2.
  apply Z.eqb_neq in H1, H2. unfold handleMouseDown.
  rewrite H1, H2, Htool. reflexivity.
Qed.
End Marks.

(** The grid of the default view: cells of 50, no offset. *)
Lemma grid_is_aligned_with_the_world_witness :
  exists ox oy,
    renderGrid ExactDemo.drawing
    = Some {| cell := Fin (50 * 1); offsetX := Fin ox; offsetY := Fin oy |}
    /\ (0 <= ox < 50 * 1)%R.
Proof.
  destruct (proj2 (grid_is_aligned_with_the_world ExactDemo.drawing 0 0 1
                     eq_refl) ltac:(lra))
    as [ox [oy [kx [ky [E [_ [A [P _]]]]]]]].
  exists ox, oy. split; [ exact E | ].
  split; [ apply P; lra | ]. apply Rabs_def2 in A. lra.
Defined.

(** Two presses far apart mark the same circle. *)
Lemma centermark_ignores_the_pointer_witness :
  handleMouseDown (Demo.press 0 0) Demo.canvas None Scenes.marking
  = handleMouseDown (Demo.press 700 500) Demo.canvas None Scenes.marking.
Proof.
  apply centermark_ignores_the_pointer;
    [ reflexivity | discriminate | discriminate ].
Defined.

(* ================================================================= *)
(** ** Identifiers stay distinct *)

Section Subsequences.
Context {A : Type}.

Lemma subseq_refl (l : list A) : subseq l l.
Proof. induction l; constructor; assumption. Qed.

Lemma subseq_nil_l (l : list A) : subseq [] l.
Proof. induction l; constructor; assumption. Qed.

Lemma subseq_app (a b c d : list A) :
  subseq a b -> subseq c d -> subseq (a ++ c) (b ++ d).
Proof.
  intros Hab Hcd. induction Hab; simpl; [ exact Hcd | | ];
    constructor; assumption.
Qed.

Lemma subseq_prefix (l r : list A) : subseq l (l ++ r).
Proof.
  rewrite <- (app_nil_r l) at 1.
  apply subseq_app; [ apply subseq_refl | apply subseq_nil_l ].
Qed.

Lemma subseq_trans (a b c : list A) :
  subseq a b -> subseq b c -> subseq a c.
Proof.
  intros Hab Hbc. revert a Hab.
  induction Hbc as [| x b c Hbc IH | x b c Hbc IH]; intros a Hab.
  - exact Hab.
  - constructor. now apply IH.
  - inversion Hab; subst; constructor; now apply IH.
Qed.

Lemma subseq_In (l l' : list A) (a : A) : subseq l l' -> In a l -> In a l'.
Proof.
  intros Hs. induction Hs; simpl; [ tauto | auto | ].
  intros [-> | Hin]; auto.
Qed.

Lemma subseq_NoDup (l l' : list A) : subseq l l' -> NoDup l' -> NoDup l.
Proof.
  intros Hs. induction Hs as [| a l l' Hs IH | a l l' Hs IH]; intros Hd.
  - exact Hd.
  - inversion_clear Hd. auto.
  - inversion_clear Hd as [| ? ? Ha Hd']. constructor; [ | auto ].
    intros Hin. apply Ha. now apply (subseq_In l l').
Qed.

Lemma subseq_filter (p : A -> bool) (l : list A) : subseq (filter p l) l.
Proof.
  induction l as [| a l IH]; simpl; [ constructor | ].
  destruct (p a); constructor; assumption.
Qed.

Lemma subseq_map {B} (f : A -> B) (l l' : list A) :
  subseq l l' -> subseq (map f l) (map f l').
Proof. intros Hs. induction Hs; simpl; constructor; assumption. Qed.
End Subsequences.

Section Identifiers.
Context {N : Type} `{JSNumber N}.

Lemma upcoming_app (s : AppState (N:=N)) (m n : nat) :
  upcoming s (m + n)
  = upcoming s m ++ upcoming (set_drawn (drawn s + m) s) n.
Proof. unfold upcoming. now rewrite seq_app, map_app. Qed.

Lemma upcoming_of (s s' : AppState (N:=N)) (n : nat) :
  random s' = random s -> drawn s' = drawn s ->
  upcoming s' n = upcoming s n.
Proof. unfold upcoming. now intros -> ->. Qed.

Lemma advances_refl (s : AppState (N:=N)) : advances s s.
Proof.
  split; [ reflexivity | ]. exists 0. split; [ lia | ].
  apply subseq_prefix.
Qed.

Lemma advances_trans (s s' s'' : AppState (N:=N)) :
  advances s s' -> advances s' s'' -> advances s s''.
Proof.
  intros [R1 [m1 [D1 S1]]] [R2 [m2 [D2 S2]]].
  split; [ congruence | ]. exists (m1 + m2). split; [ lia | ].
  rewrite upcoming_app, app_assoc.
  apply (subseq_trans _ _ _ S2). apply subseq_app; [ exact S1 | ].
  rewrite (upcoming_of s' (set_drawn (drawn s + m1) s) m2 (eq_sym R1)
             (eq_sym D1)).
  apply subseq_refl.
Qed.

Lemma advances_distinct (s s' : AppState (N:=N)) :
  advances s s' -> distinct_ids s -> distinct_ids s'.
Proof.
  intros [R [m [D S]]] Hd n.
  apply (subseq_NoDup _ (ids s ++ upcoming s (m + n))); [ | apply Hd ].
  rewrite upcoming_app, app_assoc. apply subseq_app; [ exact S | ].
  rewrite (upcoming_of s' (set_drawn (drawn s + m) s) n (eq_sym R) (eq_sym D)).
  apply subseq_refl.
Qed.

(** The ways in which an operation advances. *)
Lemma advances_same (s s' : AppState (N:=N)) (m : nat) :
  random s' = random s -> drawn s' = drawn s + m -> ids s' = ids s ->
  advances s s'.
Proof.
  intros R D I. split; [ exact R | ]. exists m. split; [ exact D | ].
  rewrite I. apply subseq_prefix.
Qed.

Lemma advances_fewer (s s' : AppState (N:=N)) (m : nat) :
  random s' = random s -> drawn s' = drawn s + m ->
  subseq (ids s') (ids s) -> advances s s'.
Proof.
  intros R D I. split; [ exact R | ]. exists m. split; [ exact D | ].
  apply (subseq_trans _ _ _ I), subseq_prefix.
Qed.

Lemma advances_more (s s' : AppState (N:=N)) (m : nat) :
  random s' = random s -> drawn s' = drawn s + m ->
  (exists l, subseq l (ids s) /\ ids s' = l ++ upcoming s m) ->
  advances s s'.
Proof.
  intros R D [l [L I]]. split; [ exact R | ]. exists m.
  split; [ exact D | ]. rewrite I.
  apply subseq_app; [ exact L | apply subseq_refl ].
Qed.

Lemma upcoming_one (s : AppState (N:=N)) :
  upcoming s 1 = [Some (random s (drawn s))].
Proof. reflexivity. Qed.

Lemma ids_map (g : Entity (N:=N) -> Entity (N:=N)) (l : list Entity) :
  (forall a, e_id (g a) = e_id a) -> map e_id (map g l) = map e_id l.
Proof. intros Hg. rewrite map_map. now apply map_ext. Qed.

Lemma ids_map_throwing (f : Entity (N:=N) -> option (Entity (N:=N))) :
  (forall a b, f a = Some b -> e_id b = e_id a) ->
  forall l l' : list (Entity (N:=N)),
    map_throwing f l = Some l' -> map e_id l' = map e_id l.
Proof.
  intros Hf. induction l as [| a l IH]; intros l'; simpl.
  - now intros [= <-].
  - destruct (f a) as [b | ] eqn:Eb; [ | discriminate ].
    destruct (map_throwing f l) as [bs | ]; [ | discriminate ].
    intros [= <-]. simpl. now rewrite (Hf a b Eb), (IH bs).
Qed.

Lemma ids_labelled (f : Entity (N:=N) -> string -> option (Entity (N:=N)))
  rnd :
  (forall a i b, f a i = Some b -> e_id b = Some i) ->
  forall (l bs : list (Entity (N:=N))) n,
    map Some bs = labelled f l rnd n ->
    map e_id bs = map (fun k => Some (rnd k)) (seq n (List.length l)).
Proof.
  intros Hf. induction l as [| a l IH]; intros [| b bs] n; simpl;
    try discriminate; [ reflexivity | ].
  intros [= E1 E2]. symmetry in E1. apply Hf in E1.
  now rewrite E1, (IH bs (S n)).
Qed.

Lemma moveEntity_id (dx dy : N) (a b : Entity (N:=N)) :
  moveEntity dx dy a = Some b -> e_id b = e_id a.
Proof.
  unfold moveEntity.
  repeat match goal with
         | |- context [if ?c then _ else _] => destruct c
         end;
    repeat match goal with
           | |- context [match ?o with Some _ => _ | None => _ end] =>
               destruct o
           end;
    intros E; try discriminate E; injection E as <-; reflexivity.
Qed.

Lemma rotateEntity_id (cx cy : N) (a b : Entity (N:=N)) :
  rotateEntity cx cy a = Some b -> e_id b = e_id a.
Proof.
  unfold rotateEntity.
  repeat match goal with
         | |- context [if ?c then _ else _] => destruct c
         end;
    repeat match goal with
           | |- context [match ?o with Some _ => _ | None => _ end] =>
               destruct o
           end;
    intros E; try discriminate E; injection E as <-; reflexivity.
Qed.

Lemma mirrorCopy_id (axisX : N) (a b : Entity (N:=N)) (i : string) :
  mirrorCopy axisX a i = Some b -> e_id b = Some i.
Proof.
  unfold mirrorCopy.
  repeat match goal with
         | |- context [if ?c then _ else _] => destruct c
         end;
    repeat match goal with
           | |- context [match ?o with Some _ => _ | None => _ end] =>
               destruct o
           end;
    intros E; try discriminate E; injection E as <-; reflexivity.
Qed.

(** An operation whose result is at hand advances when it keeps the
    identifiers, with or without drawing one, or appends the one it
    draws. *)
Ltac solve_advances :=
  first
    [ apply advances_same with (m := 0);
      [ reflexivity | simpl; lia | reflexivity ]
    | apply advances_same with (m := 1);
      [ reflexivity | simpl; lia | reflexivity ]
    | apply advances_more with (m := 1);
      [ reflexivity | simpl; lia
      | eexists; split;
        [ apply subseq_refl
        | unfold ids; cbn [entities setEntities set_drawn setTempPoints
                             setActiveTool setDrawingStart setIsDragging
                             setDragStart setMousePos setView setBlockDefs
                             setActiveBlockName];
          rewrite map_app; reflexivity ] ] ].

Lemma release_advances answer (s : AppState (N:=N)) :
  advances s (handleMouseUp answer s).
Proof.
  unfold handleMouseUp.
  destruct (activeTool s), (drawingStart s) as [p | ];
    repeat match goal with
           | |- context [if ?b then _ else _] => destruct b
           end;
    try destruct (nonempty answer); cbn [generateId]; solve_advances.
Qed.

Lemma press_advances (e : MouseEvent) rect answer (s s' : AppState (N:=N)) :
  handleMouseDown e rect answer s = Some s' -> advances s s'.
Proof.
  unfold handleMouseDown.
  destruct ((button e =? 1)%Z || ToolType_eqb (activeTool s) SELECT).
  - cbn [activeTool setIsDragging setDragStart entities].
    destruct (ToolType_eqb (activeTool s) SELECT);
      [ | intros [= <-]; solve_advances ].
    destruct (find_throwing _ _) as [[h | ] | ]; [ | | discriminate ];
      destruct (ctrlKey e); intros [= <-];
      try solve_advances;
      (apply advances_same with (m := 0);
       [ reflexivity | simpl; lia
       | unfold ids; cbn [entities setEntities setIsDragging setDragStart];
         apply ids_map; intros a;
         try destruct (same (e_id a) (e_id h)); reflexivity ]).
  - destruct (activeTool s);
      repeat match goal with
             | |- context [match nonempty ?a with _ => _ end] =>
                 destruct (nonempty a)
             | |- context [match find ?f ?l with _ => _ end] =>
                 destruct (find f l)
             | |- context [match centerOf ?h with _ => _ end] =>
                 destruct (centerOf h) as [[[ctr | ] size] | ]
             | |- context [if ?b then _ else _] => destruct b
             end;
      cbn [generateId];
      intros E; try discriminate E; injection E as <-; solve_advances.
Qed.

Lemma move_advances (e : MoveEvent) rect (s s' : AppState (N:=N)) :
  handleMouseMove e rect s = Some s' -> advances s s'.
Proof.
  unfold handleMouseMove. cbn [dragStart isDragging activeTool entities view
    setMousePos].
  destruct (dragStart s) as [from | ]; [ | intros [= <-]; solve_advances ].
  destruct (isDragging s && ToolType_eqb (activeTool s) SELECT);
    [ | intros [= <-]; solve_advances ].
  destruct (_ || _); [ intros [= <-]; solve_advances | ].
  destruct (_ && _); [ | intros [= <-]; solve_advances ].
  destruct (map_throwing _ _) as [moved | ] eqn:E; [ | discriminate ].
  intros [= <-]. apply advances_same with (m := 0);
    [ reflexivity | simpl; lia | ].
  unfold ids. cbn [entities setEntities setDragStart setMousePos].
  apply (ids_map_throwing _ (moveEntity_id _ _) _ _ E).
Qed.

Lemma commitPolyline_advances (s : AppState (N:=N)) :
  advances s (commitPolyline s).
Proof. unfold commitPolyline. cbn [generateId]. solve_advances. Qed.

Lemma deleteSelected_advances (s : AppState (N:=N)) :
  advances s (deleteSelected s).
Proof.
  apply advances_fewer with (m := 0); [ reflexivity | simpl; lia | ].
  apply subseq_map, subseq_filter.
Qed.

Lemma key_advances key (s : AppState (N:=N)) :
  advances s (handleKeyDown key s).
Proof.
  unfold handleKeyDown.
  set (s1 := if _ : bool then _ else s).
  assert (A1 : advances s s1)
    by (subst s1; destruct (_ || _);
        [ apply deleteSelected_advances | apply advances_refl ]).
  set (s2 := if String.eqb key "Enter" then _ else s1).
  assert (A2 : advances s1 s2).
  { subst s2. destruct (String.eqb key "Enter"); [ | apply advances_refl ].
    destruct (_ && _);
      [ apply commitPolyline_advances | apply advances_refl ]. }
  apply (advances_trans _ _ _ A1), (advances_trans _ _ _ A2).
  destruct (String.eqb key "Escape"); solve_advances.
Qed.

Lemma menu_advances (s : AppState (N:=N)) : advances s (handleContextMenu s).
Proof.
  unfold handleContextMenu.
  destruct (_ && _); [ apply commitPolyline_advances | solve_advances ].
Qed.

Lemma drawing_advances (f : Entity (N:=N) -> string -> option (Entity (N:=N)))
  (g : Entity (N:=N) -> Entity (N:=N)) (s s' : AppState) sel copies :
  (forall a i b, f a i = Some b -> e_id b = Some i) ->
  (forall a, e_id (g a) = e_id a) ->
  map_drawing f sel s = Some (copies, s') ->
  advances s (setEntities (map g (entities s) ++ copies) s').
Proof.
  intros Hf Hg E. apply map_drawing_Some in E as [E ->].
  apply (ids_labelled f _ Hf) in E.
  apply advances_more with (m := List.length sel);
    [ reflexivity | reflexivity | ].
  exists (ids s). split; [ apply subseq_refl | ].
  unfold ids, upcoming. cbn [entities setEntities].
  now rewrite map_app, E, ids_map.
Qed.

Lemma copy_advances (s s' : AppState (N:=N)) :
  copySelected s = Some s' -> advances s s'.
Proof.
  unfold copySelected.
  destruct (map_drawing _ _ _) as [[copies s1] | ] eqn:E; [ | discriminate ].
  intros [= <-]. apply (drawing_advances _ _ _ _ _ _) with (3 := E).
  - intros a i b Eb. now apply copyEntity_selected in Eb.
  - reflexivity.
Qed.

Lemma mirror_advances (s s' : AppState (N:=N)) :
  mirrorSelected s = Some s' -> advances s s'.
Proof.
  unfold mirrorSelected.
  destruct (List.length _ =? 0)%nat; [ intros [= <-]; apply advances_refl | ].
  destruct (mirrorBounds _) as [lo hi].
  destruct (negb _); [ intros [= <-]; apply advances_refl | ].
  destruct (map_drawing _ _ _) as [[copies s1] | ] eqn:E; [ | discriminate ].
  intros [= <-]. apply (drawing_advances _ _ _ _ _ _) with (3 := E).
  - intros a i b. apply mirrorCopy_id.
  - intros a. now destruct (is_selected a).
Qed.

Lemma rotate_advances (s s' : AppState (N:=N)) :
  rotateSelected s = Some s' -> advances s s'.
Proof.
  unfold rotateSelected.
  destruct (List.length _ =? 0)%nat; [ intros [= <-]; apply advances_refl | ].
  destruct (negb _); [ intros [= <-]; apply advances_refl | ].
  destruct (map_throwing _ _) as [es | ] eqn:E; [ | discriminate ].
  intros [= <-]. apply advances_same with (m := 0);
    [ reflexivity | simpl; lia | ].
  apply (ids_map_throwing _ (rotateEntity_id _ _) _ _ E).
Qed.

Lemma block_advances answer (s s' : AppState (N:=N)) msg :
  createBlock answer s = Some (s', msg) -> advances s s'.
Proof.
  unfold createBlock.
  destruct (List.length _ =? 0)%nat; [ intros [= <- _]; apply advances_refl | ].
  destruct (nonempty answer) as [name | ];
    [ | intros [= <- _]; apply advances_refl ].
  destruct (has_block _ _); [ intros [= <- _]; apply advances_refl | ].
  destruct (map_throwing _ _) as [es | ]; [ | discriminate ].
  cbn [generateId]. intros [= <- _].
  apply advances_more with (m := 1); [ reflexivity | simpl; lia | ].
  exists (map e_id (filter (fun e => negb (is_selected e)) (entities s))).
  split; [ apply subseq_map, subseq_filter | ].
  unfold ids. cbn [entities setEntities set_drawn setBlockDefs].
  now rewrite map_app.
Qed.

Lemma applyAction_advances (s : AppState (N:=N)) (act : Entity) :
  advances s (applyAction s act).
Proof.
  unfold applyAction.
  destruct (same _ (Some "clear"%string)).
  { apply advances_fewer with (m := 0); [ reflexivity | simpl; lia | ].
    apply subseq_nil_l. }
  destruct (same _ (Some "create"%string)).
  { cbn [generateId].
    repeat match goal with
           | |- context [if ?b then _ else _] => destruct b
           end; solve_advances. }
  destruct (same _ (Some "delete"%string)).
  { apply advances_fewer with (m := 0); [ reflexivity | simpl; lia | ].
    apply subseq_map, subseq_filter. }
  destruct (same _ (Some "update"%string)); [ | apply advances_refl ].
  apply advances_same with (m := 0); [ reflexivity | simpl; lia | ].
  unfold ids. cbn [entities setEntities]. apply ids_map. intros e.
  destruct (same (e_id e) (e_id act)) eqn:X; [ | reflexivity ].
  cbn [e_id set_action spread].
  destruct (e_id e), (e_id act); simpl in X; try discriminate X;
    try reflexivity.
  apply String.eqb_eq in X. now subst.
Qed.

Lemma applyActions_advances (actions : list Entity) :
  forall s : AppState (N:=N), advances s (applyActions actions s).
Proof.
  unfold applyActions.
  induction actions as [| act actions IH]; intros s; simpl.
  - apply advances_refl.
  - apply (advances_trans _ _ _ (applyAction_advances s act)), IH.
Qed.

Lemma step_advances (s s' : AppState (N:=N)) : step s s' -> advances s s'.
Proof.
  intros [e rect answer s0 s1 E | e rect s0 s1 E | answer s0 | key s0 | s0
         | e rect s0 | tool s0 | s0 s1 E | s0 s1 E | s0 s1 E | s0
         | answer s0 s1 msg E | answer s0 | rect s0 | s0 | confirmed s0
         | actions s0].
  - exact (press_advances _ _ _ _ _ E).
  - exact (move_advances _ _ _ _ E).
  - apply release_advances.
  - apply key_advances.
  - apply menu_advances.
  - solve_advances.
  - solve_advances.
  - exact (copy_advances _ _ E).
  - exact (mirror_advances _ _ E).
  - exact (rotate_advances _ _ E).
  - apply deleteSelected_advances.
  - exact (block_advances _ _ _ _ E).
  - unfold insertBlock. destruct (_ =? 0)%nat; [ apply advances_refl | ].
    destruct (nonempty answer); [ | apply advances_refl ].
    destruct (has_block _ _); [ solve_advances | apply advances_refl ].
  - unfold zoomExtents. destruct (_ =? 0)%nat; [ solve_advances | ].
    destruct (negb _); [ apply advances_refl | solve_advances ].
  - solve_advances.
  - destruct confirmed; [ | apply advances_refl ].
    apply advances_fewer with (m := 0); [ reflexivity | simpl; lia | ].
    apply subseq_nil_l.
  - apply applyActions_advances.
Qed.

Lemma runs_advance (s s' : AppState (N:=N)) : runs s s' -> advances s s'.
Proof.
  induction 1 as [s | s s' s'' St _ IH]; [ apply advances_refl | ].
  exact (advances_trans _ _ _ (step_advances _ _ St) IH).
Qed.

Lemma upcoming_distinct (rnd : nat -> string) :
  (forall j k, rnd j = rnd k -> j = k) ->
  forall n d, NoDup (map (fun k => Some (rnd k)) (seq d n)).
Proof.
  intros Hinj. induction n as [| n IH]; intros d; simpl; constructor.
  - intros Hin. apply in_map_iff in Hin as [k [[= E] Hk]].
    apply Hinj in E. subst k. apply in_seq in Hk. lia.
  - apply IH.
Qed.

(** Identifiers stay distinct.  Assume that [Math.random] never
    yields the same identifier twice.  Then, in every state that a run
    of the engine reaches from an empty drawing, no two entities have
    the same identifier; and, whatever the drawing, a run that starts
    with distinct identifiers, in use and to come, ends with distinct
    identifiers. *)
Theorem identifiers_stay_distinct :
  forall s s' : AppState (N:=N),
    runs s s' ->
    (distinct_ids s -> distinct_ids s')
    /\ (entities s = [] ->
        (forall j k, random s j = random s k -> j = k) ->
        NoDup (map e_id (entities s'))).
Proof.
  intros s s' Hr. apply runs_advance in Hr. split.
  - now apply advances_distinct.
  - intros He Hinj.
    assert (D : distinct_ids s).
    { intros n. unfold ids, upcoming. rewrite He. cbn [map app].
      now apply upcoming_distinct. }
    pose proof (advances_distinct _ _ Hr D 0) as P.
    unfold upcoming in P. cbn [seq map] in P. now rewrite app_nil_r in P.
Qed.
End Identifiers.

Lemma ids_are_injective : forall j k, Demo.ids j = Demo.ids k -> j = k.
Proof.
  intros j k E. unfold Demo.ids in E. injection E as E.
  apply (f_equal NilEmpty.uint_of_string) in E.
  rewrite !NilEmpty.usu in E. injection E as E.
  now apply DecimalNat.Unsigned.to_uint_inj.
Qed.

(** A wall drawn with the WALL tool, then what a reply of the
    assistant with two creations adds. *)
Lemma identifiers_stay_distinct_witness :
  NoDup (map e_id
           (entities
              (applyActions
                 [Demo.create_rect_no_height; Demo.create_rect_no_height]
                 (handleMouseUp None
                    (Demo.dragging WALL (Demo.pt 0 0) (Demo.pt 100 0)))))).
Proof.
  refine (proj2 (identifiers_stay_distinct
                   (Demo.dragging WALL (Demo.pt 0 0) (Demo.pt 100 0)) _ _)
            eq_refl ids_are_injective).
  eapply runs_more; [ apply (step_release None) | ].
  eapply runs_more; [ apply step_actions | ].
  apply runs_none.
Defined.
